(** * mqtt_io.server_trio: the MQTTIO supervisor

    A shallow embedding of [src/mqtt_io/server_trio.py] and the properties
    of its connection-option derivation, start-up, message fan-out and
    shutdown sequence.

    Layout:
    - [Py]: the Python values the server manipulates ([str] as a list of
      code points, [bytes], [dict], exceptions), with [str.encode("utf8")]
      and [hashlib.sha1];
    - [MQTTIO._init_mqtt_config];
    - the effectful methods, run against a [world] that stands for the
      collaborators (broker client, trio, the IO modules) and recording
      every call made on them in a trace;
    - observations on traces, the worlds and the scenario used in examples;
    - the theorems. *)

From stdpp Require Import gmap strings list.
From Stdlib Require Import ZArith Lia.

Local Set Warnings "-register-all".
Local Open Scope Z_scope.

(* ===================================================================== *)
(** ** Python values *)
(* ===================================================================== *)

Module Py.

(** A Python [str] is a sequence of Unicode code points; [bytes] is a
    sequence of octets. *)
Definition pystr : Type := list Z.
Definition bytes : Type := list Z.

(** ASCII literals of the source text. *)
Definition lit (s : string) : pystr :=
  map (fun a => Z.of_nat (Ascii.nat_of_ascii a)) (String.list_ascii_of_string s).

(** The exceptions that the modelled code can raise or let through. *)
Inductive exn : Type :=
| RuntimeError (msg : string)
| KeyError (key : string)
| TypeError
| AttributeError
| UnicodeEncodeError
| Cancelled                       (* trio.Cancelled *)
| KeyboardInterrupt
| Killed                          (* no exception: the process is gone *)
| External (name : string).       (* raised inside a collaborator *)

(** Outcome of evaluating a Python expression or call. *)
Inductive result (A : Type) : Type :=
| Return (a : A)
| Raise (e : exn).
Arguments Return {A} a.
Arguments Raise {A} e.

#[global] Instance result_ret : MRet result := fun _ a => Return a.
#[global] Instance result_bind : MBind result := fun _ _ f r =>
  match r with
  | Return a => f a
  | Raise e => Raise e
  end.

Inductive pyval : Type :=
| PNone
| PBool (b : bool)
| PInt (z : Z)
| PStr (s : pystr)
| PDict (d : gmap string pyval).

(** Truth value testing ([if x:], [not x]). *)
Definition truthy (v : pyval) : bool :=
  match v with
  | PNone => false
  | PBool b => b
  | PInt z => negb (z =? 0)
  | PStr s => match s with [] => false | _ => true end
  | PDict d => negb (bool_decide (d = ∅))
  end.

(** [d[key]] *)
Definition getitem (d : pyval) (key : string) : result pyval :=
  match d with
  | PDict m => match m !! key with
               | Some v => Return v
               | None => Raise (KeyError key)
               end
  | _ => Raise TypeError
  end.

(** [d.get(key, dflt)] *)
Definition get (d : pyval) (key : string) (dflt : pyval) : result pyval :=
  match d with
  | PDict m => Return (default dflt (m !! key))
  | _ => Raise AttributeError
  end.

(** [key in d]: key membership for a [dict], substring test for a [str]. *)
Fixpoint starts_with (p s : pystr) : bool :=
  match p, s with
  | [], _ => true
  | a :: p', b :: s' => (a =? b) && starts_with p' s'
  | _ :: _, [] => false
  end.

Fixpoint substring (p s : pystr) : bool :=
  starts_with p s || match s with [] => false | _ :: s' => substring p s' end.

Definition contains (d : pyval) (key : string) : result bool :=
  match d with
  | PDict m => Return (bool_decide (is_Some (m !! key)))
  | PStr s => Return (substring (lit key) s)
  | _ => Raise TypeError
  end.

(** *** [str.encode("utf8")] *)

Definition utf8_encode_char (c : Z) : option bytes :=
  if c <? 0 then None
  else if c <? 0x80 then Some [c]
  else if c <? 0x800 then
    Some [Z.lor 0xC0 (Z.shiftr c 6); Z.lor 0x80 (Z.land c 0x3F)]
  else if c <? 0x10000 then
    if (0xD800 <=? c) && (c <=? 0xDFFF) then None   (* lone surrogate *)
    else Some [Z.lor 0xE0 (Z.shiftr c 12);
               Z.lor 0x80 (Z.land (Z.shiftr c 6) 0x3F);
               Z.lor 0x80 (Z.land c 0x3F)]
  else if c <=? 0x10FFFF then
    Some [Z.lor 0xF0 (Z.shiftr c 18);
          Z.lor 0x80 (Z.land (Z.shiftr c 12) 0x3F);
          Z.lor 0x80 (Z.land (Z.shiftr c 6) 0x3F);
          Z.lor 0x80 (Z.land c 0x3F)]
  else None.

Fixpoint utf8_encode (s : pystr) : option bytes :=
  match s with
  | [] => Some []
  | c :: s' =>
      match utf8_encode_char c, utf8_encode s' with
      | Some b, Some bs => Some (b ++ bs)
      | _, _ => None
      end
  end.

(** [v.encode("utf8")] on an arbitrary value: only [str] has the method. *)
Definition encode_utf8 (v : pyval) : result bytes :=
  match v with
  | PStr s => match utf8_encode s with
              | Some b => Return b
              | None => Raise UnicodeEncodeError
              end
  | _ => Raise AttributeError
  end.

(** ["/".join((a, b))] *)
Definition join_slash (a b : pyval) : result pystr :=
  match a, b with
  | PStr x, PStr y => Return (x ++ lit "/" ++ y)
  | _, _ => Raise TypeError
  end.

(** *** [hashlib.sha1(data).hexdigest()] (FIPS 180-4) *)

Module SHA1.

Definition mask32 : Z := 0xFFFFFFFF.
Definition add32 (a b : Z) : Z := Z.land (a + b) mask32.
Definition rotl32 (n x : Z) : Z :=
  Z.land (Z.lor (Z.shiftl x n) (Z.shiftr x (32 - n))) mask32.
Definition not32 (x : Z) : Z := Z.lxor x mask32.

(** The [n] low-order bytes of [x], most significant first. *)
Fixpoint be_bytes (n : nat) (x : Z) : bytes :=
  match n with
  | O => []
  | S k => Z.land (Z.shiftr x (8 * Z.of_nat k)) 0xFF :: be_bytes k x
  end.

Definition be_word (bs : bytes) : Z :=
  fold_left (fun acc b => acc * 256 + b) bs 0.

Definition pad (m : bytes) : bytes :=
  let l := Z.of_nat (length m) in
  m ++ [0x80] ++ replicate (Z.to_nat ((55 - l) mod 64)) 0 ++ be_bytes 8 (8 * l).

Fixpoint chunks {A} (size count : nat) (l : list A) : list (list A) :=
  match count with
  | O => []
  | S k => take size l :: chunks size k (drop size l)
  end.

(** Message schedule, kept newest-first while it is extended. *)
Fixpoint extend (n : nat) (r : list Z) : list Z :=
  match n with
  | O => r
  | S k =>
      let w i := default 0 (r !! i) in
      extend k (rotl32 1 (Z.lxor (Z.lxor (w 2%nat) (w 7%nat))
                                 (Z.lxor (w 13%nat) (w 15%nat))) :: r)
  end.

Definition schedule (block : bytes) : list Z :=
  rev (extend 64 (rev (map be_word (chunks 4 16 block)))).

Definition hstate : Type := Z * Z * Z * Z * Z.

Definition round (t : nat) (s : hstate) (w : Z) : hstate :=
  let '(a, b, c, d, e) := s in
  let '(f, k) :=
    if (t <? 20)%nat then
      (Z.lor (Z.land b c) (Z.land (not32 b) d), 0x5A827999)
    else if (t <? 40)%nat then
      (Z.lxor (Z.lxor b c) d, 0x6ED9EBA1)
    else if (t <? 60)%nat then
      (Z.lor (Z.lor (Z.land b c) (Z.land b d)) (Z.land c d), 0x8F1BBCDC)
    else
      (Z.lxor (Z.lxor b c) d, 0xCA62C1D6) in
  let temp := add32 (add32 (add32 (add32 (rotl32 5 a) f) e) k) w in
  (temp, a, rotl32 30 b, c, d).

Fixpoint rounds (t : nat) (ws : list Z) (s : hstate) : hstate :=
  match ws with
  | [] => s
  | w :: ws' => rounds (S t) ws' (round t s w)
  end.

Definition compress (h : hstate) (block : bytes) : hstate :=
  let '(h0, h1, h2, h3, h4) := h in
  let '(a, b, c, d, e) := rounds 0 (schedule block) h in
  (add32 h0 a, add32 h1 b, add32 h2 c, add32 h3 d, add32 h4 e).

Definition init : hstate :=
  (0x67452301, 0xEFCDAB89, 0x98BADCFE, 0x10325476, 0xC3D2E1F0).

Definition digest (m : bytes) : bytes :=
  let p := pad m in
  let '(h0, h1, h2, h3, h4) :=
    fold_left compress (chunks 64 (length p / 64) p) init in
  be_bytes 4 h0 ++ be_bytes 4 h1 ++ be_bytes 4 h2 ++ be_bytes 4 h3 ++ be_bytes 4 h4.

Definition hex_digit (n : Z) : Z :=
  if n <? 10 then 48 + n else 87 + n.       (* '0'..'9', 'a'..'f' *)

Definition hexdigest (m : bytes) : pystr :=
  flat_map (fun b => [hex_digit (Z.shiftr b 4); hex_digit (Z.land b 0xF)]) (digest m).

End SHA1.

End Py.
Import Py.

(* ===================================================================== *)
(** ** Connection options: [MQTTIO._init_mqtt_config] *)
(* ===================================================================== *)

(** The option classes of [mqtt_io.mqtt], as the constructor calls of
    [_init_mqtt_config] fill them. *)
Record MQTTTLSOptions : Type := {
  ca_certs : pyval;
  certfile : pyval;
  keyfile : pyval;
  ciphers : pyval;
}.

Record MQTTWill : Type := {
  will_topic : pystr;
  will_payload : bytes;
  will_qos : Z;
  will_retain : bool;
}.

Record MQTTClientOptions : Type := {
  hostname : pyval;
  port : pyval;
  username : pyval;
  password : pyval;
  client_id : pyval;
  keepalive : pyval;
  clean_session : pyval;
  tls_options : option MQTTTLSOptions;
  will : option MQTTWill;
}.

(** [self.config] is the whole configuration; its ["mqtt"] entry is the
    broker section. *)
Definition _init_mqtt_config (self_config : pyval) : result MQTTClientOptions :=
  config ← getitem self_config "mqtt";
  topic_prefix ← getitem config "topic_prefix";
  client_id ← getitem config "client_id";
  client_id ←
    (if negb (truthy client_id) then
       encoded ← encode_utf8 topic_prefix;
       mret (PStr (lit "mqtt-io-" ++ SHA1.hexdigest encoded))
     else mret client_id);
  tls ← get config "tls" (PDict ∅);
  tls_enabled ← get tls "enabled" PNone;
  tls_options ←
    (if truthy tls_enabled then
       tls ← getitem config "tls";
       ca_certs ← get tls "ca_certs" PNone;
       certfile ← get tls "certfile" PNone;
       keyfile ← get tls "keyfile" PNone;
       ciphers ← get tls "ciphers" PNone;
       mret (Some {| ca_certs := ca_certs; certfile := certfile;
                     keyfile := keyfile; ciphers := ciphers |})
     else mret None);
  hostname ← getitem config "host";
  port ← getitem config "port";
  username ← getitem config "user";
  password ← getitem config "password";
  keepalive ← getitem config "keepalive";
  clean_session ← getitem config "clean_session";
  status_topic ← getitem config "status_topic";
  topic ← join_slash topic_prefix status_topic;
  dead ← getitem config "status_payload_dead";
  payload ← encode_utf8 dead;
  mret {| hostname := hostname; port := port; username := username;
          password := password; client_id := client_id;
          keepalive := keepalive; clean_session := clean_session;
          tls_options := tls_options;
          will := Some {| will_topic := topic; will_payload := payload;
                          will_qos := 1; will_retain := true |} |}.

(** The configuration of the scenario, completed with the connection keys
    that [_init_mqtt_config] indexes unconditionally. *)
Definition scenario_mqtt : gmap string pyval :=
  list_to_map [
    ("host", PStr (lit "localhost")); ("port", PInt 1883);
    ("user", PNone); ("password", PNone);
    ("keepalive", PInt 10); ("clean_session", PBool false);
    ("topic_prefix", PStr (lit "home"));
    ("status_topic", PStr (lit "status"));
    ("status_payload_running", PStr (lit "run"));
    ("status_payload_stopped", PStr (lit "stop"));
    ("status_payload_dead", PStr (lit "dead"));
    ("client_id", PStr (lit ""))].

Definition scenario_config : pyval :=
  PDict {[ "mqtt" := PDict scenario_mqtt ]}.

(* ===================================================================== *)
(** ** The server object and its collaborators *)
(* ===================================================================== *)

(** The three IO modules built by [MQTTIO.__init__]:
    [self.gpio = GPIO(..)], [self.sensor = SensorIO(..)],
    [self.stream = StreamIO(..)]. *)
Inductive io_module : Type := GPIO | SensorIO | StreamIO.

Inductive signal : Type := SIGINT | SIGQUIT.

(** [trio.Nursery] instances opened by [run_async] and [run_mqtt]. *)
Inductive Nursery : Type := MainNursery | MQTTNursery.

Inductive TrioToken : Type := CurrentTrioToken.

(** What [AnyIOMQTTClient(nursery, dict(client_id=.., clean_session=..))]
    is built from. *)
Record AnyIOMQTTClient : Type := {
  client_nursery : Nursery;
  client_client_id : pyval;
  client_clean_session : pyval;
}.

(** [paho.MQTTMessage], as far as [handle_messages] reads it. *)
Record MQTTMessage : Type := {
  msg_topic : pystr;
  msg_payload : bytes;
}.

(** [mqtt_io.mqtt.MQTTMessageSend], what the discovery collaborator
    returns. *)
Record MQTTMessageSend : Type := {
  send_topic : pystr;
  send_payload : bytes;
  send_qos : Z;
  send_retain : bool;
}.

(** Functions handed to [start_soon] / [start]. *)
Inductive task : Type :=
| HandleMessages
| HandleMqttMsg (m : io_module) (topic : pystr) (payload : bytes)
| EventBusRun.

(** Calls made on the collaborators. *)
Inductive op : Type :=
| OpOpenSignalReceiver (sigs : list signal)
| OpStart (n : Nursery) (t : task)
| OpStartSoon (n : Nursery) (t : task)
| OpCancelScope (n : Nursery)
| OpNewClient (n : Nursery) (client_id clean_session : pyval)
| OpEnableLogger
| OpTlsSetContext (tls : MQTTTLSOptions)
| OpUsernamePwSet (user pass : pyval)
| OpConnect (host port keepalive : pyval)
| OpWillSet (topic : pystr) (payload : bytes) (qos : Z) (retain : bool)
| OpPublish (topic : pystr) (payload : bytes) (qos : Z) (retain : bool)
| OpSetConnectMessage (topic : pystr) (payload : bytes) (qos : Z) (retain : bool)
| OpWaitForPublish
| OpDisconnect
| OpDisconnectEventWait
| OpInit (m : io_module)
| OpCleanup (m : io_module)
| OpSignalRaise (signum : signal).

(** The attributes of an [MQTTIO] instance. *)
Record MQTTIO : Type := {
  config : pyval;
  mqtt_client_options : MQTTClientOptions;
  _trio_token : option TrioToken;
  _main_nursery : option Nursery;
  _mqtt_nursery : option Nursery;
  _mqtt : option AnyIOMQTTClient;
  io_modules : list io_module;
}.

(** [MQTTIO.__init__] *)
Definition MQTTIO_init (config : pyval) : result MQTTIO :=
  options ← _init_mqtt_config config;
  mret {| config := config;
          mqtt_client_options := options;
          _trio_token := None;
          _main_nursery := None;
          _mqtt_nursery := None;
          _mqtt := None;
          io_modules := [GPIO; SensorIO; StreamIO] |}.

(** *** Attribute assignments made by [run_async] and [run_mqtt] *)

Definition set_trio_token (t : TrioToken) (o : MQTTIO) : MQTTIO :=
  {| config := config o; mqtt_client_options := mqtt_client_options o;
     _trio_token := Some t; _main_nursery := _main_nursery o;
     _mqtt_nursery := _mqtt_nursery o; _mqtt := _mqtt o;
     io_modules := io_modules o |}.

Definition set_main_nursery (n : Nursery) (o : MQTTIO) : MQTTIO :=
  {| config := config o; mqtt_client_options := mqtt_client_options o;
     _trio_token := _trio_token o; _main_nursery := Some n;
     _mqtt_nursery := _mqtt_nursery o; _mqtt := _mqtt o;
     io_modules := io_modules o |}.

Definition set_mqtt_nursery (n : Nursery) (o : MQTTIO) : MQTTIO :=
  {| config := config o; mqtt_client_options := mqtt_client_options o;
     _trio_token := _trio_token o; _main_nursery := _main_nursery o;
     _mqtt_nursery := Some n; _mqtt := _mqtt o;
     io_modules := io_modules o |}.

Definition set_mqtt (c : AnyIOMQTTClient) (o : MQTTIO) : MQTTIO :=
  {| config := config o; mqtt_client_options := mqtt_client_options o;
     _trio_token := _trio_token o; _main_nursery := _main_nursery o;
     _mqtt_nursery := _mqtt_nursery o; _mqtt := Some c;
     io_modules := io_modules o |}.

(** *** The guarded accessors *)

Definition nursery (self : MQTTIO) : result Nursery :=
  match _main_nursery self with
  | None => Raise (RuntimeError "Nursery has not been initialised")
  | Some n => Return n
  end.

Definition mqtt (self : MQTTIO) : result AnyIOMQTTClient :=
  match _mqtt self with
  | None => Raise (RuntimeError "MQTT is not initialised")
  | Some c => Return c
  end.

Definition trio_token (self : MQTTIO) : result TrioToken :=
  match _trio_token self with
  | None => Raise (RuntimeError "Server has not yet been run()")
  | Some t => Return t
  end.

(** *** The world the server runs in

    Everything outside the source file: whether a call on a collaborator
    raises, whether trio delivers a cancellation at a checkpoint, which
    broker messages have arrived when the running task suspends, and the
    discovery collaborators of [mqtt_io.home_assistant].  The oracles see
    the calls made so far. *)
Record world : Type := {
  raises : list op → op → option exn;
  cancel_delivered : list op → bool;
  arrivals : list op → list MQTTMessage;
  digital_input_configs : list pyval;
  digital_output_configs : list pyval;
  sensor_input_configs : list pyval;
  hass_announce_digital_input : pyval → pyval → MQTTClientOptions → MQTTMessageSend;
  hass_announce_digital_output : pyval → pyval → MQTTClientOptions → MQTTMessageSend;
  hass_announce_sensor_input : pyval → pyval → MQTTClientOptions → MQTTMessageSend;
}.

(** The running process: the server object, the calls made so far, and
    whether the [handle_messages] task has been spawned.

    Calls on [_LOG] are not modelled: they neither raise nor touch the
    server or its collaborators, so a [finally:] clause that only logs
    disappears. *)
Record machine : Type := {
  self : MQTTIO;
  trace : list op;
  receiving : bool;
}.

Definition boot (o : MQTTIO) : machine :=
  {| self := o; trace := []; receiving := false |}.

Definition M (A : Type) : Type := world → machine → result A * machine.

#[global] Instance M_ret : MRet M := fun _ a _ s => (Return a, s).
#[global] Instance M_bind : MBind M := fun _ _ f c w s =>
  match c w s with
  | (Return a, s') => f a w s'
  | (Raise e, s') => (Raise e, s')
  end.

(** Evaluate a Python expression over [self]. *)
Definition eval {A} (f : MQTTIO → result A) : M A :=
  fun _ s => (f (self s), s).

Definition ask : M world := fun w s => (Return w, s).

(** Assign attributes of [self]. *)
Definition update (f : MQTTIO → MQTTIO) : M unit :=
  fun _ s => (Return tt,
    {| self := f (self s); trace := trace s; receiving := receiving s |}).

Definition emit (ops : list op) (s : machine) : machine :=
  {| self := self s; trace := trace s ++ ops; receiving := receiving s |}.

(** A call on a collaborator: it is recorded, then returns or raises. *)
Definition perform (o : op) : M unit :=
  fun w s =>
    (match raises w (trace s) o with
     | None => Return tt
     | Some e => Raise e
     end, emit [o] s).

Definition set_receiving (b : bool) : M unit :=
  fun _ s => (Return tt,
    {| self := self s; trace := trace s; receiving := b |}).

(** [for x in l: body x] *)
Fixpoint for_ {A} (l : list A) (body : A → M unit) : M unit :=
  match l with
  | [] => mret tt
  | x :: l' => body x;; for_ l' body
  end.

(* ===================================================================== *)
(** ** The methods of [MQTTIO] *)
(* ===================================================================== *)

(** *** [run_mqtt.handle_messages]

    [dispatch] is the body of the [async for] loop run over the messages
    the broker has delivered so far; [handle_messages] is the loop over
    the whole message sequence of a connection. *)
Definition dispatch (messages : list MQTTMessage) : M unit :=
  for_ messages (fun msg =>
    mods ← eval (fun o => Return (io_modules o));
    for_ mods (fun io_module =>
      n ← eval nursery;
      perform (OpStartSoon n
        (HandleMqttMsg io_module (msg_topic msg) (msg_payload msg))))).

Definition handle_messages (messages : list MQTTMessage) : M unit :=
  dispatch messages.

(** *** Suspension points

    trio schedules cooperatively: other tasks run only while the running
    task is suspended in an [await].  Of the other tasks, the source file
    contains the receive loop; once it has been spawned it handles the
    messages that have arrived, also after the scope it runs in has been
    cancelled: a loop that has been given a message goes on with it. *)
Definition suspend : M unit :=
  fun w s =>
    if receiving s then dispatch (arrivals w (trace s)) w s
    else (Return tt, s).

(** A checkpoint raises [trio.Cancelled] when the enclosing scope has been
    cancelled and trio delivers it. *)
Definition check_cancelled : M unit :=
  fun w s =>
    if cancel_delivered w (trace s) then (Raise Cancelled, s)
    else (Return tt, s).

(** [await collaborator.coroutine()] *)
Definition await_ (o : op) : M unit :=
  perform o;; suspend.

(** [await trio.to_thread.run_sync(f)] and [await event.wait()]: trio
    checks for cancellation on entry, before anything is started. *)
Definition to_thread_run_sync (o : op) : M unit :=
  check_cancelled;; await_ o.

Definition event_wait (o : op) : M unit :=
  check_cancelled;; await_ o.

(** The status topic and a status payload, as the three places that
    publish or register a status message compute them. *)
Definition status_topic_of (mqtt_config : pyval) : result pystr :=
  topic_prefix ← getitem mqtt_config "topic_prefix";
  status_topic ← getitem mqtt_config "status_topic";
  join_slash topic_prefix status_topic.

Definition status_payload_of (mqtt_config : pyval) (key : string) : result bytes :=
  v ← getitem mqtt_config key;
  encode_utf8 v.

(** *** [shutdown] *)
Definition shutdown : M unit :=
  mqtt_config ← eval (fun o => getitem (config o) "mqtt");
  _ ← eval mqtt;
  topic ← eval (fun _ => status_topic_of mqtt_config);
  payload ← eval (fun _ => status_payload_of mqtt_config "status_payload_stopped");
  perform (OpPublish topic payload 1 true);;
  to_thread_run_sync OpWaitForPublish;;
  _ ← eval mqtt;
  perform OpDisconnect;;
  _ ← eval mqtt;
  event_wait OpDisconnectEventWait;;
  n ← eval nursery;
  perform (OpCancelScope n);;
  mods ← eval (fun o => Return (io_modules o));
  for_ mods (fun io_module => to_thread_run_sync (OpCleanup io_module)).

(** *** [handle_signals]

    [handle_signals_ready] is the part run before [task_status.started()],
    [handle_signals_loop] the [async for] over the signals received
    afterwards, up to the exit of the [with] block.

    [trio.open_signal_receiver] keeps the signals it has received and not
    yet handed out in a dictionary keyed by the signal number: each signal
    is pending once, in the order of its first arrival. *)
Definition handle_signals_ready : M unit :=
  perform (OpOpenSignalReceiver [SIGINT; SIGQUIT]).

Definition signal_eqb (a b : signal) : bool :=
  match a, b with
  | SIGINT, SIGINT | SIGQUIT, SIGQUIT => true
  | _, _ => false
  end.

Fixpoint pending_of (signals : list signal) : list signal :=
  match signals with
  | [] => []
  | signum :: later =>
      signum :: List.filter (fun x => negb (signal_eqb x signum)) (pending_of later)
  end.

(** Leaving [with trio.open_signal_receiver(..)] by the exception [e]:
    the handlers that were installed before are restored and every
    pending signal is raised again for them.  A handler that raises (for
    SIGINT, [KeyboardInterrupt]) does not stop the re-delivery, and the
    exception raised last is the one that leaves the block; a signal that
    kills the process (SIGQUIT, by default) ends everything. *)
Fixpoint redeliver_remaining {A} (e : exn) (pending : list signal) : M A :=
  match pending with
  | [] => fun _ s => (Raise e, s)
  | signum :: pending' =>
      fun w s =>
        match perform (OpSignalRaise signum) w s with
        | (Return _, s1) => redeliver_remaining e pending' w s1
        | (Raise Killed, s1) => (Raise Killed, s1)
        | (Raise e', s1) => redeliver_remaining e' pending' w s1
        end
  end.

(** A part [c] of the body of the [with] block, run while the signals
    [signals] have been received and not handed out. *)
Definition leaving {A} (signals : list signal) (c : M A) : M A :=
  fun w s =>
    match c w s with
    | (Return a, s1) => (Return a, s1)
    | (Raise Killed, s1) => (Raise Killed, s1)
    | (Raise e, s1) => redeliver_remaining e (pending_of signals) w s1
    end.

(** Awaiting the next signal is a checkpoint, passed before the signal is
    taken out of the pending ones; [signals] are the signals received, in
    the order in which the receiver hands them out.  When they are used
    up, the loop waits for the next one: the [with] block has not been
    left. *)
Fixpoint handle_signals_loop (signals : list signal) : M unit :=
  match signals with
  | [] => mret tt
  | signum :: later =>
      leaving signals check_cancelled;;
      leaving later shutdown;;
      handle_signals_loop later
  end.

Definition handle_signals (signals : list signal) : M unit :=
  handle_signals_ready;; handle_signals_loop signals.

(** *** [_ha_discovery_announce] *)
Definition discovery_messages (w : world) (mqtt_config : pyval)
    (options : MQTTClientOptions) : list MQTTMessageSend :=
  map (fun in_conf => hass_announce_digital_input w in_conf mqtt_config options)
      (digital_input_configs w) ++
  map (fun out_conf => hass_announce_digital_output w out_conf mqtt_config options)
      (digital_output_configs w) ++
  map (fun sens_conf => hass_announce_sensor_input w sens_conf mqtt_config options)
      (sensor_input_configs w).

Definition publish_message (msg : MQTTMessageSend) : op :=
  OpPublish (send_topic msg) (send_payload msg) (send_qos msg) (send_retain msg).

Definition _ha_discovery_announce : M unit :=
  w ← ask;
  mqtt_config ← eval (fun o => getitem (config o) "mqtt");
  options ← eval (fun o => Return (mqtt_client_options o));
  let messages := discovery_messages w mqtt_config options in
  for_ messages (fun msg => perform (publish_message msg)).

(** *** [run_mqtt], up to [task_status.started()]

    Afterwards the task only waits in its nursery for [handle_messages]. *)
(** The client [run_mqtt] builds from the derived options. *)
Definition new_client (options : MQTTClientOptions) : AnyIOMQTTClient :=
  {| client_nursery := MQTTNursery;
     client_client_id := client_id options;
     client_clean_session := clean_session options |}.

Definition run_mqtt : M unit :=
  options ← eval (fun o => Return (mqtt_client_options o));
  update (set_mqtt_nursery MQTTNursery);;
  perform (OpNewClient MQTTNursery (client_id options) (clean_session options));;
  update (set_mqtt (new_client options));;
  perform OpEnableLogger;;
  match tls_options options with
  | Some tls => perform (OpTlsSetContext tls)
  | None => mret tt
  end;;
  match username options with
  | PNone => mret tt
  | user => perform (OpUsernamePwSet user (password options))
  end;;
  perform (OpConnect (hostname options) (port options) (keepalive options));;
  match will options with
  | Some wl => perform (OpWillSet (will_topic wl) (will_payload wl)
                                  (will_qos wl) (will_retain wl))
  | None => mret tt
  end;;
  perform (OpStartSoon MQTTNursery HandleMessages);;
  set_receiving true;;
  mqtt_config ← eval (fun o => getitem (config o) "mqtt");
  discovery ← eval (fun _ => contains mqtt_config "ha_discovery");
  (if discovery : bool then _ha_discovery_announce else mret tt).

(** *** [run_async]

    [startup] is the body of the [async with trio.open_nursery()] block.
    [await nursery.start(f)] runs [f] up to its [task_status.started()]
    and is a suspension point. *)
Definition startup : M unit :=
  update (set_main_nursery MainNursery);;
  handle_signals_ready;; suspend;;
  await_ (OpStart MainNursery EventBusRun);;
  run_mqtt;; suspend;;
  await_ (OpInit GPIO);;
  await_ (OpInit SensorIO);;
  await_ (OpInit StreamIO);;
  mqtt_config ← eval (fun o => getitem (config o) "mqtt");
  topic ← eval (fun _ => status_topic_of mqtt_config);
  payload ← eval (fun _ => status_payload_of mqtt_config "status_payload_running");
  _ ← eval mqtt;
  perform (OpPublish topic payload 1 true);;
  _ ← eval mqtt;
  perform (OpSetConnectMessage topic payload 1 true).

Definition is_cancel (n : Nursery) (o : op) : bool :=
  match o, n with
  | OpCancelScope MainNursery, MainNursery => true
  | OpCancelScope MQTTNursery, MQTTNursery => true
  | _, _ => false
  end.

(** Leaving [async with trio.open_nursery()]: a [Cancelled] that comes
    from the nursery's own cancelled scope is absorbed, any other
    exception propagates. *)
Definition open_nursery (n : Nursery) (body : M unit) : M unit :=
  fun w s =>
    match body w s with
    | (Raise Cancelled, s') =>
        if existsb (is_cancel n) (trace s') then (Return tt, s')
        else (Raise Cancelled, s')
    | r => r
    end.

(** [run_async], observed while the signals [signals] are received after
    start-up has completed (the parent then waits in the nursery while
    [handle_signals] runs). *)
Definition run_async (signals : list signal) : M unit :=
  update (set_trio_token CurrentTrioToken);;
  open_nursery MainNursery (startup;; handle_signals_loop signals).

(** [MQTTIO(config).run()] *)
Definition run (w : world) (config : pyval) (signals : list signal)
  : result unit * list op :=
  match MQTTIO_init config with
  | Raise e => (Raise e, [])
  | Return o => let '(r, s) := run_async signals w (boot o) in (r, trace s)
  end.

(* ===================================================================== *)
(** ** Observations on traces *)
(* ===================================================================== *)

(** The calls made by the receive loop on behalf of the broker: handler
    tasks handed to [start_soon]. *)
Definition is_dispatch (o : op) : bool :=
  match o with
  | OpStartSoon _ (HandleMqttMsg _ _ _) => true
  | _ => false
  end.

(** What remains of a trace once the receive loop's spawns, which
    interleave with the running task at its suspension points, are left
    out. *)
Definition own_effects (tr : list op) : list op :=
  List.filter (fun o => negb (is_dispatch o)) tr.

Definition io_module_eqb (a b : io_module) : bool :=
  match a, b with
  | GPIO, GPIO | SensorIO, SensorIO | StreamIO, StreamIO => true
  | _, _ => false
  end.

Definition is_cleanup_of (m : io_module) (o : op) : bool :=
  match o with OpCleanup m' => io_module_eqb m m' | _ => false end.

Definition cleanup_count (m : io_module) (tr : list op) : nat :=
  length (List.filter (is_cleanup_of m) tr).

Definition is_publish_of (topic : pystr) (payload : bytes) (o : op) : bool :=
  match o with
  | OpPublish t p q r =>
      bool_decide (t = topic) && bool_decide (p = payload) && (q =? 1) && r
  | _ => false
  end.

Definition publish_count (topic : pystr) (payload : bytes) (tr : list op) : nat :=
  length (List.filter (is_publish_of topic payload) tr).

Definition is_connect (o : op) : bool :=
  match o with OpConnect _ _ _ => true | _ => false end.

Definition is_will_set (o : op) : bool :=
  match o with OpWillSet _ _ _ _ => true | _ => false end.

(** Every [p]-call of the trace is made before every [q]-call. *)
Fixpoint all_before (p q : op → bool) (tr : list op) : bool :=
  match tr with
  | [] => true
  | o :: tr' => (if q o then negb (existsb p tr') else true) && all_before p q tr'
  end.

(** The calls of one complete shutdown sequence. *)
Definition shutdown_sequence (topic : pystr) (payload : bytes) (n : Nursery)
    (mods : list io_module) : list op :=
  [OpPublish topic payload 1 true; OpWaitForPublish;
   OpDisconnect; OpDisconnectEventWait; OpCancelScope n] ++ map OpCleanup mods.

(** The handler tasks spawned for a sequence of broker messages. *)
Definition fan_out (n : Nursery) (mods : list io_module)
    (messages : list MQTTMessage) : list op :=
  flat_map (fun msg =>
    map (fun m => OpStartSoon n (HandleMqttMsg m (msg_topic msg) (msg_payload msg)))
        mods) messages.

(** *** Worlds *)

(** Every call on a collaborator returns. *)
Definition returns_normally (w : world) : Prop :=
  ∀ tr o, raises w tr o = None.

(** No cancellation is delivered at any checkpoint: the task runs in no
    scope that gets cancelled, as start-up does, or a caller of [shutdown]
    outside the main nursery. *)
Definition never_cancelled (w : world) : Prop :=
  ∀ tr, cancel_delivered w tr = false.

(** trio's rule for a task that lives in the main nursery, as
    [handle_signals] does: once the nursery's scope has been cancelled,
    its next checkpoint raises. *)
Definition cancels_like_trio (w : world) : Prop :=
  ∀ tr, existsb (is_cancel MainNursery) tr = true → cancel_delivered w tr = true.

Definition no_announce (_ _ : pyval) (_ : MQTTClientOptions) : MQTTMessageSend :=
  {| send_topic := []; send_payload := []; send_qos := 0; send_retain := false |}.

Definition make_world (r : list op → op → option exn) (c : list op → bool)
    (a : list op → list MQTTMessage) : world :=
  {| raises := r; cancel_delivered := c; arrivals := a;
     digital_input_configs := []; digital_output_configs := [];
     sensor_input_configs := [];
     hass_announce_digital_input := no_announce;
     hass_announce_digital_output := no_announce;
     hass_announce_sensor_input := no_announce |}.

(** Nothing fails, nothing is cancelled, no broker message arrives. *)
Definition calm : world :=
  make_world (fun _ _ => None) (fun _ => false) (fun _ => []).

(** As [calm], with trio's delivery of cancellation. *)
Definition calm_trio : world :=
  make_world (fun _ _ => None) (existsb (is_cancel MainNursery)) (fun _ => []).

(** As [calm_trio], with the handlers a Python process starts with:
    SIGINT raises [KeyboardInterrupt], SIGQUIT kills the process. *)
Definition default_handlers (o : op) : option exn :=
  match o with
  | OpSignalRaise SIGINT => Some KeyboardInterrupt
  | OpSignalRaise SIGQUIT => Some Killed
  | _ => None
  end.

Definition trio_defaults : world :=
  make_world (fun _ => default_handlers) (existsb (is_cancel MainNursery))
             (fun _ => []).

(** [self.gpio.init()] raises. *)
Definition gpio_init_fails : world :=
  make_world (fun _ o => match o with
                         | OpInit GPIO => Some (External "GPIO.init")
                         | _ => None
                         end)
             (fun _ => false) (fun _ => []).

(** [self.gpio.cleanup()] raises. *)
Definition gpio_cleanup_fails : world :=
  make_world (fun _ o => match o with
                         | OpCleanup GPIO => Some (External "GPIO.cleanup")
                         | _ => None
                         end)
             (fun _ => false) (fun _ => []).

(** A broker message arrives while [self.gpio.init()] is awaited. *)
Definition set_message : MQTTMessage :=
  {| msg_topic := lit "home/output/lamp/set"; msg_payload := lit "ON" |}.

Definition message_during_init : world :=
  make_world (fun _ _ => None) (fun _ => false)
             (fun tr => match last tr with
                        | Some (OpInit GPIO) => [set_message]
                        | _ => []
                        end).

(** Two broker messages arrive while the publish of the stopped status
    waits for its acknowledgement. *)
Definition messages_during_shutdown : world :=
  make_world (fun _ _ => None) (fun _ => false)
             (fun tr => match last tr with
                        | Some OpWaitForPublish =>
                            [set_message;
                             {| msg_topic := lit "home/output/fan/set";
                                msg_payload := lit "OFF" |}]
                        | _ => []
                        end).

(** A broker message arrives while [self.gpio.cleanup()] runs. *)
Definition message_during_cleanup : world :=
  make_world (fun _ _ => None) (fun _ => false)
             (fun tr => match last tr with
                        | Some (OpCleanup GPIO) => [set_message]
                        | _ => []
                        end).

(** The server object of the scenario once [startup] has returned. *)
Definition started (w : world) (config : pyval) : option machine :=
  match MQTTIO_init config with
  | Return o =>
      match startup w (boot o) with
      | (Return _, s) => Some s
      | _ => None
      end
  | Raise _ => None
  end.
(* ===================================================================== *)
(** ** Straight-line skeletons

    A method that only sequences calls, checkpoints and suspension points
    is, once the values it reads from [self] are known, a list of steps.
    The skeletons below are proof devices: each is shown to run exactly as
    the method it stands for ([shutdown_plays], [startup_plays]), and the
    facts that hold of every list of steps are then proved once, by
    induction on the list. *)
(* ===================================================================== *)

Inductive step : Type :=
| Call (o : op)
| Checkpoint
| Yield
| Receiving (b : bool)
| Assign (f : MQTTIO → MQTTIO)
| Stop (e : exn).

Definition play_step (st : step) : M unit :=
  match st with
  | Call o => perform o
  | Checkpoint => check_cancelled
  | Yield => suspend
  | Receiving b => set_receiving b
  | Assign f => update f
  | Stop e => fun _ s => (Raise e, s)
  end.

Fixpoint play (sc : list step) : M unit :=
  match sc with
  | [] => mret tt
  | st :: sc' => play_step st;; play sc'
  end.

(** Steps that neither fail by themselves nor assign to [self]. *)
Definition plain (st : step) : Prop :=
  match st with Stop _ | Assign _ => False | _ => True end.

(** [run_async] has stored the token. *)
Definition has_token (obj : MQTTIO) : Prop :=
  _trio_token obj = Some CurrentTrioToken.

(** Steps whose assignment, if any, keeps the property [P] of [self]. *)
Definition keeps (P : MQTTIO → Prop) (st : step) : Prop :=
  match st with Assign f => ∀ o, P o → P (f o) | _ => True end.

Definition step_calls (st : step) : list op :=
  match st with Call o => [o] | _ => [] end.

(** The calls a skeleton makes when nothing stops it. *)
Fixpoint calls (sc : list step) : list op :=
  match sc with
  | [] => []
  | Call o :: sc' => o :: calls sc'
  | _ :: sc' => calls sc'
  end.

(** The attribute assignments of a skeleton, applied in order. *)
Fixpoint assigned (sc : list step) (o : MQTTIO) : MQTTIO :=
  match sc with
  | [] => o
  | Assign f :: sc' => assigned sc' (f o)
  | _ :: sc' => assigned sc' o
  end.

Definition cleanup_steps (mods : list io_module) : list step :=
  flat_map (fun m => [Checkpoint; Call (OpCleanup m); Yield]) mods.

Definition shutdown_steps (o : MQTTIO) : list step :=
  match getitem (config o) "mqtt" with
  | Raise e => [Stop e]
  | Return mqtt_config =>
  match mqtt o with
  | Raise e => [Stop e]
  | Return _ =>
  match status_topic_of mqtt_config with
  | Raise e => [Stop e]
  | Return topic =>
  match status_payload_of mqtt_config "status_payload_stopped" with
  | Raise e => [Stop e]
  | Return payload =>
      Call (OpPublish topic payload 1 true) ::
      Checkpoint :: Call OpWaitForPublish :: Yield ::
      Call OpDisconnect ::
      Checkpoint :: Call OpDisconnectEventWait :: Yield ::
      match nursery o with
      | Raise e => [Stop e]
      | Return n =>
          Call (OpCancelScope n) ::
          cleanup_steps (io_modules o)
      end
  end end end end.

Definition run_mqtt_steps (w : world) (o : MQTTIO) : list step :=
  let options := mqtt_client_options o in
  Assign (set_mqtt_nursery MQTTNursery) ::
  Call (OpNewClient MQTTNursery (client_id options) (clean_session options)) ::
  Assign (set_mqtt (new_client options)) ::
  Call OpEnableLogger ::
  match tls_options options with
  | Some tls => [Call (OpTlsSetContext tls)]
  | None => []
  end ++
  match username options with
  | PNone => []
  | user => [Call (OpUsernamePwSet user (password options))]
  end ++
  Call (OpConnect (hostname options) (port options) (keepalive options)) ::
  match will options with
  | Some wl => [Call (OpWillSet (will_topic wl) (will_payload wl)
                                (will_qos wl) (will_retain wl))]
  | None => []
  end ++
  Call (OpStartSoon MQTTNursery HandleMessages) ::
  Receiving true ::
  match getitem (config o) "mqtt" with
  | Raise e => [Stop e]
  | Return mqtt_config =>
      match contains mqtt_config "ha_discovery" with
      | Raise e => [Stop e]
      | Return true =>
          map (fun msg => Call (publish_message msg))
              (discovery_messages w mqtt_config options)
      | Return false => []
      end
  end.

Definition startup_steps (w : world) (o : MQTTIO) : list step :=
  Assign (set_main_nursery MainNursery) ::
  Call (OpOpenSignalReceiver [SIGINT; SIGQUIT]) :: Yield ::
  Call (OpStart MainNursery EventBusRun) :: Yield ::
  run_mqtt_steps w (set_main_nursery MainNursery o) ++
  Yield ::
  Call (OpInit GPIO) :: Yield ::
  Call (OpInit SensorIO) :: Yield ::
  Call (OpInit StreamIO) :: Yield ::
  match getitem (config o) "mqtt" with
  | Raise e => [Stop e]
  | Return mqtt_config =>
  match status_topic_of mqtt_config with
  | Raise e => [Stop e]
  | Return topic =>
  match status_payload_of mqtt_config "status_payload_running" with
  | Raise e => [Stop e]
  | Return payload =>
      [Call (OpPublish topic payload 1 true);
       Call (OpSetConnectMessage topic payload 1 true)]
  end end end.

(** The calls [run_mqtt] makes on the client it creates, in order. *)
Definition connection_calls (w : world) (o : MQTTIO) : list op :=
  calls (run_mqtt_steps w o).

(** The configuration gives the status topic [topic] and, under [key], a
    status text whose UTF-8 encoding is [payload]. *)
Definition configured_status (o : MQTTIO) (key : string)
    (topic : pystr) (payload : bytes) : Prop :=
  ∃ (m : gmap string pyval) prefix status text,
    getitem (config o) "mqtt" = Return (PDict m) ∧
    m !! "topic_prefix" = Some (PStr prefix) ∧
    m !! "status_topic" = Some (PStr status) ∧
    m !! key = Some (PStr text) ∧
    topic = prefix ++ lit "/" ++ status ∧
    utf8_encode text = Some payload.

(** A computation is fail-fast when a call that raises is the last call
    it makes, and its error the outcome: nothing catches, nothing goes on. *)
Definition fail_fast {A} (c : M A) : Prop :=
  ∀ w s r s', c w s = (r, s') →
    ∃ ops, trace s' = trace s ++ ops ∧
      ∀ pre x post e,
        ops = pre ++ x :: post →
        raises w (trace s ++ pre) x = Some e →
        r = Raise e ∧ post = [].

(** *** The scenario, step by step *)

Definition scenario_options : MQTTClientOptions :=
  {| hostname := PStr (lit "localhost"); port := PInt 1883;
     username := PNone; password := PNone;
     client_id := PStr (lit "mqtt-io-" ++ SHA1.hexdigest (lit "home"));
     keepalive := PInt 10; clean_session := PBool false;
     tls_options := None;
     will := Some {| will_topic := lit "home/status";
                     will_payload := lit "dead";
                     will_qos := 1; will_retain := true |} |}.

(** [MQTTIO(scenario_config)] *)
Definition scenario_server : MQTTIO :=
  {| config := scenario_config;
     mqtt_client_options := scenario_options;
     _trio_token := None; _main_nursery := None;
     _mqtt_nursery := None; _mqtt := None;
     io_modules := [GPIO; SensorIO; StreamIO] |}.

(** The calls of its start-up when no broker message arrives. *)
Definition scenario_startup_calls : list op :=
  [OpOpenSignalReceiver [SIGINT; SIGQUIT];
   OpStart MainNursery EventBusRun;
   OpNewClient MQTTNursery
     (PStr (lit "mqtt-io-" ++ SHA1.hexdigest (lit "home"))) (PBool false);
   OpEnableLogger;
   OpConnect (PStr (lit "localhost")) (PInt 1883) (PInt 10);
   OpWillSet (lit "home/status") (lit "dead") 1 true;
   OpStartSoon MQTTNursery HandleMessages;
   OpInit GPIO; OpInit SensorIO; OpInit StreamIO;
   OpPublish (lit "home/status") (lit "run") 1 true;
   OpSetConnectMessage (lit "home/status") (lit "run") 1 true].

(** The process once that start-up has returned. *)
Definition scenario_running : machine :=
  {| self := set_mqtt (new_client scenario_options)
               (set_mqtt_nursery MQTTNursery
                  (set_main_nursery MainNursery scenario_server));
     trace := scenario_startup_calls;
     receiving := true |}.

(** The same process after the further calls [tr]. *)
Definition scenario_after (tr : list op) (rx : bool) : machine :=
  {| self := self scenario_running;
     trace := scenario_startup_calls ++ tr;
     receiving := rx |}.

(** [run_async] stores the token before it opens the nursery. *)
Definition enter (s : machine) : machine :=
  {| self := set_trio_token CurrentTrioToken (self s);
     trace := trace s; receiving := receiving s |}.

Definition is_publish (o : op) : bool :=
  match o with OpPublish _ _ _ _ => true | _ => false end.

(** Steps at which the running task is not suspended. *)
Definition unsuspended (st : step) : Prop :=
  match st with Yield => False | _ => True end.

(** The discovery announcements [run_mqtt] publishes: none unless the
    broker section has the key ["ha_discovery"]. *)
Definition announced (w : world) (o : MQTTIO) : list MQTTMessageSend :=
  match getitem (config o) "mqtt" with
  | Return mqtt_config =>
      match contains mqtt_config "ha_discovery" with
      | Return true => discovery_messages w mqtt_config (mqtt_client_options o)
      | _ => []
      end
  | Raise _ => []
  end.

(* ===================================================================== *)
(** ** Further observations *)
(* ===================================================================== *)

Definition has_key (m : gmap string pyval) (k : string) : bool :=
  bool_decide (is_Some (m !! k)).

(** The keys of the broker section that [_init_mqtt_config] indexes. *)
Definition required_keys : list string :=
  ["topic_prefix"; "client_id"; "host"; "port"; "user"; "password";
   "keepalive"; "clean_session"; "status_topic"; "status_payload_dead"].

(** ['0'..'9'] and ['a'..'f']. *)
Definition is_hex_digit (c : Z) : bool :=
  ((48 <=? c) && (c <=? 57)) || ((97 <=? c) && (c <=? 102)).

(** The attributes set by [__init__] and read by every method. *)
Definition settings_kept (o0 o : MQTTIO) : Prop :=
  config o = config o0 ∧
  mqtt_client_options o = mqtt_client_options o0 ∧
  io_modules o = io_modules o0.

Definition is_tls_set (o : op) : bool :=
  match o with OpTlsSetContext _ => true | _ => false end.

Definition is_credentials (o : op) : bool :=
  match o with OpUsernamePwSet _ _ => true | _ => false end.

Definition is_tls_or_credentials (o : op) : bool :=
  is_tls_set o || is_credentials o.

Definition is_none (v : pyval) : bool :=
  match v with PNone => true | _ => false end.

(** A world with two digital inputs, one digital output and one sensor,
    each announced on a topic named after the entity; and the scenario
    with an ["ha_discovery"] entry that says it is disabled. *)
Definition announce_entity (kind : string) (conf _ : pyval)
    (_ : MQTTClientOptions) : MQTTMessageSend :=
  {| send_topic := lit "homeassistant/" ++ lit kind ++ lit "/" ++
                   match conf with PStr name => name | _ => [] end ++
                   lit "/config";
     send_payload := []; send_qos := 1; send_retain := true |}.

Definition with_entities : world :=
  {| raises := fun _ _ => None;
     cancel_delivered := fun _ => false;
     arrivals := fun _ => [];
     digital_input_configs := [PStr (lit "button"); PStr (lit "door")];
     digital_output_configs := [PStr (lit "lamp")];
     sensor_input_configs := [PStr (lit "temp")];
     hass_announce_digital_input := announce_entity "binary_sensor";
     hass_announce_digital_output := announce_entity "switch";
     hass_announce_sensor_input := announce_entity "sensor" |}.

Definition discovery_mqtt : gmap string pyval :=
  <["ha_discovery" := PDict {[ "enabled" := PBool false ]}]> scenario_mqtt.

Definition discovery_server : MQTTIO :=
  {| config := PDict {[ "mqtt" := PDict discovery_mqtt ]};
     mqtt_client_options := scenario_options;
     _trio_token := None; _main_nursery := None;
     _mqtt_nursery := None; _mqtt := None;
     io_modules := [GPIO; SensorIO; StreamIO] |}.

(** The scenario with credentials and TLS switched on. *)
Definition secured_mqtt : gmap string pyval :=
  <["user" := PStr (lit "io")]>
    (<["password" := PStr (lit "secret")]>
       (<["tls" := PDict (list_to_map
                    [("enabled", PBool true);
                     ("ca_certs", PStr (lit "/etc/ca.pem"))])]>
          scenario_mqtt)).

Definition secured_tls : MQTTTLSOptions :=
  {| ca_certs := PStr (lit "/etc/ca.pem"); certfile := PNone;
     keyfile := PNone; ciphers := PNone |}.

Definition secured_options : MQTTClientOptions :=
  {| hostname := PStr (lit "localhost"); port := PInt 1883;
     username := PStr (lit "io"); password := PStr (lit "secret");
     client_id := PStr (lit "mqtt-io-" ++ SHA1.hexdigest (lit "home"));
     keepalive := PInt 10; clean_session := PBool false;
     tls_options := Some secured_tls;
     will := Some {| will_topic := lit "home/status";
                     will_payload := lit "dead";
                     will_qos := 1; will_retain := true |} |}.

Definition secured_server : MQTTIO :=
  {| config := PDict {[ "mqtt" := PDict secured_mqtt ]};
     mqtt_client_options := secured_options;
     _trio_token := None; _main_nursery := None;
     _mqtt_nursery := None; _mqtt := None;
     io_modules := [GPIO; SensorIO; StreamIO] |}.

(** Published test vectors of SHA-1. *)
Example sha1_empty :
  SHA1.hexdigest [] = lit "da39a3ee5e6b4b0d3255bfef95601890afd80709".
Proof. vm_compute. reflexivity. Qed.

Example sha1_abc :
  utf8_encode (lit "abc") = Some [97; 98; 99] /\
  SHA1.hexdigest [97; 98; 99] = lit "a9993e364706816aba3e25717850c26c9cd0d89d".
Proof. vm_compute. split; reflexivity. Qed.

Example sha1_two_blocks :
  SHA1.hexdigest (default [] (utf8_encode (lit
    "abcdbcdecdefdefgefghfghighijhijkijkljklmklmnlmnomnopnopq")))
  = lit "84983e441c3bd26ebaae4aa1f95129e5e54670f1".
Proof. vm_compute. reflexivity. Qed.

Example scenario_options_derived :
  _init_mqtt_config scenario_config = Return scenario_options.
Proof. vm_compute. reflexivity. Qed.

Example scenario_server_constructed :
  MQTTIO_init scenario_config = Return scenario_server.
Proof. vm_compute. reflexivity. Qed.

Example scenario_started :
  started calm scenario_config = Some scenario_running.
Proof. vm_compute. reflexivity. Qed.

(** [shutdown], called where no cancellation reaches it. *)
Example shutdown_calm :
  shutdown calm scenario_running =
  (Return tt,
   scenario_after
     [OpPublish (lit "home/status") (lit "stop") 1 true;
      OpWaitForPublish; OpDisconnect; OpDisconnectEventWait;
      OpCancelScope MainNursery;
      OpCleanup GPIO; OpCleanup SensorIO; OpCleanup StreamIO] true).
Proof. vm_compute. reflexivity. Qed.

(** A broker message that arrives while [self.gpio.cleanup()] runs is
    still handed to the modules: the cancel of the scope does not stop a
    receive loop that has a message to handle. *)
Example dispatch_during_cleanup :
  shutdown message_during_cleanup scenario_running =
  (Return tt,
   scenario_after
     ([OpPublish (lit "home/status") (lit "stop") 1 true;
       OpWaitForPublish; OpDisconnect; OpDisconnectEventWait;
       OpCancelScope MainNursery; OpCleanup GPIO] ++
      fan_out MainNursery [GPIO; SensorIO; StreamIO] [set_message] ++
      [OpCleanup SensorIO; OpCleanup StreamIO]) true).
Proof. vm_compute. reflexivity. Qed.

(* ===================================================================== *)
(** ** Connection options *)
(* ===================================================================== *)

Section Options.

Lemma result_bind_Return {A B} (f : A → result B) (r : result A) (b : B) :
  r ≫= f = Return b → ∃ a, r = Return a ∧ f a = Return b.
Proof. destruct r as [a|e]; simpl; [eauto | discriminate]. Qed.

Lemma encode_utf8_Return v b :
  encode_utf8 v = Return b → ∃ s, v = PStr s ∧ utf8_encode s = Some b.
Proof.
  destruct v; simpl; try discriminate.
  destruct (utf8_encode s) eqn:E; [|discriminate].
  intros [= <-]. eauto.
Qed.

Lemma join_slash_Return a b t :
  join_slash a b = Return t → ∃ x y, a = PStr x ∧ b = PStr y ∧ t = x ++ lit "/" ++ y.
Proof.
  destruct a; simpl; try discriminate.
  destruct b; simpl; try discriminate.
  intros [= <-]. eauto.
Qed.

(** What a successful [_init_mqtt_config] has read and built, step by
    step. *)
Lemma init_mqtt_config_Return self_config opts :
  _init_mqtt_config self_config = Return opts →
  ∃ config topic_prefix cid status_topic dead topic payload,
    getitem self_config "mqtt" = Return config ∧
    getitem config "topic_prefix" = Return topic_prefix ∧
    getitem config "client_id" = Return cid ∧
    (if truthy cid then client_id opts = cid
     else ∃ encoded, encode_utf8 topic_prefix = Return encoded ∧
            client_id opts = PStr (lit "mqtt-io-" ++ SHA1.hexdigest encoded)) ∧
    getitem config "status_topic" = Return status_topic ∧
    join_slash topic_prefix status_topic = Return topic ∧
    getitem config "status_payload_dead" = Return dead ∧
    encode_utf8 dead = Return payload ∧
    will opts = Some {| will_topic := topic; will_payload := payload;
                        will_qos := 1; will_retain := true |}.
Proof.
  unfold _init_mqtt_config. intros H.
  apply result_bind_Return in H as (config & Hc & H).
  apply result_bind_Return in H as (topic_prefix & Hp & H).
  apply result_bind_Return in H as (cid & Hcid & H).
  apply result_bind_Return in H as (cid' & Hcid' & H).
  apply result_bind_Return in H as (tls & _ & H).
  apply result_bind_Return in H as (tls_enabled & _ & H).
  apply result_bind_Return in H as (tlso & _ & H).
  apply result_bind_Return in H as (host & _ & H).
  apply result_bind_Return in H as (prt & _ & H).
  apply result_bind_Return in H as (user & _ & H).
  apply result_bind_Return in H as (pw & _ & H).
  apply result_bind_Return in H as (ka & _ & H).
  apply result_bind_Return in H as (cs & _ & H).
  apply result_bind_Return in H as (status_topic & Hst & H).
  apply result_bind_Return in H as (topic & Ht & H).
  apply result_bind_Return in H as (dead & Hd & H).
  apply result_bind_Return in H as (payload & Hpl & H).
  injection H as <-. simpl.
  exists config, topic_prefix, cid, status_topic, dead, topic, payload.
  repeat split; try assumption.
  destruct (truthy cid); simpl in Hcid'.
  - by injection Hcid' as ->.
  - apply result_bind_Return in Hcid' as (encoded & He & Hcid').
    injection Hcid' as <-. eauto.
Qed.

(** ** C8 *)

(** C8. For every configuration whose [client_id] is absent ([None]) or
    empty, and from which [_init_mqtt_config] derives options, the derived
    client id is ["mqtt-io-"] followed by the SHA-1 hex digest of the
    UTF-8 encoding of the topic prefix; hence two such configurations with
    the same topic prefix get the same client id. *)
Theorem client_id_derived_from_topic_prefix :
  ∀ self_config config prefix cid opts,
    getitem self_config "mqtt" = Return config →
    getitem config "topic_prefix" = Return (PStr prefix) →
    getitem config "client_id" = Return cid →
    cid = PNone ∨ cid = PStr [] →
    _init_mqtt_config self_config = Return opts →
    (∃ encoded, utf8_encode prefix = Some encoded ∧
       client_id opts = PStr (lit "mqtt-io-" ++ SHA1.hexdigest encoded)) ∧
    (∀ self_config' config' cid' opts',
       getitem self_config' "mqtt" = Return config' →
       getitem config' "topic_prefix" = Return (PStr prefix) →
       getitem config' "client_id" = Return cid' →
       cid' = PNone ∨ cid' = PStr [] →
       _init_mqtt_config self_config' = Return opts' →
       client_id opts' = client_id opts).
Proof.
  assert (Hmain : ∀ self_config config prefix cid opts,
    getitem self_config "mqtt" = Return config →
    getitem config "topic_prefix" = Return (PStr prefix) →
    getitem config "client_id" = Return cid →
    cid = PNone ∨ cid = PStr [] →
    _init_mqtt_config self_config = Return opts →
    ∃ encoded, utf8_encode prefix = Some encoded ∧
       client_id opts = PStr (lit "mqtt-io-" ++ SHA1.hexdigest encoded)).
  { intros self_config config prefix cid opts Hc Hp Hcid Hfalsy Hinit.
    apply init_mqtt_config_Return in Hinit
      as (config0 & tp & cid0 & _ & _ & _ & _ & Hc0 & Hp0 & Hcid0 & Hid & _).
    rewrite Hc in Hc0. injection Hc0 as <-.
    rewrite Hp in Hp0. injection Hp0 as <-.
    rewrite Hcid in Hcid0. injection Hcid0 as <-.
    assert (truthy cid = false) as Hf by (destruct Hfalsy as [-> | ->]; reflexivity).
    rewrite Hf in Hid. destruct Hid as (encoded & He & Hid).
    apply encode_utf8_Return in He as (s & [= <-] & He). eauto. }
  intros self_config config prefix cid opts Hc Hp Hcid Hfalsy Hinit.
  split; [by eapply Hmain|].
  intros self_config' config' cid' opts' Hc' Hp' Hcid' Hfalsy' Hinit'.
  destruct (Hmain _ _ _ _ _ Hc Hp Hcid Hfalsy Hinit) as (e1 & He1 & ->).
  destruct (Hmain _ _ _ _ _ Hc' Hp' Hcid' Hfalsy' Hinit') as (e2 & He2 & ->).
  congruence.
Qed.

(** A configuration dictionary that lacks the key altogether is rejected:
    the key is indexed, not looked up with a default. *)
Lemma client_id_key_missing config :
  (∃ v, config !! "topic_prefix" = Some v) →
  config !! "client_id" = None →
  _init_mqtt_config (PDict {[ "mqtt" := PDict config ]}) = Raise (KeyError "client_id").
Proof.
  intros [v Hv] Hnone. unfold _init_mqtt_config.
  simpl. rewrite lookup_singleton_eq. simpl. rewrite Hv. simpl.
  rewrite Hnone. reflexivity.
Qed.

(** ** C9 *)

(** C9. For every configuration from which [_init_mqtt_config] derives
    options, the Will has topic [topic_prefix + "/" + status_topic],
    payload the UTF-8 encoding of [status_payload_dead], qos 1 and retain
    set. *)
Theorem will_built_from_dead_status :
  ∀ self_config opts,
    _init_mqtt_config self_config = Return opts →
    ∃ config prefix status dead payload,
      getitem self_config "mqtt" = Return config ∧
      getitem config "topic_prefix" = Return (PStr prefix) ∧
      getitem config "status_topic" = Return (PStr status) ∧
      getitem config "status_payload_dead" = Return (PStr dead) ∧
      utf8_encode dead = Some payload ∧
      will opts = Some {| will_topic := prefix ++ lit "/" ++ status;
                          will_payload := payload;
                          will_qos := 1; will_retain := true |}.
Proof.
  intros self_config opts Hinit.
  apply init_mqtt_config_Return in Hinit
    as (config & tp & cid & st & dead & topic & payload
        & Hc & Hp & _ & _ & Hst & Hj & Hd & He & Hw).
  apply join_slash_Return in Hj as (x & y & -> & -> & ->).
  apply encode_utf8_Return in He as (d & -> & He).
  exists config, x, y, d, payload. by repeat split.
Qed.

End Options.

(** The scenario: topic prefix ["home"], client id [""]. *)
Lemma client_id_derived_from_topic_prefix_scenario :
  ∃ encoded, utf8_encode (lit "home") = Some encoded ∧
    client_id scenario_options = PStr (lit "mqtt-io-" ++ SHA1.hexdigest encoded).
Proof.
  apply (client_id_derived_from_topic_prefix
           scenario_config (PDict scenario_mqtt) (lit "home") (PStr [])
           scenario_options).
  - vm_compute; reflexivity.
  - vm_compute; reflexivity.
  - vm_compute; reflexivity.
  - right; reflexivity.
  - vm_compute; reflexivity.
Defined.

(** The scenario: Will topic ["home/status"], Will payload [b"dead"]. *)
Lemma will_built_from_dead_status_scenario :
  (∃ config prefix status dead payload,
     getitem scenario_config "mqtt" = Return config ∧
     getitem config "topic_prefix" = Return (PStr prefix) ∧
     getitem config "status_topic" = Return (PStr status) ∧
     getitem config "status_payload_dead" = Return (PStr dead) ∧
     utf8_encode dead = Some payload ∧
     will scenario_options =
       Some {| will_topic := prefix ++ lit "/" ++ status;
               will_payload := payload;
               will_qos := 1; will_retain := true |}) ∧
  will scenario_options =
    Some {| will_topic := lit "home/status"; will_payload := lit "dead";
            will_qos := 1; will_retain := true |}.
Proof.
  split; [|reflexivity].
  apply (will_built_from_dead_status scenario_config scenario_options).
  vm_compute; reflexivity.
Defined.

(* ===================================================================== *)
(** ** Running the methods *)
(* ===================================================================== *)

Section Running.

Implicit Types (w : world) (s : machine) (o : op) (tr ops : list op).

Lemma run_bind {A B} (c : M A) (f : A → M B) w s :
  (c ≫= f) w s =
  match c w s with
  | (Return a, s1) => f a w s1
  | (Raise e, s1) => (Raise e, s1)
  end.
Proof. reflexivity. Qed.

Lemma emit_emit ops1 ops2 s : emit ops2 (emit ops1 s) = emit (ops1 ++ ops2) s.
Proof. unfold emit; simpl. by rewrite app_assoc. Qed.

Lemma emit_nil s : emit [] s = s.
Proof. destruct s; unfold emit; simpl. by rewrite app_nil_r. Qed.

Lemma perform_returns w s o :
  raises w (trace s) o = None → perform o w s = (Return tt, emit [o] s).
Proof. unfold perform. by intros ->. Qed.

Lemma own_effects_app tr1 tr2 :
  own_effects (tr1 ++ tr2) = own_effects tr1 ++ own_effects tr2.
Proof. apply List.filter_app. Qed.

Lemma own_effects_fan_out n mods messages :
  own_effects (fan_out n mods messages) = [].
Proof.
  unfold fan_out. induction messages as [|msg messages IH]; [done|].
  simpl. rewrite own_effects_app, IH, app_nil_r.
  clear IH. induction mods as [|m mods IHm]; [done|]. simpl. exact IHm.
Qed.

(** *** The receive loop *)

(** The spawns of one message, then of a batch, for any world. *)
Lemma dispatch_one_returns w s n mods msg :
  returns_normally w →
  _main_nursery (self s) = Some n →
  for_ mods (fun io_module =>
      n ← eval nursery;
      perform (OpStartSoon n
        (HandleMqttMsg io_module (msg_topic msg) (msg_payload msg)))) w s
  = (Return tt, emit (fan_out n mods [msg]) s).
Proof.
  intros Hw Hn. revert s Hn.
  induction mods as [|m mods IH]; intros s Hn; simpl.
  - by rewrite emit_nil.
  - rewrite !run_bind. unfold eval at 1, nursery at 1. rewrite Hn.
    rewrite perform_returns by apply Hw.
    rewrite IH by done. rewrite emit_emit. unfold fan_out. simpl.
    by rewrite !app_nil_r.
Qed.

Lemma dispatch_returns w s n messages :
  returns_normally w →
  _main_nursery (self s) = Some n →
  dispatch messages w s
  = (Return tt, emit (fan_out n (io_modules (self s)) messages) s).
Proof.
  intros Hw Hn. unfold dispatch. revert s Hn.
  induction messages as [|msg messages IH]; intros s Hn; simpl.
  - by rewrite emit_nil.
  - rewrite !run_bind. unfold eval at 1.
    rewrite (dispatch_one_returns w s n) by done.
    rewrite IH by done. rewrite emit_emit. simpl.
    unfold fan_out. simpl. by rewrite app_nil_r.
Qed.

(** *** Skeletons *)

Lemma play_cons st sc w s :
  play (st :: sc) w s =
  match play_step st w s with
  | (Return _, s1) => play sc w s1
  | (Raise e, s1) => (Raise e, s1)
  end.
Proof. reflexivity. Qed.

Lemma play_single st w s : play [st] w s = play_step st w s.
Proof.
  rewrite play_cons. by destruct (play_step st w s) as [[[]|e] s1].
Qed.

Lemma play_app sc1 sc2 w s :
  play (sc1 ++ sc2) w s =
  match play sc1 w s with
  | (Return _, s1) => play sc2 w s1
  | (Raise e, s1) => (Raise e, s1)
  end.
Proof.
  revert s. induction sc1 as [|st sc1 IH]; intros s; [done|].
  simpl app. rewrite !play_cons.
  destruct (play_step st w s) as [[[]|e] s1]; [apply IH | done].
Qed.

Lemma bind_assoc {A B C} (c : M A) (f : A → M B) (g : B → M C) w s :
  ((c ≫= f) ≫= g) w s = (c ≫= (fun a => f a ≫= g)) w s.
Proof.
  rewrite !run_bind. destruct (c w s) as [[a|e] s1]; [|done].
  by rewrite run_bind.
Qed.

(** A method whose next step is the head of the skeleton. *)
Lemma play_sync st sc (f : unit → M unit) w s :
  (∀ s1, play_step st w s = (Return tt, s1) → f tt w s1 = play sc w s1) →
  (play_step st ≫= f) w s = play (st :: sc) w s.
Proof.
  intros H. rewrite play_cons, run_bind.
  destruct (play_step st w s) as [[[]|e] s1]; [by apply H | done].
Qed.

(** Any run of the receive loop only adds handler spawns. *)
Lemma dispatch_run messages w s r s' :
  dispatch messages w s = (r, s') →
  ∃ ops, s' = emit ops s ∧ own_effects ops = [].
Proof.
  unfold dispatch. revert s.
  induction messages as [|msg messages IH]; intros s; simpl.
  - intros [= <- <-]. exists []. by rewrite emit_nil.
  - rewrite !run_bind. unfold eval at 1.
    assert (Hin : ∀ mods s0 r0 s1,
      for_ mods (fun io_module =>
        n ← eval nursery;
        perform (OpStartSoon n
          (HandleMqttMsg io_module (msg_topic msg) (msg_payload msg)))) w s0
      = (r0, s1) → ∃ ops, s1 = emit ops s0 ∧ own_effects ops = []).
    { clear. induction mods as [|m mods IHm]; intros s0 r0 s1; simpl.
      - intros [= <- <-]. exists []. by rewrite emit_nil.
      - rewrite !run_bind. unfold eval at 1.
        destruct (nursery (self s0)) as [n|e].
        + unfold perform at 1.
          destruct (raises w (trace s0) _) as [e|].
          * intros [= <- <-]. by eexists [_].
          * intros H. apply IHm in H as (ops & -> & Hops).
            eexists (_ :: ops). rewrite emit_emit. split; [done|].
            exact Hops.
        + intros [= <- <-]. exists []. by rewrite emit_nil. }
    destruct (for_ _ _ w s) as [[[]|e] s1] eqn:E.
    + apply Hin in E as (ops1 & -> & H1).
      intros H. apply IH in H as (ops2 & -> & H2).
      exists (ops1 ++ ops2). rewrite emit_emit, own_effects_app, H1, H2. done.
    + apply Hin in E as (ops1 & -> & H1). intros [= <- <-]. eauto.
Qed.

Lemma suspend_run w s r s' :
  suspend w s = (r, s') → ∃ ops, s' = emit ops s ∧ own_effects ops = [].
Proof.
  unfold suspend. destruct (receiving s).
  - apply dispatch_run.
  - intros [= <- <-]. exists []. by rewrite emit_nil.
Qed.

(** One step, in any world: what it adds to the trace and does to
    [self]. *)
Lemma play_step_run st w s r s1 :
  play_step st w s = (r, s1) →
  ∃ ops, trace s1 = trace s ++ ops ∧
         own_effects ops = own_effects (step_calls st) ∧
         self s1 = match st with Assign f => f (self s) | _ => self s end.
Proof.
  destruct st as [o| | |b|f|e]; simpl.
  - unfold perform. intros [= <- <-]. by exists [o].
  - unfold check_cancelled. destruct (cancel_delivered w (trace s));
      intros [= <- <-]; exists []; by rewrite app_nil_r.
  - intros H. apply suspend_run in H as (ops & -> & Hops). by exists ops.
  - unfold set_receiving. intros [= <- <-]. exists []. by rewrite app_nil_r.
  - unfold update. intros [= <- <-]. exists []. by rewrite app_nil_r.
  - intros [= <- <-]. exists []. by rewrite app_nil_r.
Qed.

Lemma calls_cons st sc : calls (st :: sc) = step_calls st ++ calls sc.
Proof. by destruct st. Qed.

(** In any world, the calls made by a skeleton are an initial segment of
    its calls, and all of them when it returns. *)
Lemma play_prefix sc w s r s' :
  play sc w s = (r, s') →
  ∃ ops, trace s' = trace s ++ ops ∧
         own_effects ops `prefix_of` own_effects (calls sc) ∧
         (r = Return tt → own_effects ops = own_effects (calls sc)).
Proof.
  revert s. induction sc as [|st sc IH]; intros s.
  - simpl. intros [= <- <-]. exists []. by rewrite app_nil_r.
  - rewrite play_cons, calls_cons, own_effects_app.
    destruct (play_step st w s) as [[[]|e] s1] eqn:E;
      apply play_step_run in E as (ops1 & Ht1 & Ho1 & _).
    + intros H. apply IH in H as (ops2 & Ht2 & Hp & Hr).
      exists (ops1 ++ ops2). rewrite Ht2, Ht1, own_effects_app, Ho1, app_assoc.
      split; [done|]. split; [by apply prefix_app|].
      intros Hret. by rewrite (Hr Hret).
    + intros [= <- <-]. exists ops1. rewrite Ho1. split; [done|].
      split; [by apply prefix_app_r|]. discriminate.
Qed.

Lemma play_Return_self sc w s s' :
  play sc w s = (Return tt, s') → self s' = assigned sc (self s).
Proof.
  revert s. induction sc as [|st sc IH]; intros s.
  - simpl. by intros [= <-].
  - rewrite play_cons.
    destruct (play_step st w s) as [[[]|e] s1] eqn:E; [|discriminate].
    apply play_step_run in E as (_ & _ & _ & Hs).
    intros H. apply IH in H. rewrite H, Hs. by destruct st.
Qed.

(** A property of [self] kept by every assignment of a skeleton holds
    however its run ends. *)
Lemma play_invariant (P : MQTTIO → Prop) sc w s r s' :
  Forall (keeps P) sc →
  play sc w s = (r, s') → P (self s) → P (self s').
Proof.
  intros Hsc. revert s. induction Hsc as [|st sc Hst _ IH]; intros s.
  - simpl. by intros [= <- <-].
  - rewrite play_cons.
    destruct (play_step st w s) as [[[]|e] s1] eqn:E;
      apply play_step_run in E as (_ & _ & _ & Hs).
    + intros H HP. apply (IH _ H). rewrite Hs. destruct st; try done.
      by apply Hst.
    + intros [= <- <-] HP. rewrite Hs. destruct st; try done. by apply Hst.
Qed.

Lemma keeps_plain P st : plain st → keeps P st.
Proof. by destruct st. Qed.

(** When every call returns and nothing is cancelled, a skeleton without
    failing step runs to its end. *)
Lemma play_returns sc w s n :
  returns_normally w → never_cancelled w →
  Forall plain sc →
  _main_nursery (self s) = Some n →
  ∃ s', play sc w s = (Return tt, s').
Proof.
  intros Hw Hc Hsc. revert s.
  induction Hsc as [|st sc Hst _ IH]; intros s Hn; [by eexists|].
  rewrite play_cons.
  assert (∃ s1, play_step st w s = (Return tt, s1) ∧ self s1 = self s)
    as (s1 & -> & Hs).
  { destruct st as [o| | |b|f|e]; simpl in *; try done.
    - rewrite perform_returns by apply Hw. eauto.
    - unfold check_cancelled. rewrite Hc. eauto.
    - unfold suspend. destruct (receiving s); [|eauto].
      rewrite (dispatch_returns w s n) by done. eauto.
    - unfold set_receiving. eauto. }
  apply IH. by rewrite Hs.
Qed.

(** *** [shutdown] runs as its skeleton *)

Ltac sync :=
  repeat rewrite bind_assoc;
  lazymatch goal with
  | |- _ = play (?st :: ?sc) ?w ?s =>
      let s1 := fresh "s" in
      let H := fresh "Hs" in
      apply (play_sync st sc); intros s1 H;
      apply play_step_run in H as (_ & _ & _ & H); simpl in H
  end.

(** Evaluate the expression over [self] that the method reads next. *)
Ltac read :=
  rewrite run_bind; unfold eval at 1;
  repeat match goal with
         | H : self ?a = _ |- context [self ?a] => rewrite H
         end;
  cbn [config mqtt_client_options _mqtt _main_nursery io_modules
       set_mqtt set_mqtt_nursery set_main_nursery set_trio_token];
  lazy beta iota.

Lemma run_ret_bind {A B} (a : A) (f : A → M B) w s :
  (mret a ≫= f) w s = f a w s.
Proof. reflexivity. Qed.

Lemma cleanup_loop_plays mods w s :
  for_ mods (fun io_module => to_thread_run_sync (OpCleanup io_module)) w s
  = play (cleanup_steps mods) w s.
Proof.
  revert s. induction mods as [|m mods IH]; intros s; [done|].
  change (cleanup_steps (m :: mods))
    with (Checkpoint :: Call (OpCleanup m) :: Yield :: cleanup_steps mods).
  cbn [for_]. unfold to_thread_run_sync, await_.
  sync. sync. sync. apply IH.
Qed.

Lemma shutdown_plays w s :
  shutdown w s = play (shutdown_steps (self s)) w s.
Proof.
  unfold shutdown, shutdown_steps.
  read. destruct (getitem (config (self s)) "mqtt") as [mqtt_config|e]; [|done].
  read. destruct (mqtt (self s)) as [client|e] eqn:Hm; [|done].
  read. destruct (status_topic_of mqtt_config) as [topic|e]; [|done].
  read. destruct (status_payload_of mqtt_config _) as [payload|e]; [|done].
  unfold to_thread_run_sync, event_wait, await_.
  do 4 sync. read. rewrite Hm.
  sync. read. rewrite Hm.
  do 3 sync. read.
  destruct (nursery (self s)) as [n|e]; [|done].
  sync. read.
  apply cleanup_loop_plays.
Qed.

(** *** [run_mqtt] and [startup] run as their skeletons *)

Lemma publish_loop_plays messages w s :
  for_ messages (fun msg => perform (publish_message msg)) w s
  = play (map (fun msg => Call (publish_message msg)) messages) w s.
Proof.
  revert s. induction messages as [|msg messages IH]; intros s; [done|].
  cbn [for_ map]. sync. apply IH.
Qed.

Lemma run_mqtt_plays w s :
  run_mqtt w s = play (run_mqtt_steps w (self s)) w s.
Proof.
  unfold run_mqtt, run_mqtt_steps. read.
  set (options := mqtt_client_options (self s)).
  do 4 sync.
  destruct (tls_options options) as [tls|]; cbn [app];
    [sync | rewrite run_ret_bind].
  all: destruct (username options) as [|b|z|u|d]; cbn [app];
    [rewrite run_ret_bind | sync ..].
  all: sync.
  all: destruct (will options) as [wl|]; cbn [app];
    [sync | rewrite run_ret_bind].
  all: do 2 sync.
  all: read.
  all: destruct (getitem (config (self s)) "mqtt") as [mqtt_config|e] eqn:Hc;
    [|done].
  all: read.
  all: destruct (contains mqtt_config "ha_discovery") as [[|]|e]; [|done..].
  all: unfold _ha_discovery_announce.
  all: rewrite run_bind; unfold ask at 1; lazy beta iota.
  all: read; rewrite Hc; read.
  all: apply publish_loop_plays.
Qed.

Lemma assigned_app sc1 sc2 (obj : MQTTIO) :
  assigned (sc1 ++ sc2) obj = assigned sc2 (assigned sc1 obj).
Proof.
  revert obj. induction sc1 as [|st sc1 IH]; intros obj; [done|].
  destruct st; simpl; apply IH.
Qed.

Lemma assigned_calls {A} (f : A → op) (l : list A) (obj : MQTTIO) :
  assigned (map (fun x => Call (f x)) l) obj = obj.
Proof. induction l as [|x l IH]; [done | exact IH]. Qed.

Lemma assigned_run_mqtt w (obj obj' : MQTTIO) :
  assigned (run_mqtt_steps w obj) obj'
  = set_mqtt (new_client (mqtt_client_options obj))
             (set_mqtt_nursery MQTTNursery obj').
Proof.
  unfold run_mqtt_steps. cbn [assigned].
  destruct (tls_options _); cbn [app assigned];
    destruct (username _); cbn [app assigned];
    destruct (will _); cbn [app assigned];
    destruct (getitem _ _) as [mqtt_config|e]; try done;
    destruct (contains _ _) as [[|]|e]; try done;
    apply assigned_calls.
Qed.

Lemma startup_plays w s :
  startup w s = play (startup_steps w (self s)) w s.
Proof.
  unfold startup, startup_steps, handle_signals_ready, await_.
  do 5 sync.
  repeat rewrite bind_assoc.
  rewrite play_app, run_bind, run_mqtt_plays.
  replace (self s4) with (set_main_nursery MainNursery (self s)) by congruence.
  destruct (play (run_mqtt_steps _ _) w s4) as [[[]|e] s5] eqn:E; [|done].
  apply play_Return_self in E. rewrite assigned_run_mqtt in E.
  do 7 sync.
  read. destruct (getitem (config (self s)) "mqtt") as [mqtt_config|e]; [|done].
  read. destruct (status_topic_of mqtt_config) as [topic|e]; [|done].
  read. destruct (status_payload_of mqtt_config _) as [payload|e]; [|done].
  read. unfold mqtt at 1. cbn [_mqtt set_mqtt]. lazy beta iota.
  sync.
  read. unfold mqtt at 1. cbn [_mqtt set_mqtt]. lazy beta iota.
  by rewrite play_single.
Qed.

End Running.

(* ===================================================================== *)
(** ** Shutdown *)
(* ===================================================================== *)

Section Shutdown.

Implicit Types (w : world) (s : machine) (tr ops : list op).

Lemma configured_status_reads (obj : MQTTIO) key topic payload :
  configured_status obj key topic payload →
  ∃ mqtt_config,
    getitem (config obj) "mqtt" = Return mqtt_config ∧
    status_topic_of mqtt_config = Return topic ∧
    status_payload_of mqtt_config key = Return payload.
Proof.
  intros (m & prefix & status & text & Hc & Hp & Hst & Hk & -> & He).
  exists (PDict m). split; [done|].
  unfold status_topic_of, status_payload_of. simpl.
  by rewrite Hp, Hst, Hk; simpl; rewrite ?He.
Qed.

Lemma calls_cleanup_steps mods : calls (cleanup_steps mods) = map OpCleanup mods.
Proof. induction mods as [|m mods IH]; [done|]. simpl. by rewrite IH. Qed.

Lemma own_effects_cleanups mods :
  own_effects (map OpCleanup mods) = map OpCleanup mods.
Proof. induction mods as [|m mods IH]; [done|]. simpl. by rewrite IH. Qed.

Lemma plain_cleanup_steps mods : Forall plain (cleanup_steps mods).
Proof.
  induction mods as [|m mods IH]; [constructor|].
  simpl. by repeat constructor.
Qed.

(** The skeleton of [shutdown] on a server whose client and nursery are
    initialised. *)
Lemma shutdown_steps_started (obj : MQTTIO) topic payload client n :
  configured_status obj "status_payload_stopped" topic payload →
  _mqtt obj = Some client →
  _main_nursery obj = Some n →
  shutdown_steps obj =
    Call (OpPublish topic payload 1 true) ::
    Checkpoint :: Call OpWaitForPublish :: Yield ::
    Call OpDisconnect ::
    Checkpoint :: Call OpDisconnectEventWait :: Yield ::
    Call (OpCancelScope n) ::
    cleanup_steps (io_modules obj).
Proof.
  intros Hcfg Hm Hn.
  apply configured_status_reads in Hcfg as (mqtt_config & Hc & Ht & Hp).
  unfold shutdown_steps, mqtt, nursery. by rewrite Hc, Hm, Ht, Hp, Hn.
Qed.

Lemma shutdown_calls (obj : MQTTIO) topic payload client n :
  configured_status obj "status_payload_stopped" topic payload →
  _mqtt obj = Some client →
  _main_nursery obj = Some n →
  own_effects (calls (shutdown_steps obj))
  = shutdown_sequence topic payload n (io_modules obj).
Proof.
  intros Hcfg Hm Hn. rewrite (shutdown_steps_started _ _ _ _ _ Hcfg Hm Hn).
  unfold shutdown_sequence. simpl.
  by rewrite calls_cleanup_steps, own_effects_cleanups.
Qed.

(** In any world the calls of [shutdown] are an initial segment of the
    shutdown sequence, the whole of it when [shutdown] returns. *)
Lemma shutdown_prefix w s topic payload client n r s' :
  configured_status (self s) "status_payload_stopped" topic payload →
  _mqtt (self s) = Some client →
  _main_nursery (self s) = Some n →
  shutdown w s = (r, s') →
  ∃ ops, trace s' = trace s ++ ops ∧
    own_effects ops `prefix_of` shutdown_sequence topic payload n (io_modules (self s)) ∧
    (r = Return tt →
     own_effects ops = shutdown_sequence topic payload n (io_modules (self s))).
Proof.
  intros Hcfg Hm Hn H. rewrite shutdown_plays in H.
  apply play_prefix in H as (ops & Ht & Hp & Hr).
  rewrite (shutdown_calls _ _ _ _ _ Hcfg Hm Hn) in Hp, Hr. eauto.
Qed.

Lemma assigned_plain sc (obj : MQTTIO) : Forall plain sc → assigned sc obj = obj.
Proof.
  induction 1 as [|st sc Hst _ IH]; [done|]. by destruct st.
Qed.

(** When every call returns and no cancellation is delivered, [shutdown]
    returns, having made the whole sequence and left [self] as it was. *)
Lemma shutdown_completes w s topic payload client n :
  configured_status (self s) "status_payload_stopped" topic payload →
  _mqtt (self s) = Some client →
  _main_nursery (self s) = Some n →
  returns_normally w → never_cancelled w →
  ∃ s' ops, shutdown w s = (Return tt, s') ∧
    self s' = self s ∧
    trace s' = trace s ++ ops ∧
    own_effects ops = shutdown_sequence topic payload n (io_modules (self s)).
Proof.
  intros Hcfg Hm Hn Hw Hc.
  assert (Hplain : Forall plain (shutdown_steps (self s))).
  { rewrite (shutdown_steps_started _ _ _ _ _ Hcfg Hm Hn).
    repeat (constructor; [done|]). apply plain_cleanup_steps. }
  destruct (play_returns _ w s n Hw Hc Hplain Hn) as (s' & Hrun).
  pose proof Hrun as Hself. apply play_Return_self in Hself.
  rewrite assigned_plain in Hself by done.
  rewrite <- shutdown_plays in Hrun.
  destruct (shutdown_prefix _ _ _ _ _ _ _ _ Hcfg Hm Hn Hrun) as (ops & Ht & _ & Hr).
  exists s', ops. auto.
Qed.

(** [shutdown] assigns nothing. *)
Lemma shutdown_steps_assign_nothing P (obj : MQTTIO) :
  Forall (keeps P) (shutdown_steps obj).
Proof.
  unfold shutdown_steps.
  destruct (getitem _ _) as [mqtt_config|e]; [|by repeat constructor].
  destruct (mqtt obj) as [c|e]; [|by repeat constructor].
  destruct (status_topic_of _) as [topic|e]; [|by repeat constructor].
  destruct (status_payload_of _ _) as [payload|e]; [|by repeat constructor].
  repeat (constructor; [done|]).
  destruct (nursery obj) as [n|e]; [|by repeat constructor].
  repeat (constructor; [done|]).
  eapply Forall_impl; [apply plain_cleanup_steps|].
  intros st. apply keeps_plain.
Qed.

Lemma shutdown_leaves_self w s r s' :
  shutdown w s = (r, s') → self s' = self s.
Proof.
  intros H. rewrite shutdown_plays in H.
  by apply (play_invariant (fun o => o = self s) _ _ _ _ _
              (shutdown_steps_assign_nothing _ _) H).
Qed.

(** *** Leaving the signal receiver *)

Lemma redeliver_remaining_run {A} e pending w s (r : result A) s' :
  redeliver_remaining e pending w s = (r, s') →
  ∃ redelivered,
    trace s' = trace s ++ map OpSignalRaise redelivered ∧
    redelivered `prefix_of` pending ∧
    self s' = self s ∧
    ∃ e', r = Raise e'.
Proof.
  revert e s.
  induction pending as [|signum pending IH]; intros e s;
    cbn [redeliver_remaining].
  - intros [= <- <-]. exists []. rewrite app_nil_r. eauto using prefix_nil.
  - unfold perform at 1.
    assert (Hgo : ∀ e0, redeliver_remaining e0 pending w (emit [OpSignalRaise signum] s)
                        = (r, s') →
      ∃ redelivered,
        trace s' = trace s ++ map OpSignalRaise redelivered ∧
        redelivered `prefix_of` signum :: pending ∧
        self s' = self s ∧ ∃ e', r = Raise e').
    { intros e0 H. apply IH in H as (d & Ht & Hp & Hs & He).
      exists (signum :: d). cbn [map emit trace self] in *.
      rewrite Ht, <- app_assoc. split; [done|]. split; [|done].
      by apply prefix_cons. }
    destruct (raises w (trace s) _) as [e1|]; [|apply Hgo].
    destruct e1; try apply Hgo.
    intros [= <- <-]. exists [signum]. cbn [map emit trace self].
    split; [done|]. split; [|eauto].
    apply prefix_cons, prefix_nil.
Qed.

Lemma redeliver_remaining_quiet {A} e pending w s :
  (∀ tr signum, raises w tr (OpSignalRaise signum) = None) →
  redeliver_remaining (A := A) e pending w s
  = (Raise e, emit (map OpSignalRaise pending) s).
Proof.
  intros Hq. revert s.
  induction pending as [|signum pending IH]; intros s;
    cbn [redeliver_remaining map].
  - by rewrite emit_nil.
  - unfold perform at 1. by rewrite Hq, IH, emit_emit.
Qed.

Lemma leaving_Return {A} signals (c : M A) w s a s' :
  leaving signals c w s = (Return a, s') → c w s = (Return a, s').
Proof.
  unfold leaving. destruct (c w s) as [[a1|e] s1]; [done|].
  assert (redeliver_remaining (A := A) e (pending_of signals) w s1 = (Return a, s')
          → (Raise e, s1) = (Return a, s')).
  { intros H. apply redeliver_remaining_run in H as (_ & _ & _ & _ & e' & He').
    discriminate. }
  by destruct e.
Qed.

Lemma leaving_Raise {A} signals (c : M A) w s e s' :
  leaving signals c w s = (Raise e, s') →
  ∃ e1 s1 redelivered,
    c w s = (Raise e1, s1) ∧
    trace s' = trace s1 ++ map OpSignalRaise redelivered ∧
    redelivered `prefix_of` pending_of signals ∧
    self s' = self s1.
Proof.
  unfold leaving. destruct (c w s) as [[a1|e1] s1]; [done|].
  assert (redeliver_remaining (A := A) e1 (pending_of signals) w s1 = (Raise e, s')
          → ∃ e2 s2 redelivered,
              (Raise (A := A) e1, s1) = (Raise e2, s2) ∧
              trace s' = trace s2 ++ map OpSignalRaise redelivered ∧
              redelivered `prefix_of` pending_of signals ∧
              self s' = self s2).
  { intros H. apply redeliver_remaining_run in H as (d & Ht & Hp & Hs & _).
    by exists e1, s1, d. }
  destruct e1; try done.
  intros [= <- <-]. exists Killed, s1, []. rewrite app_nil_r.
  eauto using prefix_nil.
Qed.

Lemma leaving_check_cancelled signals w s r s' :
  leaving signals check_cancelled w s = (r, s') →
  self s' = self s ∧
  ∃ redelivered,
    trace s' = trace s ++ map OpSignalRaise redelivered ∧
    redelivered `prefix_of` pending_of signals ∧
    (r = Return tt → cancel_delivered w (trace s) = false ∧ s' = s).
Proof.
  destruct r as [[]|e]; intros H.
  - apply leaving_Return in H. unfold check_cancelled in H.
    destruct (cancel_delivered w (trace s)); [done|].
    injection H as <-. split; [done|]. exists []. rewrite app_nil_r.
    eauto using prefix_nil.
  - apply leaving_Raise in H as (e1 & s1 & d & H & Ht & Hp & Hs).
    unfold check_cancelled in H.
    destruct (cancel_delivered w (trace s)); [|done].
    injection H as _ <-. split; [done|]. exists d. by repeat split.
Qed.

Lemma handle_signals_loop_leaves_self signals w s r s' :
  handle_signals_loop signals w s = (r, s') → self s' = self s.
Proof.
  revert s.
  induction signals as [|signum signals IH]; intros s;
    cbn [handle_signals_loop].
  - by intros [= <- <-].
  - rewrite run_bind.
    destruct (leaving _ check_cancelled w s) as [[[]|e] s1] eqn:E1;
      apply leaving_check_cancelled in E1 as (Hs1 & _); [|by intros [= <- <-]].
    rewrite run_bind.
    destruct (leaving _ shutdown w s1) as [[[]|e] s2] eqn:E2.
    + apply leaving_Return, shutdown_leaves_self in E2.
      intros H. apply IH in H. congruence.
    + apply leaving_Raise in E2 as (e1 & s3 & d & E2 & _ & _ & Hs).
      apply shutdown_leaves_self in E2. intros [= <- <-]. congruence.
Qed.

End Shutdown.

(* ===================================================================== *)
(** ** Message fan-out *)
(* ===================================================================== *)

Section FanOut.

Implicit Types (w : world) (s : machine).


(** ** C7 *)


End FanOut.


(* ===================================================================== *)
(** ** The guarded accessors *)
(* ===================================================================== *)

Section Accessors.

Lemma assigned_startup w (obj : MQTTIO) :
  assigned (startup_steps w obj) obj
  = set_mqtt (new_client (mqtt_client_options obj))
      (set_mqtt_nursery MQTTNursery (set_main_nursery MainNursery obj)).
Proof.
  unfold startup_steps. cbn [assigned]. rewrite assigned_app, assigned_run_mqtt.
  cbn [assigned mqtt_client_options set_main_nursery].
  destruct (getitem _ _) as [mqtt_config|e]; [|done].
  destruct (status_topic_of _) as [topic|e]; [|done].
  by destruct (status_payload_of _ _) as [payload|e].
Qed.

(** The assignments of [run_mqtt], [startup] and [shutdown] leave the
    token alone. *)

Ltac keep_step := constructor; [first [done | by intros ? ?] |].

Lemma keeps_token_run_mqtt w (obj : MQTTIO) :
  Forall (keeps has_token) (run_mqtt_steps w obj).
Proof.
  assert (Hcalls : ∀ l : list MQTTMessageSend,
    Forall (keeps has_token) (map (fun msg => Call (publish_message msg)) l)).
  { induction l; by constructor. }
  assert (Htail : Forall (keeps has_token)
    match getitem (config obj) "mqtt" with
    | Raise e => [Stop e]
    | Return mqtt_config =>
        match contains mqtt_config "ha_discovery" with
        | Raise e => [Stop e]
        | Return true =>
            map (fun msg => Call (publish_message msg))
                (discovery_messages w mqtt_config (mqtt_client_options obj))
        | Return false => []
        end
    end).
  { destruct (getitem _ _) as [mqtt_config|e]; [|by repeat constructor].
    destruct (contains _ _) as [[|]|e]; [apply Hcalls|by repeat constructor..]. }
  unfold run_mqtt_steps.
  repeat keep_step.
  destruct (tls_options _); cbn [app]; repeat keep_step;
    destruct (username _); cbn [app]; repeat keep_step;
    destruct (will _); cbn [app]; repeat keep_step;
    exact Htail.
Qed.

Lemma keeps_token_startup w (obj : MQTTIO) :
  Forall (keeps has_token) (startup_steps w obj).
Proof.
  unfold startup_steps.
  do 5 keep_step.
  apply Forall_app. split; [apply keeps_token_run_mqtt|].
  repeat keep_step.
  destruct (getitem _ _) as [mqtt_config|e]; [|by repeat constructor].
  destruct (status_topic_of _) as [topic|e]; [|by repeat constructor].
  destruct (status_payload_of _ _) as [payload|e]; by repeat constructor.
Qed.

Lemma keeps_token_shutdown (obj : MQTTIO) :
  Forall (keeps has_token) (shutdown_steps obj).
Proof.
  unfold shutdown_steps.
  destruct (getitem _ _) as [mqtt_config|e]; [|by repeat constructor].
  destruct (mqtt obj) as [c|e]; [|by repeat constructor].
  destruct (status_topic_of _) as [topic|e]; [|by repeat constructor].
  destruct (status_payload_of _ _) as [payload|e]; [|by repeat constructor].
  repeat keep_step.
  destruct (nursery obj) as [n|e]; [|by repeat constructor].
  repeat keep_step.
  eapply Forall_impl; [apply plain_cleanup_steps|].
  intros st. apply keeps_plain.
Qed.

Lemma handle_signals_loop_keeps_token signals w s r s' :
  handle_signals_loop signals w s = (r, s') →
  has_token (self s) → has_token (self s').
Proof.
  intros H HP. apply handle_signals_loop_leaves_self in H. by rewrite H.
Qed.

Lemma run_async_keeps_token signals w s r s' :
  run_async signals w s = (r, s') →
  has_token (set_trio_token CurrentTrioToken (self s)) →
  trio_token (self s') = Return CurrentTrioToken.
Proof.
  unfold run_async. rewrite run_bind. unfold update at 1. lazy beta iota.
  set (s0 := {| self := _ |}). intros H HP.
  assert (Hs' : has_token (self s')).
  { unfold open_nursery in H. rewrite run_bind in H.
    destruct (startup w s0) as [[[]|e] s1] eqn:E1; rewrite startup_plays in E1.
    - assert (has_token (self s1)) as HP1
        by (eapply play_invariant; [apply keeps_token_startup | exact E1 | exact HP]).
      destruct (handle_signals_loop signals w s1) as [[[]|e] s2] eqn:E2;
        apply handle_signals_loop_keeps_token in E2; try done.
      + by injection H as <- <-.
      + destruct e; try (by injection H as <- <-).
        destruct (existsb _ _); by injection H as <- <-.
    - assert (has_token (self s1)) as HP1
        by (eapply play_invariant; [apply keeps_token_startup | exact E1 | exact HP]).
      destruct e; try (by injection H as <- <-).
      destruct (existsb _ _); by injection H as <- <-. }
  unfold trio_token. by rewrite Hs'.
Qed.

(** ** C10 *)

(** C10. Each of the accessors [nursery], [mqtt] and [trio_token] raises
    [RuntimeError] while its attribute is [None], as on a freshly
    constructed server, and returns the stored instance once it is set:
    the token as soon as [run_async] has started, the main nursery and the
    client once [startup] has returned. *)
Theorem accessors_guard_initialisation :
  (∀ obj, _main_nursery obj = None →
     nursery obj = Raise (RuntimeError "Nursery has not been initialised")) ∧
  (∀ obj, _mqtt obj = None →
     mqtt obj = Raise (RuntimeError "MQTT is not initialised")) ∧
  (∀ obj, _trio_token obj = None →
     trio_token obj = Raise (RuntimeError "Server has not yet been run()")) ∧
  (∀ obj n, _main_nursery obj = Some n → nursery obj = Return n) ∧
  (∀ obj c, _mqtt obj = Some c → mqtt obj = Return c) ∧
  (∀ obj t, _trio_token obj = Some t → trio_token obj = Return t) ∧
  (∀ config obj, MQTTIO_init config = Return obj →
     nursery obj = Raise (RuntimeError "Nursery has not been initialised") ∧
     mqtt obj = Raise (RuntimeError "MQTT is not initialised") ∧
     trio_token obj = Raise (RuntimeError "Server has not yet been run()")) ∧
  (∀ w s s', startup w s = (Return tt, s') →
     nursery (self s') = Return MainNursery ∧
     mqtt (self s') = Return (new_client (mqtt_client_options (self s))) ∧
     trio_token (self s') = trio_token (self s)) ∧
  (∀ w s signals r s', run_async signals w s = (r, s') →
     trio_token (self s') = Return CurrentTrioToken).
Proof.
  repeat split.
  - intros obj H. unfold nursery. by rewrite H.
  - intros obj H. unfold mqtt. by rewrite H.
  - intros obj H. unfold trio_token. by rewrite H.
  - intros obj n H. unfold nursery. by rewrite H.
  - intros obj c H. unfold mqtt. by rewrite H.
  - intros obj t H. unfold trio_token. by rewrite H.
  - unfold MQTTIO_init in H.
    apply result_bind_Return in H as (options & _ & H). by injection H as <-.
  - unfold MQTTIO_init in H.
    apply result_bind_Return in H as (options & _ & H). by injection H as <-.
  - unfold MQTTIO_init in H.
    apply result_bind_Return in H as (options & _ & H). by injection H as <-.
  - rewrite startup_plays in H. apply play_Return_self in H.
    rewrite assigned_startup in H. by rewrite H.
  - rewrite startup_plays in H. apply play_Return_self in H.
    rewrite assigned_startup in H. by rewrite H.
  - rewrite startup_plays in H. apply play_Return_self in H.
    rewrite assigned_startup in H. by rewrite H.
  - intros w s signals r s' H. eapply run_async_keeps_token; [exact H|].
    reflexivity.
Qed.

End Accessors.

(** The scenario: before and after start-up. *)
Lemma accessors_guard_initialisation_scenario :
  (nursery scenario_server = Raise (RuntimeError "Nursery has not been initialised") ∧
   mqtt scenario_server = Raise (RuntimeError "MQTT is not initialised") ∧
   trio_token scenario_server = Raise (RuntimeError "Server has not yet been run()")) ∧
  (nursery (self scenario_running) = Return MainNursery ∧
   mqtt (self scenario_running) = Return (new_client scenario_options) ∧
   trio_token (self scenario_running) = trio_token scenario_server).
Proof.
  destruct accessors_guard_initialisation
    as (_ & _ & _ & _ & _ & _ & Hfresh & Hstarted & _).
  split.
  - apply (Hfresh scenario_config). vm_compute; reflexivity.
  - apply (Hstarted calm (boot scenario_server) scenario_running).
    vm_compute; reflexivity.
Defined.

(* ===================================================================== *)
(** ** Errors raised by collaborators *)
(* ===================================================================== *)

Section FailFast.

Implicit Types (w : world) (s : machine).

Lemma fail_fast_bind {A B} (c : M A) (f : A → M B) :
  fail_fast c → (∀ a, fail_fast (f a)) → fail_fast (c ≫= f).
Proof.
  intros Hc Hf w s r s' H. rewrite run_bind in H.
  destruct (c w s) as [[a|e1] s1] eqn:E;
    destruct (Hc _ _ _ _ E) as (ops1 & Ht1 & H1).
  - destruct (Hf a _ _ _ _ H) as (ops2 & Ht2 & H2).
    exists (ops1 ++ ops2). split; [by rewrite Ht2, Ht1, app_assoc|].
    intros pre x post e Heq Hr.
    apply app_eq_inv in Heq as [(k & Hk1 & Hk2) | (k & Hk1 & Hk2)].
    + destruct k as [|x' k'].
      * rewrite app_nil_r in Hk1. subst ops1. simpl in Hk2.
        apply (H2 [] x post e); [done|]. by rewrite app_nil_r, Ht1.
      * injection Hk2 as <- ->.
        by destruct (H1 pre x k' e Hk1 Hr).
    + subst pre. apply (H2 k x post e Hk2). by rewrite Ht1, <- app_assoc.
  - injection H as <- <-. exists ops1. split; [done|].
    intros pre x post e Heq Hr.
    by destruct (H1 pre x post e Heq Hr) as [[= ->] ->].
Qed.

Lemma fail_fast_perform o : fail_fast (perform o).
Proof.
  intros w s r s'. unfold perform. intros [= <- <-]. exists [o].
  split; [done|]. intros pre x post e Heq Hr.
  destruct pre as [|y pre]; simpl in Heq.
  - injection Heq as <- <-. by rewrite app_nil_r, Hr in *.
  - injection Heq as _ Heq. by destruct pre.
Qed.

(** Computations that make no call. *)
Lemma fail_fast_silent {A} (c : M A) :
  (∀ w s, trace (c w s).2 = trace s) → fail_fast c.
Proof.
  intros Hc w s r s' H. exists []. specialize (Hc w s). rewrite H in Hc.
  split; [by rewrite app_nil_r|]. intros pre x post e Heq. by destruct pre.
Qed.

Lemma fail_fast_eval {A} (f : MQTTIO → result A) : fail_fast (eval f).
Proof. by apply fail_fast_silent. Qed.

Lemma fail_fast_check_cancelled : fail_fast check_cancelled.
Proof.
  apply fail_fast_silent. intros w s. unfold check_cancelled.
  by destruct (cancel_delivered w (trace s)).
Qed.

Lemma fail_fast_set_receiving b : fail_fast (set_receiving b).
Proof. by apply fail_fast_silent. Qed.

Lemma fail_fast_for {A} (l : list A) (body : A → M unit) :
  (∀ x, fail_fast (body x)) → fail_fast (for_ l body).
Proof.
  intros Hb. induction l as [|x l IH]; simpl.
  - by apply fail_fast_silent.
  - apply fail_fast_bind; [apply Hb | by intros _].
Qed.

Lemma fail_fast_dispatch messages : fail_fast (dispatch messages).
Proof.
  unfold dispatch. apply fail_fast_for. intros msg.
  apply fail_fast_bind; [apply fail_fast_eval|]. intros mods.
  apply fail_fast_for. intros m.
  apply fail_fast_bind; [apply fail_fast_eval|]. intros n.
  apply fail_fast_perform.
Qed.

Lemma fail_fast_suspend : fail_fast suspend.
Proof.
  intros w s r s'. unfold suspend. destruct (receiving s).
  - apply fail_fast_dispatch.
  - intros [= <- <-]. exists []. split; [by rewrite app_nil_r|].
    intros pre x post e Heq. by destruct pre.
Qed.

Create HintDb fail_fast.

#[local] Hint Resolve fail_fast_perform fail_fast_eval fail_fast_check_cancelled
  fail_fast_set_receiving fail_fast_suspend : fail_fast.

Lemma fail_fast_await o : fail_fast (await_ o).
Proof. apply fail_fast_bind; [|intros _]; auto with fail_fast. Qed.

Lemma fail_fast_to_thread_run_sync o : fail_fast (to_thread_run_sync o).
Proof.
  apply fail_fast_bind; [|intros _]; auto using fail_fast_await with fail_fast.
Qed.

Lemma fail_fast_shutdown : fail_fast shutdown.
Proof.
  unfold shutdown, event_wait.
  repeat (apply fail_fast_bind; [|intros ?]);
    auto using fail_fast_to_thread_run_sync, fail_fast_await with fail_fast.
  apply fail_fast_for. intros m. apply fail_fast_to_thread_run_sync.
Qed.

End FailFast.

Section CleanupErrors.

Implicit Types (w : world) (s : machine).

(** ** C6 *)

(** C6, as stated, does not hold: when [self.gpio.cleanup()] raises in a
    [shutdown] of the started scenario, called where no cancellation
    reaches it, [shutdown] raises that error and the cleanup of the
    remaining modules is not run. *)
Lemma cleanup_failure_skips_remaining_modules :
  (shutdown gpio_cleanup_fails scenario_running).1
  = Raise (External "GPIO.cleanup") ∧
  ¬ (∀ m, In m [GPIO; SensorIO; StreamIO] →
       (1 ≤ cleanup_count m
              (trace (shutdown gpio_cleanup_fails scenario_running).2))%nat).
Proof.
  split; [vm_compute; reflexivity|].
  intros H. specialize (H SensorIO (or_intror (or_introl eq_refl))).
  vm_compute in H. lia.
Qed.

(** C6 (amended). An error raised by the [cleanup()] of a module is not
    caught by [shutdown]: [shutdown] raises that error and makes no further
    call, so the modules registered after the failing one are not cleaned
    up. *)
Theorem cleanup_error_propagates :
  ∀ w s r s' pre m post e,
    shutdown w s = (r, s') →
    trace s' = trace s ++ pre ++ OpCleanup m :: post →
    raises w (trace s ++ pre) (OpCleanup m) = Some e →
    r = Raise e ∧ post = [].
Proof.
  intros w s r s' pre m post e H Ht Hr.
  destruct (fail_fast_shutdown _ _ _ _ H) as (ops & Ht' & Hff).
  rewrite Ht' in Ht. apply app_inv_head in Ht. by apply (Hff pre (OpCleanup m) post e).
Qed.

End CleanupErrors.

(** The scenario with a failing [self.gpio.cleanup()]. *)
Lemma cleanup_error_propagates_scenario :
  shutdown gpio_cleanup_fails scenario_running =
    (Raise (External "GPIO.cleanup"),
     scenario_after
       [OpPublish (lit "home/status") (lit "stop") 1 true; OpWaitForPublish;
        OpDisconnect; OpDisconnectEventWait; OpCancelScope MainNursery;
        OpCleanup GPIO] true) ∧
  Raise (External "GPIO.cleanup") = Raise (A := unit) (External "GPIO.cleanup") ∧
  @nil op = [].
Proof.
  assert (Hrun : shutdown gpio_cleanup_fails scenario_running =
    (Raise (External "GPIO.cleanup"),
     scenario_after
       [OpPublish (lit "home/status") (lit "stop") 1 true; OpWaitForPublish;
        OpDisconnect; OpDisconnectEventWait; OpCancelScope MainNursery;
        OpCleanup GPIO] true)) by (vm_compute; reflexivity).
  split; [exact Hrun|].
  apply (cleanup_error_propagates gpio_cleanup_fails scenario_running _ _
    [OpPublish (lit "home/status") (lit "stop") 1 true; OpWaitForPublish;
     OpDisconnect; OpDisconnectEventWait; OpCancelScope MainNursery]
    GPIO [] _ Hrun).
  - vm_compute; reflexivity.
  - reflexivity.
Defined.

(* ===================================================================== *)
(** ** Who calls [cleanup()] *)
(* ===================================================================== *)

Section Cleanup.

Implicit Types (w : world) (s : machine) (m : io_module).

Lemma cleanup_count_app m tr1 tr2 :
  cleanup_count m (tr1 ++ tr2) = (cleanup_count m tr1 + cleanup_count m tr2)%nat.
Proof. unfold cleanup_count. by rewrite List.filter_app, length_app. Qed.

Lemma cleanup_count_own_effects m tr :
  cleanup_count m (own_effects tr) = cleanup_count m tr.
Proof.
  unfold cleanup_count, own_effects.
  induction tr as [|o tr IH]; [done|]. simpl.
  destruct (is_dispatch o) eqn:Hd; simpl.
  - destruct o; try discriminate. simpl. exact IH.
  - destruct (is_cleanup_of m o); simpl; by rewrite IH.
Qed.

Lemma cleanup_count_prefix m tr1 tr2 :
  tr1 `prefix_of` tr2 → cleanup_count m tr2 = 0%nat → cleanup_count m tr1 = 0%nat.
Proof. intros [k ->]. rewrite cleanup_count_app. lia. Qed.

Lemma calls_app sc1 sc2 : calls (sc1 ++ sc2) = calls sc1 ++ calls sc2.
Proof.
  induction sc1 as [|st sc1 IH]; [done|].
  destruct st; simpl; by rewrite ?IH.
Qed.

Lemma calls_map_Call {A} (f : A → op) (l : list A) :
  calls (map (fun x => Call (f x)) l) = map f l.
Proof. induction l as [|x l IH]; [done|]. simpl. by rewrite IH. Qed.

(** No step of [run_mqtt] or [startup] is a call of [cleanup()]. *)
Lemma run_mqtt_never_cleans w (obj : MQTTIO) m :
  cleanup_count m (calls (run_mqtt_steps w obj)) = 0%nat.
Proof.
  assert (Htail : cleanup_count m (calls
    match getitem (config obj) "mqtt" with
    | Raise e => [Stop e]
    | Return mqtt_config =>
        match contains mqtt_config "ha_discovery" with
        | Raise e => [Stop e]
        | Return true =>
            map (fun msg => Call (publish_message msg))
                (discovery_messages w mqtt_config (mqtt_client_options obj))
        | Return false => []
        end
    end) = 0%nat).
  { destruct (getitem _ _) as [mqtt_config|e]; [|done].
    destruct (contains _ _) as [[|]|e]; [|done..].
    rewrite calls_map_Call. by induction (discovery_messages _ _ _). }
  unfold run_mqtt_steps.
  destruct (tls_options _); destruct (username _); destruct (will _);
    cbn [app calls cleanup_count List.filter is_cleanup_of length];
    exact Htail.
Qed.

Lemma startup_never_cleans w (obj : MQTTIO) m :
  cleanup_count m (calls (startup_steps w obj)) = 0%nat.
Proof.
  unfold startup_steps. rewrite !calls_cons, calls_app, !cleanup_count_app.
  rewrite run_mqtt_never_cleans. simpl.
  destruct (getitem _ _) as [mqtt_config|e]; [|done].
  destruct (status_topic_of _) as [topic|e]; [|done].
  by destruct (status_payload_of _ _) as [payload|e].
Qed.

Lemma startup_leaves_cleanup_count w s r s1 m :
  startup w s = (r, s1) → cleanup_count m (trace s1) = cleanup_count m (trace s).
Proof.
  intros H. rewrite startup_plays in H.
  apply play_prefix in H as (ops & -> & Hp & _).
  rewrite cleanup_count_app, <- (cleanup_count_own_effects m ops).
  rewrite (cleanup_count_prefix m _ _ Hp); [lia|].
  rewrite cleanup_count_own_effects. apply startup_never_cleans.
Qed.

(** ** C3 *)

(** C3, as stated, does not hold: when [self.gpio.init()] raises,
    [run_async] ends without a single call of [cleanup()]. *)
Lemma init_failure_leaves_modules_uncleaned :
  ¬ (∀ m, In m [GPIO; SensorIO; StreamIO] →
       cleanup_count m (run gpio_init_fails scenario_config [SIGINT]).2 = 1%nat).
Proof.
  intros H. specialize (H GPIO (or_introl eq_refl)).
  vm_compute in H. discriminate.
Qed.

(** C3 (amended). [cleanup()] is called by [shutdown] only.  Start-up
    never calls it, whether it returns or fails; when start-up fails,
    [run_async] ends where start-up ended, so no module is cleaned up.  A
    shutdown in which every call returns and no cancellation is delivered
    calls [cleanup()] exactly once on each of GPIO, SensorIO, StreamIO. *)
Theorem cleanup_called_by_shutdown_only :
  ∀ w s,
    (∀ r s1 m, startup w s = (r, s1) →
       cleanup_count m (trace s1) = cleanup_count m (trace s)) ∧
    (∀ signals e s1 r s' m,
       startup w (enter s) = (Raise e, s1) →
       run_async signals w s = (r, s') →
       cleanup_count m (trace s') = cleanup_count m (trace s)) ∧
    (∀ topic payload client n,
       configured_status (self s) "status_payload_stopped" topic payload →
       _mqtt (self s) = Some client →
       _main_nursery (self s) = Some n →
       io_modules (self s) = [GPIO; SensorIO; StreamIO] →
       returns_normally w → never_cancelled w →
       ∃ s', shutdown w s = (Return tt, s') ∧
         ∀ m, cleanup_count m (trace s') = S (cleanup_count m (trace s))).
Proof.
  intros w s. split; [|split].
  - intros r s1 m H. by eapply startup_leaves_cleanup_count.
  - intros signals e s1 r s' m Hstart Hrun.
    assert (s' = s1) as ->.
    { unfold run_async in Hrun. rewrite run_bind in Hrun.
      unfold update at 1 in Hrun. lazy beta iota in Hrun.
      fold (enter s) in Hrun. unfold open_nursery in Hrun.
      rewrite run_bind, Hstart in Hrun.
      destruct e; try (by injection Hrun as _ <-).
      destruct (existsb _ _); by injection Hrun as _ <-. }
    by apply (startup_leaves_cleanup_count _ _ _ _ m) in Hstart.
  - intros topic payload client n Hcfg Hm Hn Hmods Hw Hc.
    destruct (shutdown_completes w s _ _ _ _ Hcfg Hm Hn Hw Hc)
      as (s' & ops & Hrun & _ & Ht & Hops).
    exists s'. split; [done|]. intros m.
    rewrite Ht, cleanup_count_app, <- (cleanup_count_own_effects m ops), Hops, Hmods.
    assert (cleanup_count m
      (shutdown_sequence topic payload n [GPIO; SensorIO; StreamIO]) = 1%nat) as ->
      by (by destruct m).
    lia.
Qed.

End Cleanup.

(** The scenario: one signal after a start-up that returned; and a
    start-up in which [self.gpio.init()] raises. *)
Lemma cleanup_called_by_shutdown_only_scenario :
  (∃ s', shutdown calm scenario_running = (Return tt, s') ∧
     ∀ m, cleanup_count m (trace s') = S (cleanup_count m (trace scenario_running))) ∧
  (∀ m, cleanup_count m (run gpio_init_fails scenario_config [SIGINT]).2 = 0%nat).
Proof.
  split.
  - apply (proj2 (proj2 (cleanup_called_by_shutdown_only calm scenario_running))
             (lit "home/status") (lit "stop") (new_client scenario_options) MainNursery).
    + exists scenario_mqtt, (lit "home"), (lit "status"), (lit "stop").
      repeat split; vm_compute; reflexivity.
    + reflexivity.
    + reflexivity.
    + reflexivity.
    + intros tr o; reflexivity.
    + intros tr; reflexivity.
  - intros m.
    assert (Hinit : startup gpio_init_fails (enter (boot scenario_server)) =
      (Raise (External "GPIO.init"),
       {| self := set_mqtt (new_client scenario_options)
                    (set_mqtt_nursery MQTTNursery
                       (set_main_nursery MainNursery
                          (set_trio_token CurrentTrioToken scenario_server)));
          trace := [OpOpenSignalReceiver [SIGINT; SIGQUIT];
                    OpStart MainNursery EventBusRun;
                    OpNewClient MQTTNursery
                      (PStr (lit "mqtt-io-" ++ SHA1.hexdigest (lit "home")))
                      (PBool false);
                    OpEnableLogger;
                    OpConnect (PStr (lit "localhost")) (PInt 1883) (PInt 10);
                    OpWillSet (lit "home/status") (lit "dead") 1 true;
                    OpStartSoon MQTTNursery HandleMessages;
                    OpInit GPIO];
          receiving := true |})) by (vm_compute; reflexivity).
    assert (Hrun : ∃ r s', run_async [SIGINT] gpio_init_fails (boot scenario_server) = (r, s') ∧
                           (run gpio_init_fails scenario_config [SIGINT]).2 = trace s').
    { eexists _, _. split; [apply surjective_pairing|]. vm_compute. reflexivity. }
    destruct Hrun as (r & s' & Hrun & ->).
    exact (proj1 (proj2 (cleanup_called_by_shutdown_only gpio_init_fails (boot scenario_server)))
             [SIGINT] _ _ r s' m Hinit Hrun).
Defined.

(* ===================================================================== *)
(** ** Repeated shutdown *)
(* ===================================================================== *)

Section Idempotence.

Implicit Types (w : world) (s : machine).

Lemma shutdown_publishes_first w s topic payload client r s' :
  configured_status (self s) "status_payload_stopped" topic payload →
  _mqtt (self s) = Some client →
  shutdown w s = (r, s') →
  ∃ rest, trace s' = trace s ++ OpPublish topic payload 1 true :: rest.
Proof.
  intros Hcfg Hm H.
  apply configured_status_reads in Hcfg as (mqtt_config & Hc & Ht & Hp).
  rewrite shutdown_plays in H. unfold shutdown_steps, mqtt in H.
  rewrite Hc, Hm, Ht, Hp in H. rewrite play_cons in H.
  simpl play_step in H. unfold perform at 1 in H.
  destruct (raises w (trace s) _) as [e|].
  - injection H as <- <-. by exists [].
  - apply play_prefix in H as (ops & -> & _). exists ops.
    simpl. by rewrite <- app_assoc.
Qed.

(** ** C2 *)

(** C2, as stated, does not hold: a second invocation of [shutdown]
    publishes the stopped status again.  With trio's delivery of
    cancellation the first [shutdown] ends at its first cleanup, and a
    second invocation still publishes. *)
Lemma second_shutdown_publishes_again :
  ¬ (∀ s1 s2, (shutdown calm_trio scenario_running).2 = s1 →
              (shutdown calm_trio s1).2 = s2 →
              trace s2 = trace s1).
Proof.
  intros H. specialize (H _ _ eq_refl eq_refl). vm_compute in H.
  discriminate.
Qed.

(** C2 (amended). [shutdown] keeps no record of having run: it assigns no
    attribute, and every invocation that finds the client initialised
    starts by publishing the stopped status, whatever was done before.  So
    a second invocation, however the first one ended, publishes the
    stopped status a second time. *)
Theorem shutdown_runs_on_every_invocation :
  ∀ w s topic payload client,
    configured_status (self s) "status_payload_stopped" topic payload →
    _mqtt (self s) = Some client →
    (∀ r s', shutdown w s = (r, s') →
       ∃ rest, trace s' = trace s ++ OpPublish topic payload 1 true :: rest) ∧
    (∀ r1 s1 r2 s2,
       shutdown w s = (r1, s1) →
       shutdown w s1 = (r2, s2) →
       self s2 = self s ∧
       ∃ rest1 rest2,
         trace s2 = trace s ++ OpPublish topic payload 1 true :: rest1
                            ++ OpPublish topic payload 1 true :: rest2).
Proof.
  intros w s topic payload client Hcfg Hm. split.
  - intros r s' H. by eapply shutdown_publishes_first.
  - intros r1 s1 r2 s2 H1 H2.
    pose proof (shutdown_leaves_self _ _ _ _ H1) as Hs1.
    pose proof (shutdown_leaves_self _ _ _ _ H2) as Hs2.
    split; [congruence|].
    apply (shutdown_publishes_first _ _ topic payload client) in H1
      as (rest1 & Ht1); [|done..].
    apply (shutdown_publishes_first _ _ topic payload client) in H2
      as (rest2 & Ht2); [|by rewrite Hs1..].
    exists rest1, rest2. rewrite Ht2, Ht1. by rewrite <- app_assoc.
Qed.

End Idempotence.

(** The scenario with trio's delivery of cancellation: the first
    [shutdown] ends at the entry of its first cleanup, the second at the
    entry of its wait for the publish. *)
Lemma shutdown_runs_on_every_invocation_scenario :
  self scenario_running = self scenario_running ∧
  ∃ rest1 rest2,
    scenario_startup_calls ++
    [OpPublish (lit "home/status") (lit "stop") 1 true; OpWaitForPublish;
     OpDisconnect; OpDisconnectEventWait; OpCancelScope MainNursery;
     OpPublish (lit "home/status") (lit "stop") 1 true]
    = trace scenario_running
        ++ OpPublish (lit "home/status") (lit "stop") 1 true :: rest1
        ++ OpPublish (lit "home/status") (lit "stop") 1 true :: rest2.
Proof.
  apply (proj2 (shutdown_runs_on_every_invocation calm_trio scenario_running
           (lit "home/status") (lit "stop") (new_client scenario_options)
           ltac:(exists scenario_mqtt, (lit "home"), (lit "status"), (lit "stop");
                 repeat split; vm_compute; reflexivity)
           eq_refl)
         (Raise Cancelled)
         (scenario_after
            [OpPublish (lit "home/status") (lit "stop") 1 true; OpWaitForPublish;
             OpDisconnect; OpDisconnectEventWait; OpCancelScope MainNursery]
            true)
         (Raise Cancelled)
         (scenario_after
            [OpPublish (lit "home/status") (lit "stop") 1 true; OpWaitForPublish;
             OpDisconnect; OpDisconnectEventWait; OpCancelScope MainNursery;
             OpPublish (lit "home/status") (lit "stop") 1 true]
            true)).
  - vm_compute; reflexivity.
  - vm_compute; reflexivity.
Defined.

(* ===================================================================== *)
(** ** Start-up *)
(* ===================================================================== *)

Section Startup.

Implicit Types (w : world) (s : machine).

(** Without suspension point, the trace grows by the calls exactly. *)
Lemma play_unsuspended sc w s s' :
  Forall unsuspended sc →
  play sc w s = (Return tt, s') →
  trace s' = trace s ++ calls sc.
Proof.
  intros Hsc. revert s. induction Hsc as [|st sc Hst _ IH]; intros s.
  - simpl. intros [= <-]. by rewrite app_nil_r.
  - rewrite play_cons, calls_cons.
    destruct (play_step st w s) as [[[]|e] s1] eqn:E; [|discriminate].
    intros H. apply IH in H. rewrite H, app_assoc. f_equal.
    destruct st as [o| | |b|f|e]; simpl in *; try done.
    + unfold perform in E. by injection E as _ <-.
    + unfold check_cancelled in E.
      destruct (cancel_delivered w (trace s)); [discriminate|].
      injection E as <-. by rewrite app_nil_r.
    + unfold set_receiving in E. injection E as <-. by rewrite app_nil_r.
    + unfold update in E. injection E as <-. by rewrite app_nil_r.
Qed.

Lemma play_app_Return sc1 sc2 w s s' :
  play (sc1 ++ sc2) w s = (Return tt, s') →
  ∃ s1, play sc1 w s = (Return tt, s1) ∧ play sc2 w s1 = (Return tt, s').
Proof.
  rewrite play_app. destruct (play sc1 w s) as [[[]|e] s1]; [eauto | discriminate].
Qed.

Lemma unsuspended_run_mqtt w (obj : MQTTIO) :
  Forall unsuspended (run_mqtt_steps w obj).
Proof.
  assert (Htail : Forall unsuspended
    match getitem (config obj) "mqtt" with
    | Raise e => [Stop e]
    | Return mqtt_config =>
        match contains mqtt_config "ha_discovery" with
        | Raise e => [Stop e]
        | Return true =>
            map (fun msg => Call (publish_message msg))
                (discovery_messages w mqtt_config (mqtt_client_options obj))
        | Return false => []
        end
    end).
  { destruct (getitem _ _) as [mqtt_config|e]; [|by repeat constructor].
    destruct (contains _ _) as [[|]|e]; try by repeat constructor.
    induction (discovery_messages _ _ _); by constructor. }
  unfold run_mqtt_steps.
  destruct (tls_options _); destruct (username _); destruct (will _);
    cbn [app]; repeat (constructor; [done|]); exact Htail.
Qed.

(** The calls of [run_mqtt] around [connect]. *)
Lemma connection_calls_around_connect w (obj : MQTTIO) wl :
  will (mqtt_client_options obj) = Some wl →
  ∃ pre post,
    connection_calls w obj =
      pre ++ [OpConnect (hostname (mqtt_client_options obj))
                        (port (mqtt_client_options obj))
                        (keepalive (mqtt_client_options obj));
              OpWillSet (will_topic wl) (will_payload wl)
                        (will_qos wl) (will_retain wl);
              OpStartSoon MQTTNursery HandleMessages] ++ post.
Proof.
  intros Hwill. unfold connection_calls, run_mqtt_steps. rewrite Hwill.
  destruct (tls_options _); destruct (username _); cbn [app calls];
    first [ by eexists [_; _], _
          | by eexists [_; _; _], _
          | by eexists [_; _; _; _], _ ].
Qed.

(** ** C4 *)

(** C4, as stated, does not hold: in the scenario the Will is set after
    [connect] has been called, not before. *)
Lemma will_set_after_connect :
  (run calm scenario_config []).1 = Return tt ∧
  ¬ (all_before is_will_set is_connect (run calm scenario_config []).2 = true).
Proof.
  split; [vm_compute; reflexivity|]. vm_compute. discriminate.
Qed.

(** C4 (amended). When [run_mqtt] returns, it has called [connect(host,
    port, keepalive)] and, as its very next call, with no suspension point
    in between, [will_set] with the Will of the derived options; the
    receive loop is spawned only after both. *)
Theorem will_set_right_after_connect :
  ∀ w s s' wl,
    run_mqtt w s = (Return tt, s') →
    will (mqtt_client_options (self s)) = Some wl →
    ∃ pre post,
      trace s' = trace s ++ pre ++
        [OpConnect (hostname (mqtt_client_options (self s)))
                   (port (mqtt_client_options (self s)))
                   (keepalive (mqtt_client_options (self s)));
         OpWillSet (will_topic wl) (will_payload wl) (will_qos wl) (will_retain wl);
         OpStartSoon MQTTNursery HandleMessages] ++ post.
Proof.
  intros w s s' wl H Hwill. rewrite run_mqtt_plays in H.
  apply play_unsuspended in H; [|apply unsuspended_run_mqtt].
  destruct (connection_calls_around_connect w (self s) wl Hwill)
    as (pre & post & Hcalls).
  exists pre, post. rewrite H. f_equal. exact Hcalls.
Qed.

End Startup.

(** The scenario: [run_mqtt] as [startup] runs it. *)
Lemma will_set_right_after_connect_scenario :
  ∃ pre post,
    [OpOpenSignalReceiver [SIGINT; SIGQUIT];
     OpStart MainNursery EventBusRun;
     OpNewClient MQTTNursery
       (PStr (lit "mqtt-io-" ++ SHA1.hexdigest (lit "home"))) (PBool false);
     OpEnableLogger;
     OpConnect (PStr (lit "localhost")) (PInt 1883) (PInt 10);
     OpWillSet (lit "home/status") (lit "dead") 1 true;
     OpStartSoon MQTTNursery HandleMessages]
    = [OpOpenSignalReceiver [SIGINT; SIGQUIT];
       OpStart MainNursery EventBusRun] ++ pre ++
      [OpConnect (PStr (lit "localhost")) (PInt 1883) (PInt 10);
       OpWillSet (lit "home/status") (lit "dead") 1 true;
       OpStartSoon MQTTNursery HandleMessages] ++ post.
Proof.
  assert (Hrun : run_mqtt calm
      {| self := set_main_nursery MainNursery scenario_server;
         trace := [OpOpenSignalReceiver [SIGINT; SIGQUIT];
                   OpStart MainNursery EventBusRun];
         receiving := false |} =
      (Return tt,
       {| self := self scenario_running;
          trace := [OpOpenSignalReceiver [SIGINT; SIGQUIT];
                    OpStart MainNursery EventBusRun;
                    OpNewClient MQTTNursery
                      (PStr (lit "mqtt-io-" ++ SHA1.hexdigest (lit "home")))
                      (PBool false);
                    OpEnableLogger;
                    OpConnect (PStr (lit "localhost")) (PInt 1883) (PInt 10);
                    OpWillSet (lit "home/status") (lit "dead") 1 true;
                    OpStartSoon MQTTNursery HandleMessages];
          receiving := true |})) by (vm_compute; reflexivity).
  exact (will_set_right_after_connect calm _ _ _ Hrun eq_refl).
Defined.

Section RunningStatus.

Implicit Types (w : world) (s : machine).

Lemma startup_steps_configured w (obj : MQTTIO) topic payload :
  configured_status obj "status_payload_running" topic payload →
  startup_steps w obj =
    (Assign (set_main_nursery MainNursery) ::
     Call (OpOpenSignalReceiver [SIGINT; SIGQUIT]) :: Yield ::
     Call (OpStart MainNursery EventBusRun) :: Yield ::
     run_mqtt_steps w (set_main_nursery MainNursery obj) ++
     [Yield; Call (OpInit GPIO); Yield; Call (OpInit SensorIO); Yield;
      Call (OpInit StreamIO); Yield]) ++
    [Call (OpPublish topic payload 1 true);
     Call (OpSetConnectMessage topic payload 1 true)].
Proof.
  intros Hcfg.
  apply configured_status_reads in Hcfg as (mqtt_config & Hc & Ht & Hp).
  unfold startup_steps. rewrite Hc, Ht, Hp. cbn [app].
  by rewrite <- app_assoc.
Qed.

Lemma connection_calls_tail w (obj : MQTTIO) :
  calls
    match getitem (config obj) "mqtt" with
    | Raise e => [Stop e]
    | Return mqtt_config =>
        match contains mqtt_config "ha_discovery" with
        | Raise e => [Stop e]
        | Return true =>
            map (fun msg => Call (publish_message msg))
                (discovery_messages w mqtt_config (mqtt_client_options obj))
        | Return false => []
        end
    end
  = map publish_message (announced w obj).
Proof.
  unfold announced.
  destruct (getitem _ _) as [mqtt_config|e]; [|done].
  destruct (contains _ _) as [[|]|e]; [|done..].
  apply calls_map_Call.
Qed.

Lemma own_effects_announced (l : list MQTTMessageSend) :
  own_effects (map publish_message l) = map publish_message l.
Proof. induction l as [|msg l IH]; [done|]. simpl. by rewrite IH. Qed.

Lemma filter_publish_announced (l : list MQTTMessageSend) :
  List.filter is_publish (map publish_message l) = map publish_message l.
Proof. induction l as [|msg l IH]; [done|]. simpl. by rewrite IH. Qed.

(** The calls of [run_mqtt] are its own, and its publishes are the
    discovery announcements. *)
Lemma connection_calls_own w (obj : MQTTIO) :
  own_effects (connection_calls w obj) = connection_calls w obj ∧
  List.filter is_publish (connection_calls w obj)
  = map publish_message (announced w obj).
Proof.
  unfold connection_calls, run_mqtt_steps.
  destruct (tls_options _); destruct (username _); destruct (will _);
    cbn [app calls own_effects List.filter is_dispatch is_publish negb];
    rewrite connection_calls_tail;
    by rewrite own_effects_announced, filter_publish_announced.
Qed.

(** ** C5 *)

(** C5, as stated, does not hold: start-up succeeds and publishes the
    running status once, but a broker message that arrives while
    [self.gpio.init()] is awaited is dispatched to the modules before
    that publish. *)
Lemma message_dispatched_before_running_status :
  (run message_during_init scenario_config []).1 = Return tt ∧
  publish_count (lit "home/status") (lit "run")
    (run message_during_init scenario_config []).2 = 1%nat ∧
  ¬ (all_before (is_publish_of (lit "home/status") (lit "run")) is_dispatch
       (run message_during_init scenario_config []).2 = true).
Proof.
  split; [vm_compute; reflexivity|].
  split; [vm_compute; reflexivity|].
  vm_compute. discriminate.
Qed.

(** C5 (amended). When [startup] returns, its last two calls are the
    publish of the running status, retained, qos 1, to the status topic,
    and [set_connect_message] with the same message.  Before them it has
    made, in this order and apart from the handler spawns of the receive
    loop, the calls of the signal receiver and the event bus, those of
    [run_mqtt], and the three [init()].  It publishes nothing else itself;
    the only publishes of [run_mqtt] are the discovery announcements.  The
    receive loop is spawned by [run_mqtt], so its spawns may precede the
    publish. *)
Theorem running_status_published_after_init :
  ∀ w s s' topic payload,
    startup w s = (Return tt, s') →
    configured_status (self s) "status_payload_running" topic payload →
    ∃ ops,
      trace s' = trace s ++ ops ++
        [OpPublish topic payload 1 true;
         OpSetConnectMessage topic payload 1 true] ∧
      own_effects ops =
        [OpOpenSignalReceiver [SIGINT; SIGQUIT];
         OpStart MainNursery EventBusRun] ++
        connection_calls w (self s) ++
        [OpInit GPIO; OpInit SensorIO; OpInit StreamIO] ∧
      List.filter is_publish (connection_calls w (self s))
      = map publish_message (announced w (self s)).
Proof.
  intros w s s' topic payload H Hcfg.
  rewrite startup_plays, (startup_steps_configured w _ _ _ Hcfg) in H.
  apply play_app_Return in H as (s1 & H1 & H2).
  apply play_unsuspended in H2; [|by repeat constructor].
  apply play_prefix in H1 as (ops & Ht & _ & Hops). specialize (Hops eq_refl).
  exists ops. split; [by rewrite H2, Ht, <- app_assoc|].
  destruct (connection_calls_own w (self s)) as [Hown Hpub].
  split; [|done]. rewrite Hops.
  rewrite !calls_cons, calls_app. cbn [step_calls app calls].
  change (calls (run_mqtt_steps w (set_main_nursery MainNursery (self s))))
    with (connection_calls w (self s)).
  change (own_effects (?a :: ?b :: ?l)) with (a :: b :: own_effects l).
  by rewrite own_effects_app, Hown.
Qed.

End RunningStatus.

(** The scenario, with a broker message arriving while
    [self.gpio.init()] is awaited. *)
Lemma running_status_published_after_init_scenario :
  ∃ ops,
    [OpOpenSignalReceiver [SIGINT; SIGQUIT];
     OpStart MainNursery EventBusRun;
     OpNewClient MQTTNursery
       (PStr (lit "mqtt-io-" ++ SHA1.hexdigest (lit "home"))) (PBool false);
     OpEnableLogger;
     OpConnect (PStr (lit "localhost")) (PInt 1883) (PInt 10);
     OpWillSet (lit "home/status") (lit "dead") 1 true;
     OpStartSoon MQTTNursery HandleMessages;
     OpInit GPIO;
     OpStartSoon MainNursery
       (HandleMqttMsg GPIO (lit "home/output/lamp/set") (lit "ON"));
     OpStartSoon MainNursery
       (HandleMqttMsg SensorIO (lit "home/output/lamp/set") (lit "ON"));
     OpStartSoon MainNursery
       (HandleMqttMsg StreamIO (lit "home/output/lamp/set") (lit "ON"));
     OpInit SensorIO; OpInit StreamIO;
     OpPublish (lit "home/status") (lit "run") 1 true;
     OpSetConnectMessage (lit "home/status") (lit "run") 1 true]
    = [] ++ ops ++
      [OpPublish (lit "home/status") (lit "run") 1 true;
       OpSetConnectMessage (lit "home/status") (lit "run") 1 true] ∧
    own_effects ops =
      [OpOpenSignalReceiver [SIGINT; SIGQUIT];
       OpStart MainNursery EventBusRun] ++
      connection_calls message_during_init scenario_server ++
      [OpInit GPIO; OpInit SensorIO; OpInit StreamIO] ∧
    List.filter is_publish (connection_calls message_during_init scenario_server)
    = map publish_message (announced message_during_init scenario_server).
Proof.
  assert (Hrun : startup message_during_init (boot scenario_server) =
    (Return tt,
     {| self := self scenario_running;
        trace :=
          [OpOpenSignalReceiver [SIGINT; SIGQUIT];
           OpStart MainNursery EventBusRun;
           OpNewClient MQTTNursery
             (PStr (lit "mqtt-io-" ++ SHA1.hexdigest (lit "home"))) (PBool false);
           OpEnableLogger;
           OpConnect (PStr (lit "localhost")) (PInt 1883) (PInt 10);
           OpWillSet (lit "home/status") (lit "dead") 1 true;
           OpStartSoon MQTTNursery HandleMessages;
           OpInit GPIO;
           OpStartSoon MainNursery
             (HandleMqttMsg GPIO (lit "home/output/lamp/set") (lit "ON"));
           OpStartSoon MainNursery
             (HandleMqttMsg SensorIO (lit "home/output/lamp/set") (lit "ON"));
           OpStartSoon MainNursery
             (HandleMqttMsg StreamIO (lit "home/output/lamp/set") (lit "ON"));
           OpInit SensorIO; OpInit StreamIO;
           OpPublish (lit "home/status") (lit "run") 1 true;
           OpSetConnectMessage (lit "home/status") (lit "run") 1 true];
        receiving := true |})) by (vm_compute; reflexivity).
  apply (running_status_published_after_init message_during_init
           (boot scenario_server) _ (lit "home/status") (lit "run") Hrun).
  exists scenario_mqtt, (lit "home"), (lit "status"), (lit "run").
  repeat split; vm_compute; reflexivity.
Defined.

(* ===================================================================== *)
(** ** Cancellation as trio delivers it *)
(* ===================================================================== *)

Section Cancellation.

Implicit Types (w : world) (s : machine).

Lemma existsb_own_effects (p : op → bool) tr :
  existsb p (own_effects tr) = true → existsb p tr = true.
Proof.
  unfold own_effects. induction tr as [|o tr IH]; [done|]. simpl.
  destruct (is_dispatch o); simpl.
  - intros H. rewrite (IH H). apply orb_true_r.
  - destruct (p o); [done|]. exact IH.
Qed.

(** After the cancel of the main scope, [shutdown] gets no further than
    the entry of its first cleanup. *)
Lemma shutdown_live_under_trio w s topic payload mods r s' m :
  cancels_like_trio w →
  play (Call (OpPublish topic payload 1 true) ::
        Checkpoint :: Call OpWaitForPublish :: Yield ::
        Call OpDisconnect ::
        Checkpoint :: Call OpDisconnectEventWait :: Yield ::
        Call (OpCancelScope MainNursery) ::
        cleanup_steps mods) w s = (r, s') →
  cleanup_count m (trace s') = cleanup_count m (trace s).
Proof.
  intros Htrio H.
  change (?a :: ?b :: ?c :: ?d :: ?e :: ?f :: ?g :: ?h :: ?i :: cleanup_steps ?l)
    with ([a; b; c; d; e; f; g; h; i] ++ cleanup_steps l) in H.
  rewrite play_app in H.
  destruct (play _ w s) as [[[]|e] s1] eqn:E;
    apply play_prefix in E as (ops & Ht & Hp & Hr).
  - specialize (Hr eq_refl). simpl in Hr.
    assert (Hs' : s' = s1).
    { assert (Hc : cancel_delivered w (trace s1) = true).
      { apply Htrio. rewrite Ht, existsb_app.
        rewrite (existsb_own_effects _ ops); [apply orb_true_r|].
        by rewrite Hr. }
      destruct mods as [|m0 mods].
      - simpl in H. by injection H as _ <-.
      - change (cleanup_steps (m0 :: mods))
          with (Checkpoint :: Call (OpCleanup m0) :: Yield :: cleanup_steps mods) in H.
        rewrite play_cons in H. cbn [play_step] in H.
        unfold check_cancelled in H. rewrite Hc in H. by injection H as _ <-. }
    rewrite Hs', Ht, cleanup_count_app, <- (cleanup_count_own_effects m ops), Hr.
    change (cleanup_count m [_; _; _; _; _]) with 0%nat. lia.
  - injection H as _ <-.
    rewrite Ht, cleanup_count_app, <- (cleanup_count_own_effects m ops).
    rewrite (cleanup_count_prefix m _ _ Hp); [lia|]. done.
Qed.

Lemma shutdown_under_trio w s r s' m :
  cancels_like_trio w →
  _main_nursery (self s) = Some MainNursery →
  shutdown w s = (r, s') →
  cleanup_count m (trace s') = cleanup_count m (trace s).
Proof.
  intros Htrio Hn H. rewrite shutdown_plays in H.
  unfold shutdown_steps, nursery in H. rewrite Hn in H.
  destruct (getitem _ _) as [mqtt_config|e]; [|by injection H as _ <-].
  destruct (mqtt (self s)) as [c|e]; [|by injection H as _ <-].
  destruct (status_topic_of _) as [topic|e]; [|by injection H as _ <-].
  destruct (status_payload_of _ _) as [payload|e]; [|by injection H as _ <-].
  by eapply shutdown_live_under_trio.
Qed.

Lemma cleanup_count_redelivered m tr redelivered :
  cleanup_count m (tr ++ map OpSignalRaise redelivered) = cleanup_count m tr.
Proof.
  rewrite cleanup_count_app.
  assert (cleanup_count m (map OpSignalRaise redelivered) = 0%nat) as ->; [|lia].
  unfold cleanup_count. by induction redelivered.
Qed.

Lemma handle_signals_loop_under_trio signals w s r s' m :
  cancels_like_trio w →
  _main_nursery (self s) = Some MainNursery →
  handle_signals_loop signals w s = (r, s') →
  cleanup_count m (trace s') = cleanup_count m (trace s).
Proof.
  intros Htrio. revert s.
  induction signals as [|signum signals IH]; intros s Hn;
    cbn [handle_signals_loop].
  - by intros [= <- <-].
  - rewrite run_bind.
    destruct (leaving _ check_cancelled w s) as [[[]|e] s1] eqn:E1;
      apply leaving_check_cancelled in E1 as (Hs1 & d1 & Ht1 & _ & Hr1).
    2: { intros [= <- <-]. by rewrite Ht1, cleanup_count_redelivered. }
    destruct (Hr1 eq_refl) as [_ ->]. clear Hr1 Ht1 Hs1.
    rewrite run_bind.
    destruct (leaving _ shutdown w s) as [[[]|e] s2] eqn:E2.
    + apply leaving_Return in E2.
      pose proof (shutdown_leaves_self _ _ _ _ E2) as Hs2.
      apply (shutdown_under_trio _ _ _ _ m Htrio Hn) in E2.
      intros H. apply IH in H; [|by rewrite Hs2]. congruence.
    + apply leaving_Raise in E2 as (e1 & s3 & d & E2 & Ht & _ & _).
      apply (shutdown_under_trio _ _ _ _ m Htrio Hn) in E2.
      intros [= <- <-]. by rewrite Ht, cleanup_count_redelivered.
Qed.

(** X16.  [shutdown] runs in a task of the main nursery whose scope it cancels
    itself.  If trio then delivers the cancellation at the next
    checkpoint, which is the entry of [to_thread.run_sync] for the first
    cleanup, no [cleanup()] is called. *)
Lemma shutdown_cancelled_before_cleanup w s topic payload client r s' m :
  cancels_like_trio w →
  configured_status (self s) "status_payload_stopped" topic payload →
  _mqtt (self s) = Some client →
  _main_nursery (self s) = Some MainNursery →
  shutdown w s = (r, s') →
  cleanup_count m (trace s') = cleanup_count m (trace s).
Proof.
  intros Htrio Hcfg Hm Hn H.
  rewrite shutdown_plays, (shutdown_steps_started _ _ _ _ _ Hcfg Hm Hn) in H.
  by eapply shutdown_live_under_trio.
Qed.

(** ** C1 *)

(** C1.  The code does not do what the claim says.  [shutdown] cancels
    the scope of the main nursery before it cleans up, and a shutdown
    triggered by a signal runs in [handle_signals], a task of that
    nursery.  When trio delivers the cancellation at the next checkpoint,
    which is the entry of [to_thread.run_sync] for the first cleanup, no
    signal-triggered shutdown, and so no run of the server, ever calls
    [cleanup()] on a module. *)
Theorem signal_shutdown_never_cleans_up :
  ∀ w s,
    cancels_like_trio w →
    (∀ signals r s' m,
       _main_nursery (self s) = Some MainNursery →
       handle_signals_loop signals w s = (r, s') →
       cleanup_count m (trace s') = cleanup_count m (trace s)) ∧
    (∀ signals r s' m,
       run_async signals w s = (r, s') →
       cleanup_count m (trace s') = cleanup_count m (trace s)).
Proof.
  intros w s Htrio. split.
  - intros signals r s' m Hn H. by eapply handle_signals_loop_under_trio.
  - intros signals r s' m H.
    unfold run_async in H. rewrite run_bind in H.
    unfold update at 1 in H. lazy beta iota in H. fold (enter s) in H.
    assert (Hbody : ∀ r0 s0,
      (startup;; handle_signals_loop signals) w (enter s) = (r0, s0) →
      cleanup_count m (trace s0) = cleanup_count m (trace s)).
    { intros r0 s0 Hb. rewrite run_bind in Hb.
      destruct (startup w (enter s)) as [[[]|e] s1] eqn:E1.
      - pose proof (startup_leaves_cleanup_count _ _ _ _ m E1) as Hc1.
        rewrite startup_plays in E1. apply play_Return_self in E1.
        rewrite assigned_startup in E1.
        apply (handle_signals_loop_under_trio _ _ _ _ _ m Htrio) in Hb;
          [|by rewrite E1].
        by rewrite Hb, Hc1.
      - injection Hb as _ <-.
        by apply (startup_leaves_cleanup_count _ _ _ _ m) in E1. }
    unfold open_nursery in H.
    destruct ((startup;; handle_signals_loop signals) w (enter s))
      as [r0 s0] eqn:E.
    specialize (Hbody _ _ eq_refl).
    destruct r0 as [[]|e]; [by injection H as _ <-|].
    destruct e; try (by injection H as _ <-).
    destruct (existsb _ _); by injection H as _ <-.
Qed.

(** The scenario under that rule: the signal is handled up to the cancel
    of the scope, and the nursery absorbs the cancellation. *)
Example run_trio_one_signal :
  run calm_trio scenario_config [SIGINT] =
  (Return tt,
   scenario_startup_calls ++
   [OpPublish (lit "home/status") (lit "stop") 1 true;
    OpWaitForPublish; OpDisconnect; OpDisconnectEventWait;
    OpCancelScope MainNursery]).
Proof. vm_compute. reflexivity. Qed.

(** With the handlers a process starts with, a second SIGINT received
    while the first is handled is raised again when [handle_signals]
    leaves its receiver, and ends the run with [KeyboardInterrupt]; a
    SIGQUIT kills the process. *)
Example run_trio_second_sigint :
  run trio_defaults scenario_config [SIGINT; SIGINT] =
  (Raise KeyboardInterrupt,
   scenario_startup_calls ++
   [OpPublish (lit "home/status") (lit "stop") 1 true;
    OpWaitForPublish; OpDisconnect; OpDisconnectEventWait;
    OpCancelScope MainNursery; OpSignalRaise SIGINT]).
Proof. vm_compute. reflexivity. Qed.

Example run_trio_sigquit :
  run trio_defaults scenario_config [SIGINT; SIGQUIT] =
  (Raise Killed,
   scenario_startup_calls ++
   [OpPublish (lit "home/status") (lit "stop") 1 true;
    OpWaitForPublish; OpDisconnect; OpDisconnectEventWait;
    OpCancelScope MainNursery; OpSignalRaise SIGQUIT]).
Proof. vm_compute. reflexivity. Qed.

End Cancellation.

(* ===================================================================== *)
(** ** More on the connection options *)
(* ===================================================================== *)

Section MoreOptions.

(** Everything a successful [_init_mqtt_config] has read, and where it
    has put it. *)
Lemma init_mqtt_config_reads self_config opts :
  _init_mqtt_config self_config = Return opts →
  ∃ config topic_prefix cid tls tls_enabled status_topic dead,
    getitem self_config "mqtt" = Return config ∧
    getitem config "topic_prefix" = Return topic_prefix ∧
    getitem config "client_id" = Return cid ∧
    (if truthy cid then client_id opts = cid
     else ∃ encoded, encode_utf8 topic_prefix = Return encoded ∧
            client_id opts = PStr (lit "mqtt-io-" ++ SHA1.hexdigest encoded)) ∧
    get config "tls" (PDict ∅) = Return tls ∧
    get tls "enabled" PNone = Return tls_enabled ∧
    (if truthy tls_enabled
     then ∃ tls' ca cert key ciph,
            getitem config "tls" = Return tls' ∧
            get tls' "ca_certs" PNone = Return ca ∧
            get tls' "certfile" PNone = Return cert ∧
            get tls' "keyfile" PNone = Return key ∧
            get tls' "ciphers" PNone = Return ciph ∧
            tls_options opts = Some {| ca_certs := ca; certfile := cert;
                                       keyfile := key; ciphers := ciph |}
     else tls_options opts = None) ∧
    getitem config "host" = Return (hostname opts) ∧
    getitem config "port" = Return (port opts) ∧
    getitem config "user" = Return (username opts) ∧
    getitem config "password" = Return (password opts) ∧
    getitem config "keepalive" = Return (keepalive opts) ∧
    getitem config "clean_session" = Return (clean_session opts) ∧
    getitem config "status_topic" = Return status_topic ∧
    getitem config "status_payload_dead" = Return dead.
Proof.
  unfold _init_mqtt_config. intros H.
  apply result_bind_Return in H as (config & Hc & H).
  apply result_bind_Return in H as (topic_prefix & Hp & H).
  apply result_bind_Return in H as (cid & Hcid & H).
  apply result_bind_Return in H as (cid' & Hcid' & H).
  apply result_bind_Return in H as (tls & Htls & H).
  apply result_bind_Return in H as (tls_enabled & Hen & H).
  apply result_bind_Return in H as (tlso & Htlso & H).
  apply result_bind_Return in H as (host & Hh & H).
  apply result_bind_Return in H as (prt & Hpt & H).
  apply result_bind_Return in H as (user & Hu & H).
  apply result_bind_Return in H as (pw & Hpw & H).
  apply result_bind_Return in H as (ka & Hka & H).
  apply result_bind_Return in H as (cs & Hcs & H).
  apply result_bind_Return in H as (status_topic & Hst & H).
  apply result_bind_Return in H as (topic & Ht & H).
  apply result_bind_Return in H as (dead & Hd & H).
  apply result_bind_Return in H as (payload & Hpl & H).
  injection H as <-. simpl.
  exists config, topic_prefix, cid, tls, tls_enabled, status_topic, dead.
  repeat split; try assumption.
  - destruct (truthy cid); simpl in Hcid'.
    + by injection Hcid' as ->.
    + apply result_bind_Return in Hcid' as (encoded & He & Hcid').
      injection Hcid' as <-. eauto.
  - destruct (truthy tls_enabled); simpl in Htlso.
    + apply result_bind_Return in Htlso as (tls' & H1 & Htlso).
      apply result_bind_Return in Htlso as (ca & H2 & Htlso).
      apply result_bind_Return in Htlso as (cert & H3 & Htlso).
      apply result_bind_Return in Htlso as (key & H4 & Htlso).
      apply result_bind_Return in Htlso as (ciph & H5 & Htlso).
      injection Htlso as <-. exists tls', ca, cert, key, ciph. by repeat split.
    + by injection Htlso as <-.
Qed.

Lemma getitem_Return d key v :
  getitem d key = Return v → ∃ m, d = PDict m ∧ m !! key = Some v.
Proof.
  destruct d; simpl; try discriminate.
  destruct (d !! key) eqn:E; [|discriminate]. intros [= <-]. eauto.
Qed.

Lemma get_Return d key dflt v :
  get d key dflt = Return v → ∃ m, d = PDict m ∧ v = default dflt (m !! key).
Proof. destruct d; simpl; try discriminate. intros [= <-]. eauto. Qed.

(** X1.  An explicit client id is kept as it is. *)
Theorem explicit_client_id_is_kept :
  ∀ self_config config cid opts,
    getitem self_config "mqtt" = Return config →
    getitem config "client_id" = Return cid →
    truthy cid = true →
    _init_mqtt_config self_config = Return opts →
    client_id opts = cid.
Proof.
  intros self_config config cid opts Hc Hcid Ht Hinit.
  apply init_mqtt_config_reads in Hinit
    as (config0 & tp & cid0 & tls & en & st & dead & Hc0 & _ & Hcid0 & Hid & _).
  rewrite Hc in Hc0. injection Hc0 as <-.
  rewrite Hcid in Hcid0. injection Hcid0 as <-.
  by rewrite Ht in Hid.
Qed.

(** X2.  TLS options are built exactly when the ["tls"] entry has a true
    ["enabled"]; their four fields are the entries of that dictionary,
    [None] where one is missing. *)
Theorem tls_options_follow_enabled :
  ∀ self_config opts,
    _init_mqtt_config self_config = Return opts →
    ∃ (config d : gmap string pyval),
      getitem self_config "mqtt" = Return (PDict config) ∧
      default (PDict ∅) (config !! "tls") = PDict d ∧
      tls_options opts =
        if truthy (default PNone (d !! "enabled"))
        then Some {| ca_certs := default PNone (d !! "ca_certs");
                     certfile := default PNone (d !! "certfile");
                     keyfile := default PNone (d !! "keyfile");
                     ciphers := default PNone (d !! "ciphers") |}
        else None.
Proof.
  intros self_config opts Hinit.
  apply init_mqtt_config_reads in Hinit
    as (config & tp & cid & tls & en & st & dead
        & Hc & Hp & _ & _ & Htls & Hen & Hopt & _).
  apply getitem_Return in Hp as (m & -> & Hp).
  apply get_Return in Htls as (m' & [= <-] & ->).
  apply get_Return in Hen as (d & Hd & ->).
  exists m, d. split; [done|]. split; [done|].
  destruct (truthy (default PNone (d !! "enabled"))) eqn:Ht; [|done].
  destruct Hopt as (tls' & ca & cert & key & ciph & H1 & H2 & H3 & H4 & H5 & ->).
  apply getitem_Return in H1 as (m0 & [= <-] & H1).
  rewrite H1 in Hd. simpl in Hd. subst tls'.
  apply get_Return in H2 as (d2 & [= <-] & ->).
  apply get_Return in H3 as (d3 & [= <-] & ->).
  apply get_Return in H4 as (d4 & [= <-] & ->).
  apply get_Return in H5 as (d5 & [= <-] & ->).
  done.
Qed.

(** X3.  A broker section that lacks one of the indexed keys never yields
    options. *)
Theorem missing_key_yields_no_options :
  ∀ self_config (config : gmap string pyval) key opts,
    getitem self_config "mqtt" = Return (PDict config) →
    In key required_keys →
    config !! key = None →
    _init_mqtt_config self_config ≠ Return opts.
Proof.
  intros self_config config key opts Hc Hin Hnone Hinit.
  apply init_mqtt_config_reads in Hinit
    as (config0 & tp & cid & tls & en & st & dead
        & Hc0 & Hp & Hcid & _ & _ & _ & _
        & Hh & Hpt & Hu & Hpw & Hka & Hcs & Hst & Hd).
  rewrite Hc in Hc0. injection Hc0 as <-.
  simpl in Hp, Hcid, Hh, Hpt, Hu, Hpw, Hka, Hcs, Hst, Hd.
  unfold required_keys in Hin. simpl in Hin.
  repeat (destruct Hin as [<- | Hin]; [by rewrite Hnone in * |]).
  done.
Qed.

End MoreOptions.

(** The scenario with an explicit client id. *)
Lemma explicit_client_id_is_kept_scenario :
  client_id
    {| hostname := PStr (lit "localhost"); port := PInt 1883;
       username := PNone; password := PNone;
       client_id := PStr (lit "kitchen");
       keepalive := PInt 10; clean_session := PBool false;
       tls_options := None;
       will := Some {| will_topic := lit "home/status";
                       will_payload := lit "dead";
                       will_qos := 1; will_retain := true |} |}
  = PStr (lit "kitchen").
Proof.
  apply (explicit_client_id_is_kept
           (PDict {[ "mqtt" := PDict (<["client_id" := PStr (lit "kitchen")]> scenario_mqtt) ]})
           (PDict (<["client_id" := PStr (lit "kitchen")]> scenario_mqtt))
           (PStr (lit "kitchen"))).
  - vm_compute; reflexivity.
  - vm_compute; reflexivity.
  - reflexivity.
  - vm_compute; reflexivity.
Defined.

(** The scenario, and the scenario with TLS enabled and a CA bundle. *)
Lemma tls_options_follow_enabled_scenario :
  (∃ (config d : gmap string pyval),
     getitem scenario_config "mqtt" = Return (PDict config) ∧
     default (PDict ∅) (config !! "tls") = PDict d ∧
     tls_options scenario_options =
       if truthy (default PNone (d !! "enabled"))
       then Some {| ca_certs := default PNone (d !! "ca_certs");
                    certfile := default PNone (d !! "certfile");
                    keyfile := default PNone (d !! "keyfile");
                    ciphers := default PNone (d !! "ciphers") |}
       else None) ∧
  tls_options scenario_options = None.
Proof.
  split; [|reflexivity].
  apply (tls_options_follow_enabled scenario_config scenario_options).
  vm_compute; reflexivity.
Defined.

(** The scenario without its ["host"]. *)
Lemma missing_key_yields_no_options_scenario :
  _init_mqtt_config (PDict {[ "mqtt" := PDict (delete "host" scenario_mqtt) ]})
  ≠ Return scenario_options.
Proof.
  apply (missing_key_yields_no_options _ (delete "host" scenario_mqtt) "host").
  - vm_compute; reflexivity.
  - vm_compute; tauto.
  - vm_compute; reflexivity.
Defined.

Section WellFormed.

(** X4.  A broker section that has the indexed keys, with text that can be
    encoded where text is encoded, and a ["tls"] entry that is a
    dictionary if present, yields options; the connection parameters are
    the entries of the section, unchanged. *)
Theorem well_formed_config_yields_options :
  ∀ self_config (m : gmap string pyval) prefix status dead encoded_prefix encoded_dead,
    getitem self_config "mqtt" = Return (PDict m) →
    m !! "topic_prefix" = Some (PStr prefix) →
    m !! "status_topic" = Some (PStr status) →
    m !! "status_payload_dead" = Some (PStr dead) →
    utf8_encode prefix = Some encoded_prefix →
    utf8_encode dead = Some encoded_dead →
    forallb (has_key m)
      ["client_id"; "host"; "port"; "user"; "password"; "keepalive";
       "clean_session"] = true →
    (m !! "tls" = None ∨ ∃ d, m !! "tls" = Some (PDict d)) →
    ∃ opts,
      _init_mqtt_config self_config = Return opts ∧
      m !! "host" = Some (hostname opts) ∧
      m !! "port" = Some (port opts) ∧
      m !! "user" = Some (username opts) ∧
      m !! "password" = Some (password opts) ∧
      m !! "keepalive" = Some (keepalive opts) ∧
      m !! "clean_session" = Some (clean_session opts) ∧
      will opts = Some {| will_topic := prefix ++ lit "/" ++ status;
                          will_payload := encoded_dead;
                          will_qos := 1; will_retain := true |}.
Proof.
  intros self_config m prefix status dead bp bd Hc Hp Hst Hd Hbp Hbd Hkeys Htls.
  simpl in Hkeys. unfold has_key in Hkeys.
  apply andb_prop in Hkeys as [[cid Hcid]%bool_decide_eq_true Hkeys].
  apply andb_prop in Hkeys as [[host Hh]%bool_decide_eq_true Hkeys].
  apply andb_prop in Hkeys as [[prt Hpt]%bool_decide_eq_true Hkeys].
  apply andb_prop in Hkeys as [[user Hu]%bool_decide_eq_true Hkeys].
  apply andb_prop in Hkeys as [[pw Hpw]%bool_decide_eq_true Hkeys].
  apply andb_prop in Hkeys as [[ka Hka]%bool_decide_eq_true Hkeys].
  apply andb_prop in Hkeys as [[cs Hcs]%bool_decide_eq_true _].
  unfold _init_mqtt_config. rewrite Hc.
  cbn [mbind result_bind getitem]. rewrite Hp.
  cbn [mbind result_bind getitem]. rewrite Hcid.
  cbn [mbind result_bind].
  assert (Hid : ∃ cid',
    (if negb (truthy cid)
     then encoded ← encode_utf8 (PStr prefix);
          mret (PStr (lit "mqtt-io-" ++ SHA1.hexdigest encoded))
     else mret cid) = Return cid').
  { destruct (truthy cid); cbn [negb]; [by eexists|].
    cbn [encode_utf8]. rewrite Hbp. by eexists. }
  destruct Hid as (cid' & ->).
  cbn [mbind result_bind get].
  assert (Htlso : ∃ tlso,
    (if truthy (default PNone (match default (PDict ∅) (m !! "tls") with
                               | PDict d => d !! "enabled"
                               | _ => None
                               end))
     then
       tls ← match m !! "tls" with
             | Some v => Return v
             | None => Raise (KeyError "tls")
             end;
       ca_certs ← get tls "ca_certs" PNone;
       certfile ← get tls "certfile" PNone;
       keyfile ← get tls "keyfile" PNone;
       ciphers ← get tls "ciphers" PNone;
       mret (Some {| ca_certs := ca_certs; certfile := certfile;
                     keyfile := keyfile; ciphers := ciphers |})
     else mret None) = Return tlso ∧
    get (default (PDict ∅) (m !! "tls")) "enabled" PNone
    = Return (default PNone (match default (PDict ∅) (m !! "tls") with
                             | PDict d => d !! "enabled"
                             | _ => None
                             end))).
  { destruct Htls as [Htls | [d Htls]]; rewrite Htls; simpl.
    - rewrite lookup_empty. simpl. eexists; split; reflexivity.
    - destruct (truthy (default PNone (d !! "enabled")));
        eexists; split; reflexivity. }
  destruct Htlso as (tlso & Htlso & ->).
  cbn [mbind result_bind]. rewrite Htlso.
  cbn [mbind result_bind getitem]. rewrite Hh.
  cbn [mbind result_bind getitem]. rewrite Hpt.
  cbn [mbind result_bind getitem]. rewrite Hu.
  cbn [mbind result_bind getitem]. rewrite Hpw.
  cbn [mbind result_bind getitem]. rewrite Hka.
  cbn [mbind result_bind getitem]. rewrite Hcs.
  cbn [mbind result_bind getitem]. rewrite Hst.
  cbn [mbind result_bind getitem join_slash]. rewrite Hd.
  cbn [mbind result_bind encode_utf8]. rewrite Hbd.
  cbn [mbind result_bind mret result_ret].
  eexists. by repeat split.
Qed.

End WellFormed.

(** The scenario. *)
Lemma well_formed_config_yields_options_scenario :
  ∃ opts,
    _init_mqtt_config scenario_config = Return opts ∧
    scenario_mqtt !! "host" = Some (hostname opts) ∧
    scenario_mqtt !! "port" = Some (port opts) ∧
    scenario_mqtt !! "user" = Some (username opts) ∧
    scenario_mqtt !! "password" = Some (password opts) ∧
    scenario_mqtt !! "keepalive" = Some (keepalive opts) ∧
    scenario_mqtt !! "clean_session" = Some (clean_session opts) ∧
    will opts = Some {| will_topic := lit "home" ++ lit "/" ++ lit "status";
                        will_payload := lit "dead";
                        will_qos := 1; will_retain := true |}.
Proof.
  apply (well_formed_config_yields_options scenario_config scenario_mqtt
           (lit "home") (lit "status") (lit "dead") (lit "home") (lit "dead")).
  - vm_compute; reflexivity.
  - vm_compute; reflexivity.
  - vm_compute; reflexivity.
  - vm_compute; reflexivity.
  - vm_compute; reflexivity.
  - vm_compute; reflexivity.
  - vm_compute; reflexivity.
  - left. vm_compute; reflexivity.
Defined.

(* ===================================================================== *)
(** ** The shape of a derived client id *)
(* ===================================================================== *)

Section ClientIdShape.

Lemma length_be_bytes n x : length (SHA1.be_bytes n x) = n.
Proof. induction n as [|n IH]; [done|]. simpl. by rewrite IH. Qed.

Lemma be_bytes_octets n x :
  Forall (fun b => 0 ≤ b < 256) (SHA1.be_bytes n x).
Proof.
  induction n as [|n IH]; [constructor|]. simpl. constructor; [|exact IH].
  change 255 with (Z.ones 8). rewrite Z.land_ones by lia.
  apply Z.mod_pos_bound. lia.
Qed.

Lemma digest_octets m :
  length (SHA1.digest m) = 20%nat ∧ Forall (fun b => 0 ≤ b < 256) (SHA1.digest m).
Proof.
  unfold SHA1.digest.
  destruct (fold_left _ _ _) as [[[[h0 h1] h2] h3] h4].
  split.
  - by rewrite !length_app, !length_be_bytes.
  - repeat (apply Forall_app; split); apply be_bytes_octets.
Qed.

Lemma hex_digit_is_hex n : 0 ≤ n < 16 → is_hex_digit (SHA1.hex_digit n) = true.
Proof.
  intros Hn. unfold is_hex_digit, SHA1.hex_digit.
  rewrite orb_true_iff, !andb_true_iff, !Z.leb_le.
  destruct (n <? 10) eqn:E; [apply Z.ltb_lt in E | apply Z.ltb_ge in E]; lia.
Qed.

Lemma hexdigest_shape m :
  length (SHA1.hexdigest m) = 40%nat ∧
  forallb is_hex_digit (SHA1.hexdigest m) = true.
Proof.
  unfold SHA1.hexdigest. destruct (digest_octets m) as [Hlen Hoct].
  revert Hlen Hoct. generalize (SHA1.digest m) as l.
  assert (H : ∀ l : list Z, Forall (fun b => 0 ≤ b < 256) l →
    length (flat_map (fun b => [SHA1.hex_digit (Z.shiftr b 4);
                                SHA1.hex_digit (Z.land b 15)]) l)
      = (2 * length l)%nat ∧
    forallb is_hex_digit
      (flat_map (fun b => [SHA1.hex_digit (Z.shiftr b 4);
                           SHA1.hex_digit (Z.land b 15)]) l) = true).
  { induction 1 as [|b l Hb _ [IH1 IH2]]; [done|]. simpl.
    split; [rewrite IH1; lia|].
    rewrite IH2, !hex_digit_is_hex; [done| |].
    - change 15 with (Z.ones 4). rewrite Z.land_ones by lia.
      apply Z.mod_pos_bound. lia.
    - rewrite Z.shiftr_div_pow2 by lia. change (2 ^ 4) with 16. split.
      + apply Z.div_pos; lia.
      + apply Z.div_lt_upper_bound; lia. }
  intros l Hlen Hoct. destruct (H l Hoct) as [H1 H2].
  split; [rewrite H1, Hlen; lia | exact H2].
Qed.

(** X5.  A derived client id is ["mqtt-io-"] followed by forty lower-case
    hexadecimal digits, whatever the topic prefix. *)
Theorem derived_client_id_shape :
  ∀ self_config config cid opts,
    getitem self_config "mqtt" = Return config →
    getitem config "client_id" = Return cid →
    truthy cid = false →
    _init_mqtt_config self_config = Return opts →
    ∃ hex,
      client_id opts = PStr (lit "mqtt-io-" ++ hex) ∧
      length hex = 40%nat ∧
      forallb is_hex_digit hex = true.
Proof.
  intros self_config config cid opts Hc Hcid Hf Hinit.
  apply init_mqtt_config_reads in Hinit
    as (config0 & tp & cid0 & tls & en & st & dead & Hc0 & _ & Hcid0 & Hid & _).
  rewrite Hc in Hc0. injection Hc0 as <-.
  rewrite Hcid in Hcid0. injection Hcid0 as <-.
  rewrite Hf in Hid. destruct Hid as (encoded & _ & ->).
  exists (SHA1.hexdigest encoded). split; [done|]. apply hexdigest_shape.
Qed.

(** The topic that [startup] and [shutdown] compute with
    [status_topic_of] is the Will topic derived by [__init__]. *)
Lemma init_status_topic self_config obj :
  MQTTIO_init self_config = Return obj →
  ∃ wl mqtt_config,
    will (mqtt_client_options obj) = Some wl ∧
    will_qos wl = 1 ∧ will_retain wl = true ∧
    getitem (config obj) "mqtt" = Return mqtt_config ∧
    status_topic_of mqtt_config = Return (will_topic wl).
Proof.
  intros H. unfold MQTTIO_init in H.
  apply result_bind_Return in H as (options & Hinit & H). injection H as <-.
  apply init_mqtt_config_Return in Hinit
    as (config & tp & cid & st & dead & topic0 & payload0
        & Hc & Hp & _ & _ & Hst & Hj & _ & _ & Hw).
  eexists _, config. split; [exact Hw|]. split; [done|]. split; [done|].
  split; [exact Hc|]. unfold status_topic_of.
  cbn [mbind result_bind]. rewrite Hp. cbn [mbind result_bind]. by rewrite Hst.
Qed.

(** X6.  The Will goes to the topic every status message goes to.  On a
    constructed server, a [startup] that returns ends with the publish of
    the running status and [set_connect_message] on the Will topic, and
    whatever [shutdown] publishes, it publishes to the Will topic. *)
Theorem will_topic_is_status_topic :
  ∀ self_config obj,
    MQTTIO_init self_config = Return obj →
    ∃ wl,
      will (mqtt_client_options obj) = Some wl ∧
      will_qos wl = 1 ∧ will_retain wl = true ∧
      (∀ w s s',
         config (self s) = config obj →
         startup w s = (Return tt, s') →
         ∃ ops payload,
           trace s' = trace s ++ ops ++
             [OpPublish (will_topic wl) payload 1 true;
              OpSetConnectMessage (will_topic wl) payload 1 true]) ∧
      (∀ w s r s',
         config (self s) = config obj →
         shutdown w s = (r, s') →
         ∃ ops,
           trace s' = trace s ++ ops ∧
           ∀ topic payload qos retain,
             In (OpPublish topic payload qos retain) ops →
             topic = will_topic wl).
Proof.
  intros self_config obj H.
  apply init_status_topic in H as (wl & mqtt_config & Hw & Hq & Hr & Hc & Ht).
  exists wl. split; [done|]. split; [done|]. split; [done|]. split.
  - intros w s s' Hcfg H. rewrite <- Hcfg in Hc.
    rewrite startup_plays in H. unfold startup_steps in H.
    rewrite Hc, Ht in H.
    set (tail := match status_payload_of _ _ with Return _ => _ | Raise _ => _ end) in H.
    change (Yield :: ?b :: ?c :: ?d :: ?e :: ?f :: ?g :: tail)
      with ([Yield; b; c; d; e; f; g] ++ tail) in H.
    rewrite app_assoc, !app_comm_cons in H.
    apply play_app_Return in H as (s1 & H1 & H2).
    apply play_prefix in H1 as (ops & Ht1 & _).
    subst tail. destruct (status_payload_of _ _) as [payload|e]; [|done].
    apply play_unsuspended in H2; [|by repeat constructor].
    exists ops, payload. by rewrite H2, Ht1, <- app_assoc.
  - intros w s r s' Hcfg H. rewrite <- Hcfg in Hc.
    rewrite shutdown_plays in H.
    apply play_prefix in H as (ops & Hto & Hp & _).
    exists ops. split; [done|].
    intros topic payload qos retain Hin.
    assert (Hin' : In (OpPublish topic payload qos retain)
                      (calls (shutdown_steps (self s)))).
    { destruct Hp as [k Hk].
      assert (In (OpPublish topic payload qos retain) (own_effects ops)) as Ho
        by (by apply List.filter_In).
      assert (In (OpPublish topic payload qos retain)
                 (own_effects (calls (shutdown_steps (self s))))) as Hc'
        by (rewrite Hk; apply in_or_app; by left).
      by apply List.filter_In in Hc' as [Hc' _]. }
    clear -Hin' Hc Ht. unfold shutdown_steps in Hin'. rewrite Hc, Ht in Hin'.
    destruct (mqtt (self s)) as [c|e]; [|done].
    destruct (status_payload_of _ _) as [payload'|e]; [|done].
    cbn [calls] in Hin'. destruct Hin' as [[= <- _ _ _]|Hin']; [done|].
    exfalso. cbn [In] in Hin'.
    destruct Hin' as [|[|[|Hin']]]; try discriminate.
    destruct (nursery (self s)) as [n|e]; [|done].
    cbn [calls In] in Hin'. destruct Hin' as [|Hin']; [discriminate|].
    rewrite calls_cleanup_steps in Hin'.
    apply in_map_iff in Hin' as (m & Hm & _). discriminate.
Qed.

End ClientIdShape.

(** The scenario. *)
Lemma derived_client_id_shape_scenario :
  ∃ hex,
    client_id scenario_options = PStr (lit "mqtt-io-" ++ hex) ∧
    length hex = 40%nat ∧
    forallb is_hex_digit hex = true.
Proof.
  apply (derived_client_id_shape scenario_config (PDict scenario_mqtt) (PStr [])).
  - vm_compute; reflexivity.
  - vm_compute; reflexivity.
  - reflexivity.
  - vm_compute; reflexivity.
Defined.

(** The scenario: running, stopped and dead status share ["home/status"]. *)
Lemma will_topic_is_status_topic_scenario :
  ∃ wl,
    will scenario_options = Some wl ∧
    (∃ ops payload,
       trace scenario_running = [] ++ ops ++
         [OpPublish (will_topic wl) payload 1 true;
          OpSetConnectMessage (will_topic wl) payload 1 true]) ∧
    (∃ ops,
       scenario_startup_calls ++
       [OpPublish (lit "home/status") (lit "stop") 1 true; OpWaitForPublish;
        OpDisconnect; OpDisconnectEventWait; OpCancelScope MainNursery;
        OpCleanup GPIO; OpCleanup SensorIO; OpCleanup StreamIO]
       = trace scenario_running ++ ops ∧
       ∀ topic payload qos retain,
         In (OpPublish topic payload qos retain) ops → topic = will_topic wl).
Proof.
  destruct (will_topic_is_status_topic scenario_config scenario_server)
    as (wl & Hw & _ & _ & Hstart & Hstop); [vm_compute; reflexivity|].
  exists wl. split; [exact Hw|]. split.
  - apply (Hstart calm (boot scenario_server) scenario_running).
    + reflexivity.
    + vm_compute; reflexivity.
  - apply (Hstop calm scenario_running (Return tt)
             (scenario_after
                [OpPublish (lit "home/status") (lit "stop") 1 true;
                 OpWaitForPublish; OpDisconnect; OpDisconnectEventWait;
                 OpCancelScope MainNursery;
                 OpCleanup GPIO; OpCleanup SensorIO; OpCleanup StreamIO]
                true)).
    + reflexivity.
    + vm_compute; reflexivity.
Defined.

(* ===================================================================== *)
(** ** What the methods leave alone *)
(* ===================================================================== *)

Section Invariants.

Implicit Types (w : world) (s : machine) (P : MQTTIO → Prop).

(** X7.  Shutting down resets nothing: whatever the outcome of [shutdown], and
    after any number of signals, the server object is the one it was, so
    the accessors return what they returned before. *)
Theorem shutdown_resets_nothing :
  ∀ w s,
    (∀ r s', shutdown w s = (r, s') → self s' = self s) ∧
    (∀ signals r s', handle_signals_loop signals w s = (r, s') →
       self s' = self s ∧
       nursery (self s') = nursery (self s) ∧
       mqtt (self s') = mqtt (self s) ∧
       trio_token (self s') = trio_token (self s)).
Proof.
  intros w s. split.
  - intros r s'. apply shutdown_leaves_self.
  - intros signals r s' H. apply handle_signals_loop_leaves_self in H.
    by rewrite H.
Qed.

(** The assignments of [run_mqtt] and [startup] keep any property that
    the three setters they use keep. *)
Lemma run_mqtt_steps_keep P w (obj : MQTTIO) :
  (∀ n o, P o → P (set_mqtt_nursery n o)) →
  (∀ c o, P o → P (set_mqtt c o)) →
  Forall (keeps P) (run_mqtt_steps w obj).
Proof.
  intros Hn Hm.
  assert (Htail : Forall (keeps P)
    match getitem (config obj) "mqtt" with
    | Raise e => [Stop e]
    | Return mqtt_config =>
        match contains mqtt_config "ha_discovery" with
        | Raise e => [Stop e]
        | Return true =>
            map (fun msg => Call (publish_message msg))
                (discovery_messages w mqtt_config (mqtt_client_options obj))
        | Return false => []
        end
    end).
  { destruct (getitem _ _) as [mqtt_config|e]; [|by repeat constructor].
    destruct (contains _ _) as [[|]|e]; try by repeat constructor.
    induction (discovery_messages _ _ _); by constructor. }
  unfold run_mqtt_steps.
  constructor; [exact (Hn _)|]. constructor; [done|].
  constructor; [exact (Hm _)|]. constructor; [done|].
  destruct (tls_options _); destruct (username _); destruct (will _);
    cbn [app]; repeat (constructor; [done|]); exact Htail.
Qed.

Lemma startup_steps_keep P w (obj : MQTTIO) :
  (∀ n o, P o → P (set_main_nursery n o)) →
  (∀ n o, P o → P (set_mqtt_nursery n o)) →
  (∀ c o, P o → P (set_mqtt c o)) →
  Forall (keeps P) (startup_steps w obj).
Proof.
  intros Hmain Hn Hm. unfold startup_steps.
  constructor; [exact (Hmain _)|]. do 4 (constructor; [done|]).
  apply Forall_app. split; [by apply run_mqtt_steps_keep|].
  do 7 (constructor; [done|]).
  destruct (getitem _ _) as [mqtt_config|e]; [|by repeat constructor].
  destruct (status_topic_of _) as [topic|e]; [|by repeat constructor].
  destruct (status_payload_of _ _) as [payload|e]; by repeat constructor.
Qed.

Lemma run_async_keeps P signals w s r s' :
  (∀ t o, P o → P (set_trio_token t o)) →
  (∀ n o, P o → P (set_main_nursery n o)) →
  (∀ n o, P o → P (set_mqtt_nursery n o)) →
  (∀ c o, P o → P (set_mqtt c o)) →
  run_async signals w s = (r, s') →
  P (self s) → P (self s').
Proof.
  intros Ht Hmain Hn Hm H HP.
  unfold run_async in H. rewrite run_bind in H.
  unfold update at 1 in H. lazy beta iota in H. fold (enter s) in H.
  assert (HP0 : P (self (enter s))) by apply Ht, HP.
  unfold open_nursery in H. rewrite run_bind in H.
  destruct (startup w (enter s)) as [[[]|e] s1] eqn:E1; rewrite startup_plays in E1.
  - assert (HP1 : P (self s1))
      by (eapply play_invariant; [by apply startup_steps_keep | exact E1 | exact HP0]).
    destruct (handle_signals_loop signals w s1) as [[[]|e] s2] eqn:E2;
      apply handle_signals_loop_leaves_self in E2.
    + injection H as <- <-. by rewrite E2.
    + destruct e; try (injection H as <- <-; by rewrite E2).
      destruct (existsb _ _); injection H as <- <-; by rewrite E2.
  - assert (HP1 : P (self s1))
      by (eapply play_invariant; [by apply startup_steps_keep | exact E1 | exact HP0]).
    destruct e; try (by injection H as <- <-).
    destruct (existsb _ _); by injection H as <- <-.
Qed.

(** X8.  No method reassigns what [__init__] has set: after [run_async],
    however it ends, [config], [mqtt_client_options] and [io_modules] are
    what they were. *)
Theorem run_async_keeps_settings :
  ∀ w s signals r s',
    run_async signals w s = (r, s') →
    settings_kept (self s) (self s').
Proof.
  intros w s signals r s' H.
  by apply (run_async_keeps (settings_kept (self s)) _ _ _ _ _) in H.
Qed.

End Invariants.

(** The scenario with a failing [self.gpio.cleanup()]. *)
Lemma shutdown_resets_nothing_scenario :
  self (scenario_after
          [OpPublish (lit "home/status") (lit "stop") 1 true; OpWaitForPublish;
           OpDisconnect; OpDisconnectEventWait; OpCancelScope MainNursery;
           OpCleanup GPIO] true)
  = self scenario_running.
Proof.
  apply (proj1 (shutdown_resets_nothing gpio_cleanup_fails scenario_running)
           (Raise (External "GPIO.cleanup"))).
  vm_compute; reflexivity.
Defined.

(** The scenario with a failing [self.gpio.init()]. *)
Lemma run_async_keeps_settings_scenario :
  settings_kept (self (boot scenario_server))
    (set_mqtt (new_client scenario_options)
       (set_mqtt_nursery MQTTNursery
          (set_main_nursery MainNursery
             (set_trio_token CurrentTrioToken scenario_server)))).
Proof.
  apply (run_async_keeps_settings gpio_init_fails (boot scenario_server) [SIGINT]
           (Raise (External "GPIO.init"))
           {| self := set_mqtt (new_client scenario_options)
                        (set_mqtt_nursery MQTTNursery
                           (set_main_nursery MainNursery
                              (set_trio_token CurrentTrioToken scenario_server)));
              trace := [OpOpenSignalReceiver [SIGINT; SIGQUIT];
                        OpStart MainNursery EventBusRun;
                        OpNewClient MQTTNursery
                          (PStr (lit "mqtt-io-" ++ SHA1.hexdigest (lit "home")))
                          (PBool false);
                        OpEnableLogger;
                        OpConnect (PStr (lit "localhost")) (PInt 1883) (PInt 10);
                        OpWillSet (lit "home/status") (lit "dead") 1 true;
                        OpStartSoon MQTTNursery HandleMessages;
                        OpInit GPIO];
              receiving := true |}).
  vm_compute; reflexivity.
Defined.

(* ===================================================================== *)
(** ** Too early: before the client or the nursery exists *)
(* ===================================================================== *)

Section TooEarly.

Implicit Types (w : world) (s : machine).

(** X9.  A signal that is handled before [run_mqtt] has created the client
    does not shut anything down: [shutdown] raises the [RuntimeError] of
    the [mqtt] accessor before it has made any call.  [handle_signals]
    then leaves its signal receiver without returning: the only calls made
    are re-deliveries of the signals still pending, and when no handler of
    a re-delivered signal raises, all of them are re-delivered and the
    error is that [RuntimeError]. *)
Theorem shutdown_before_client_raises :
  ∀ w s mqtt_config,
    getitem (config (self s)) "mqtt" = Return mqtt_config →
    _mqtt (self s) = None →
    shutdown w s = (Raise (RuntimeError "MQTT is not initialised"), s) ∧
    (∀ signum signals r s',
       cancel_delivered w (trace s) = false →
       handle_signals_loop (signum :: signals) w s = (r, s') →
       r ≠ Return tt ∧
       ∃ redelivered,
         trace s' = trace s ++ map OpSignalRaise redelivered ∧
         redelivered `prefix_of` pending_of signals ∧
         ((∀ tr signum', raises w tr (OpSignalRaise signum') = None) →
          r = Raise (RuntimeError "MQTT is not initialised") ∧
          redelivered = pending_of signals)).
Proof.
  intros w s mqtt_config Hc Hm.
  assert (H : shutdown w s = (Raise (RuntimeError "MQTT is not initialised"), s)).
  { unfold shutdown. rewrite run_bind. unfold eval at 1. rewrite Hc.
    rewrite run_bind. unfold eval at 1, mqtt. by rewrite Hm. }
  split; [exact H|]. intros signum signals r s' Hcancel Hloop.
  cbn [handle_signals_loop] in Hloop. rewrite run_bind in Hloop.
  unfold leaving at 1, check_cancelled at 1 in Hloop.
  rewrite Hcancel in Hloop. rewrite run_bind in Hloop.
  unfold leaving at 1 in Hloop. rewrite H in Hloop.
  destruct (redeliver_remaining _ _ w s) as [r1 s1] eqn:E.
  pose proof E as Hq.
  apply redeliver_remaining_run in E as (d & Ht & Hp & _ & e' & ->).
  injection Hloop as <- <-. split; [done|].
  exists d. split; [done|]. split; [done|].
  intros Hquiet. rewrite redeliver_remaining_quiet in Hq by done.
  injection Hq as <- <-. split; [done|].
  cbn [emit trace] in Ht. apply app_inv_head in Ht.
  clear -Ht. revert d Ht.
  induction (pending_of signals) as [|x l IH]; intros [|y d]; try done.
  simpl. intros [= -> Ht]. f_equal. by apply IH.
Qed.

(** X10.  A broker message handled while the main nursery is not stored makes
    the receive loop raise the [RuntimeError] of the [nursery] accessor;
    no handler is spawned. *)
Theorem handle_messages_before_nursery_raises :
  ∀ w s msg messages m mods,
    _main_nursery (self s) = None →
    io_modules (self s) = m :: mods →
    handle_messages (msg :: messages) w s
    = (Raise (RuntimeError "Nursery has not been initialised"), s).
Proof.
  intros w s msg messages m mods Hn Hmods.
  unfold handle_messages, dispatch. cbn [for_]. rewrite !run_bind.
  unfold eval at 1. rewrite Hmods. cbn [for_]. rewrite !run_bind.
  unfold eval at 1, nursery. by rewrite Hn.
Qed.

End TooEarly.

(** The scenario, just constructed: a SIGINT is handled while another
    SIGINT and a SIGQUIT are pending, and the handlers installed before
    return. *)
Lemma shutdown_before_client_raises_scenario :
  shutdown calm (boot scenario_server)
  = (Raise (RuntimeError "MQTT is not initialised"), boot scenario_server) ∧
  ∃ redelivered,
    [OpSignalRaise SIGINT; OpSignalRaise SIGQUIT]
    = trace (boot scenario_server) ++ map OpSignalRaise redelivered ∧
    redelivered = pending_of [SIGINT; SIGQUIT].
Proof.
  destruct (shutdown_before_client_raises calm (boot scenario_server)
              (PDict scenario_mqtt) ltac:(vm_compute; reflexivity) eq_refl)
    as [Hshutdown Hloop].
  split; [exact Hshutdown|].
  destruct (Hloop SIGINT [SIGINT; SIGQUIT]
              (Raise (RuntimeError "MQTT is not initialised"))
              {| self := scenario_server;
                 trace := [OpSignalRaise SIGINT; OpSignalRaise SIGQUIT];
                 receiving := false |}
              eq_refl ltac:(vm_compute; reflexivity))
    as (_ & redelivered & Ht & _ & Hquiet).
  exists redelivered. split; [exact Ht|].
  apply Hquiet. intros tr signum'; reflexivity.
Defined.

Lemma handle_messages_before_nursery_raises_scenario :
  handle_messages [set_message] calm (boot scenario_server)
  = (Raise (RuntimeError "Nursery has not been initialised"), boot scenario_server).
Proof.
  apply (handle_messages_before_nursery_raises calm (boot scenario_server)
           set_message [] GPIO [SensorIO; StreamIO]).
  - reflexivity.
  - reflexivity.
Defined.

(* ===================================================================== *)
(** ** The order and the failures of start-up *)
(* ===================================================================== *)

Section StartupOrder.

Implicit Types (w : world) (s : machine).

Lemma startup_calls w (obj : MQTTIO) topic payload :
  configured_status obj "status_payload_running" topic payload →
  own_effects (calls (startup_steps w obj)) =
    [OpOpenSignalReceiver [SIGINT; SIGQUIT];
     OpStart MainNursery EventBusRun] ++
    connection_calls w obj ++
    [OpInit GPIO; OpInit SensorIO; OpInit StreamIO;
     OpPublish topic payload 1 true;
     OpSetConnectMessage topic payload 1 true].
Proof.
  intros Hcfg. rewrite (startup_steps_configured w _ _ _ Hcfg).
  destruct (connection_calls_own w obj) as [Hown _].
  rewrite calls_app, !calls_cons, calls_app. cbn [step_calls app calls].
  change (calls (run_mqtt_steps w (set_main_nursery MainNursery obj)))
    with (connection_calls w obj).
  rewrite <- app_assoc. cbn [app].
  change (own_effects (?a :: ?b :: ?l)) with (a :: b :: own_effects l).
  by rewrite own_effects_app, Hown.
Qed.

(** X11.  Start-up follows one order in every world.  Its first call opens the
    receiver of SIGINT and SIGQUIT; then come the event bus, the calls of
    [run_mqtt], the [init()] of GPIO, SensorIO and StreamIO, the publish
    of the running status and [set_connect_message].  However start-up
    ends, the calls it has made, apart from the handler spawns of the
    receive loop, are an initial segment of this sequence. *)
Theorem startup_order_in_every_world :
  ∀ w s r s',
    startup w s = (r, s') →
    (∃ rest, trace s' = trace s ++ OpOpenSignalReceiver [SIGINT; SIGQUIT] :: rest) ∧
    (∀ topic payload,
       configured_status (self s) "status_payload_running" topic payload →
       ∃ ops, trace s' = trace s ++ ops ∧
         own_effects ops `prefix_of`
           [OpOpenSignalReceiver [SIGINT; SIGQUIT];
            OpStart MainNursery EventBusRun] ++
           connection_calls w (self s) ++
           [OpInit GPIO; OpInit SensorIO; OpInit StreamIO;
            OpPublish topic payload 1 true;
            OpSetConnectMessage topic payload 1 true]).
Proof.
  intros w s r s' H. rewrite startup_plays in H. split.
  - unfold startup_steps in H. rewrite play_cons in H.
    cbn [play_step] in H. unfold update at 1 in H. lazy beta iota in H.
    rewrite play_cons in H. cbn [play_step] in H.
    unfold perform at 1 in H. cbn [trace] in H.
    destruct (raises w (trace s) _) as [e|].
    + injection H as <- <-. by exists [].
    + apply play_prefix in H as (ops & -> & _). exists ops.
      simpl. by rewrite <- app_assoc.
  - intros topic payload Hcfg.
    apply play_prefix in H as (ops & Ht & Hp & _).
    rewrite (startup_calls w _ _ _ Hcfg) in Hp. eauto.
Qed.

(** *** Failures *)

Lemma fail_fast_update (f : MQTTIO → MQTTIO) : fail_fast (update f).
Proof. by apply fail_fast_silent. Qed.

Lemma fail_fast_ret {A} (a : A) : fail_fast (mret a : M A).
Proof. by apply fail_fast_silent. Qed.

Lemma fail_fast_ha_discovery_announce : fail_fast _ha_discovery_announce.
Proof.
  unfold _ha_discovery_announce.
  apply fail_fast_bind; [by apply fail_fast_silent|]. intros w0.
  apply fail_fast_bind; [apply fail_fast_eval|]. intros mqtt_config.
  apply fail_fast_bind; [apply fail_fast_eval|]. intros options.
  apply fail_fast_for. intros msg. apply fail_fast_perform.
Qed.

Lemma fail_fast_run_mqtt : fail_fast run_mqtt.
Proof.
  unfold run_mqtt.
  apply fail_fast_bind; [apply fail_fast_eval|]. intros options.
  repeat (apply fail_fast_bind; [|intros ?]);
    try first [ apply fail_fast_perform | apply fail_fast_update
              | apply fail_fast_eval | apply fail_fast_set_receiving ].
  - destruct (tls_options options); [apply fail_fast_perform | apply fail_fast_ret].
  - destruct (username options);
      first [apply fail_fast_perform | apply fail_fast_ret].
  - destruct (will options); [apply fail_fast_perform | apply fail_fast_ret].
  - match goal with b : bool |- _ => destruct b end;
      [apply fail_fast_ha_discovery_announce | apply fail_fast_ret].
Qed.

Lemma fail_fast_startup : fail_fast startup.
Proof.
  unfold startup, handle_signals_ready.
  repeat first [ apply fail_fast_run_mqtt | apply fail_fast_await
               | apply fail_fast_perform | apply fail_fast_update
               | apply fail_fast_eval | apply fail_fast_suspend
               | apply fail_fast_bind; [|intros ?] ].
Qed.

(** X12.  Nothing in start-up catches an error.  A call that raises, be it an
    [init()], [connect] or a publish, is the last call start-up makes and
    its error is the outcome of start-up; the modules after a failing
    [init()] are not initialised and the running status is not published.
    [run_async] then ends with that error, unless it is the cancellation
    of its own nursery. *)
Theorem startup_error_is_fatal :
  ∀ w s,
    (∀ r s' pre x post e,
       startup w s = (r, s') →
       trace s' = trace s ++ pre ++ x :: post →
       raises w (trace s ++ pre) x = Some e →
       r = Raise e ∧ post = []) ∧
    (∀ signals e s1,
       startup w (enter s) = (Raise e, s1) →
       e ≠ Cancelled →
       run_async signals w s = (Raise e, s1)).
Proof.
  intros w s. split.
  - intros r s' pre x post e H Ht Hr.
    destruct (fail_fast_startup _ _ _ _ H) as (ops & Ht' & Hff).
    rewrite Ht' in Ht. apply app_inv_head in Ht. by apply (Hff pre x post e).
  - intros signals e s1 H He.
    unfold run_async. rewrite run_bind. unfold update at 1. lazy beta iota.
    fold (enter s). unfold open_nursery. rewrite run_bind, H.
    by destruct e.
Qed.

End StartupOrder.

(** The scenario with a failing [self.gpio.init()]. *)
Lemma startup_order_in_every_world_scenario :
  (∃ rest,
     [OpOpenSignalReceiver [SIGINT; SIGQUIT];
      OpStart MainNursery EventBusRun;
      OpNewClient MQTTNursery
        (PStr (lit "mqtt-io-" ++ SHA1.hexdigest (lit "home"))) (PBool false);
      OpEnableLogger;
      OpConnect (PStr (lit "localhost")) (PInt 1883) (PInt 10);
      OpWillSet (lit "home/status") (lit "dead") 1 true;
      OpStartSoon MQTTNursery HandleMessages;
      OpInit GPIO]
     = [] ++ OpOpenSignalReceiver [SIGINT; SIGQUIT] :: rest) ∧
  (∀ topic payload,
     configured_status scenario_server "status_payload_running" topic payload →
     ∃ ops,
       [OpOpenSignalReceiver [SIGINT; SIGQUIT];
        OpStart MainNursery EventBusRun;
        OpNewClient MQTTNursery
          (PStr (lit "mqtt-io-" ++ SHA1.hexdigest (lit "home"))) (PBool false);
        OpEnableLogger;
        OpConnect (PStr (lit "localhost")) (PInt 1883) (PInt 10);
        OpWillSet (lit "home/status") (lit "dead") 1 true;
        OpStartSoon MQTTNursery HandleMessages;
        OpInit GPIO]
       = [] ++ ops ∧
       own_effects ops `prefix_of`
         [OpOpenSignalReceiver [SIGINT; SIGQUIT];
          OpStart MainNursery EventBusRun] ++
         connection_calls gpio_init_fails scenario_server ++
         [OpInit GPIO; OpInit SensorIO; OpInit StreamIO;
          OpPublish topic payload 1 true;
          OpSetConnectMessage topic payload 1 true]).
Proof.
  apply (startup_order_in_every_world gpio_init_fails (boot scenario_server)
           (Raise (External "GPIO.init"))
           {| self := set_mqtt (new_client scenario_options)
                        (set_mqtt_nursery MQTTNursery
                           (set_main_nursery MainNursery scenario_server));
              trace := [OpOpenSignalReceiver [SIGINT; SIGQUIT];
                        OpStart MainNursery EventBusRun;
                        OpNewClient MQTTNursery
                          (PStr (lit "mqtt-io-" ++ SHA1.hexdigest (lit "home")))
                          (PBool false);
                        OpEnableLogger;
                        OpConnect (PStr (lit "localhost")) (PInt 1883) (PInt 10);
                        OpWillSet (lit "home/status") (lit "dead") 1 true;
                        OpStartSoon MQTTNursery HandleMessages;
                        OpInit GPIO];
              receiving := true |}).
  vm_compute; reflexivity.
Defined.

Lemma startup_error_is_fatal_scenario :
  run_async [SIGINT] gpio_init_fails (boot scenario_server)
  = (Raise (External "GPIO.init"),
     {| self := set_mqtt (new_client scenario_options)
                  (set_mqtt_nursery MQTTNursery
                     (set_main_nursery MainNursery
                        (set_trio_token CurrentTrioToken scenario_server)));
        trace := [OpOpenSignalReceiver [SIGINT; SIGQUIT];
                  OpStart MainNursery EventBusRun;
                  OpNewClient MQTTNursery
                    (PStr (lit "mqtt-io-" ++ SHA1.hexdigest (lit "home")))
                    (PBool false);
                  OpEnableLogger;
                  OpConnect (PStr (lit "localhost")) (PInt 1883) (PInt 10);
                  OpWillSet (lit "home/status") (lit "dead") 1 true;
                  OpStartSoon MQTTNursery HandleMessages;
                  OpInit GPIO];
        receiving := true |}).
Proof.
  apply (proj2 (startup_error_is_fatal gpio_init_fails (boot scenario_server)) [SIGINT]).
  - vm_compute; reflexivity.
  - discriminate.
Defined.

(* ===================================================================== *)
(** ** The calls of [run_mqtt] *)
(* ===================================================================== *)

Section Connection.

Implicit Types (w : world) (s : machine) (p q : op → bool).

(** Without suspension point, in any world, the trace grows by an initial
    segment of the calls. *)
Lemma play_unsuspended_prefix sc w s r s' :
  Forall unsuspended sc →
  play sc w s = (r, s') →
  ∃ ops, trace s' = trace s ++ ops ∧ ops `prefix_of` calls sc ∧
         (r = Return tt → ops = calls sc).
Proof.
  intros Hsc. revert s. induction Hsc as [|st sc Hst _ IH]; intros s.
  - simpl. intros [= <- <-]. exists []. by rewrite app_nil_r.
  - rewrite play_cons, calls_cons.
    assert (Hstep : ∀ r1 s1, play_step st w s = (r1, s1) →
                             trace s1 = trace s ++ step_calls st).
    { intros r1 s1 E. destruct st as [o| | |b|f|e]; simpl in *; try done.
      - unfold perform in E. by injection E as _ <-.
      - unfold check_cancelled in E.
        destruct (cancel_delivered w (trace s)); injection E as _ <-;
          by rewrite app_nil_r.
      - unfold set_receiving in E. injection E as _ <-. by rewrite app_nil_r.
      - unfold update in E. injection E as _ <-. by rewrite app_nil_r.
      - injection E as _ <-. by rewrite app_nil_r. }
    destruct (play_step st w s) as [[[]|e] s1] eqn:E;
      specialize (Hstep _ _ eq_refl).
    + intros H. apply IH in H as (ops & Ht & Hp & Hr).
      exists (step_calls st ++ ops). rewrite Ht, Hstep, app_assoc.
      split; [done|]. split; [by apply prefix_app|].
      intros Hret. by rewrite (Hr Hret).
    + intros [= <- <-]. exists (step_calls st). split; [done|].
      split; [by apply prefix_app_r|]. discriminate.
Qed.

Lemma all_before_no_q p q l : existsb q l = false → all_before p q l = true.
Proof.
  induction l as [|o l IH]; [done|]. simpl.
  intros [-> Hl]%orb_false_elim. by rewrite IH.
Qed.

Lemma all_before_prefix p q l' l :
  l' `prefix_of` l → all_before p q l = true → all_before p q l' = true.
Proof.
  intros [k ->]. induction l' as [|o l' IH]; [done|]. simpl.
  intros [Ho Hl]%andb_prop. rewrite (IH Hl), andb_true_r.
  destruct (q o); [|done].
  apply negb_true_iff in Ho. rewrite existsb_app in Ho.
  apply orb_false_elim in Ho as [-> _]. done.
Qed.

Lemma announcements_are_publishes (l : list MQTTMessageSend) p :
  (∀ msg, p (publish_message msg) = false) →
  existsb p (map publish_message l) = false.
Proof.
  intros Hp. induction l as [|msg l IH]; [done|]. simpl. by rewrite Hp, IH.
Qed.

Lemma connection_calls_order w (obj : MQTTIO) :
  all_before is_tls_or_credentials is_connect (connection_calls w obj) = true ∧
  existsb is_tls_set (connection_calls w obj)
    = bool_decide (is_Some (tls_options (mqtt_client_options obj))) ∧
  existsb is_credentials (connection_calls w obj)
    = negb (is_none (username (mqtt_client_options obj))) ∧
  existsb is_connect (connection_calls w obj) = true.
Proof.
  unfold connection_calls, run_mqtt_steps.
  pose proof (announcements_are_publishes (announced w obj)
                is_tls_or_credentials (fun _ => eq_refl)) as H1.
  pose proof (announcements_are_publishes (announced w obj)
                is_connect (fun _ => eq_refl)) as H2.
  pose proof (announcements_are_publishes (announced w obj)
                is_tls_set (fun _ => eq_refl)) as H3.
  pose proof (announcements_are_publishes (announced w obj)
                is_credentials (fun _ => eq_refl)) as H4.
  pose proof (all_before_no_q is_tls_or_credentials is_connect _ H2) as H5.
  destruct (tls_options _); destruct (username _); destruct (will _);
    cbn [app calls]; rewrite connection_calls_tail; simpl;
    by rewrite ?H1, ?H2, ?H3, ?H4, ?H5.
Qed.

(** X13.  [run_mqtt] sets the TLS context and the credentials before it calls
    [connect], however it ends; when it returns, it has called [connect],
    has set the TLS context exactly when the options carry TLS options,
    and the credentials exactly when the user name is not [None]. *)
Theorem tls_and_credentials_before_connect :
  ∀ w s r s',
    run_mqtt w s = (r, s') →
    ∃ ops,
      trace s' = trace s ++ ops ∧
      all_before is_tls_or_credentials is_connect ops = true ∧
      (r = Return tt →
       existsb is_connect ops = true ∧
       existsb is_tls_set ops
         = bool_decide (is_Some (tls_options (mqtt_client_options (self s)))) ∧
       existsb is_credentials ops
         = negb (is_none (username (mqtt_client_options (self s))))).
Proof.
  intros w s r s' H. rewrite run_mqtt_plays in H.
  apply play_unsuspended_prefix in H as (ops & Ht & Hp & Hr);
    [|apply unsuspended_run_mqtt].
  destruct (connection_calls_order w (self s)) as (Hord & Htls & Hcred & Hconn).
  exists ops. split; [done|]. split.
  - by apply (all_before_prefix _ _ _ _ Hp).
  - intros Hret. rewrite (Hr Hret). done.
Qed.

(** X14.  Discovery is switched on by the presence of the key ["ha_discovery"]
    in the broker section, whatever its value.  When [run_mqtt] returns,
    its publishes are, if the key is present, the announcements of the
    collaborator, verbatim and in the order digital inputs, digital
    outputs, sensor inputs, one per configured entity; without the key it
    has published nothing. *)
Theorem discovery_follows_key_presence :
  ∀ w s s' (m : gmap string pyval),
    run_mqtt w s = (Return tt, s') →
    getitem (config (self s)) "mqtt" = Return (PDict m) →
    ∃ ops,
      trace s' = trace s ++ ops ∧
      List.filter is_publish ops =
        (if has_key m "ha_discovery"
         then map publish_message
                (discovery_messages w (PDict m) (mqtt_client_options (self s)))
         else []) ∧
      length (discovery_messages w (PDict m) (mqtt_client_options (self s)))
      = (length (digital_input_configs w) + length (digital_output_configs w)
         + length (sensor_input_configs w))%nat.
Proof.
  intros w s s' m H Hc. rewrite run_mqtt_plays in H.
  apply play_unsuspended in H; [|apply unsuspended_run_mqtt].
  exists (calls (run_mqtt_steps w (self s))). split; [done|]. split.
  - destruct (connection_calls_own w (self s)) as [_ Hpub].
    unfold connection_calls in Hpub. rewrite Hpub.
    unfold announced. rewrite Hc. unfold contains, has_key.
    by destruct (bool_decide _).
  - unfold discovery_messages. rewrite !length_app, !length_map. lia.
Qed.

End Connection.

(** The secured scenario: its configuration yields the options with
    credentials and TLS, and both are set on the client before it
    connects. *)
Example secured_options_derived :
  _init_mqtt_config (PDict {[ "mqtt" := PDict secured_mqtt ]})
  = Return secured_options.
Proof. vm_compute; reflexivity. Qed.

Lemma tls_and_credentials_before_connect_scenario :
  ∃ ops,
    [OpNewClient MQTTNursery
       (PStr (lit "mqtt-io-" ++ SHA1.hexdigest (lit "home"))) (PBool false);
     OpEnableLogger;
     OpTlsSetContext secured_tls;
     OpUsernamePwSet (PStr (lit "io")) (PStr (lit "secret"));
     OpConnect (PStr (lit "localhost")) (PInt 1883) (PInt 10);
     OpWillSet (lit "home/status") (lit "dead") 1 true;
     OpStartSoon MQTTNursery HandleMessages]
    = [] ++ ops ∧
    all_before is_tls_or_credentials is_connect ops = true ∧
    (Return tt = Return tt →
     existsb is_connect ops = true ∧
     existsb is_tls_set ops = bool_decide (is_Some (Some secured_tls)) ∧
     existsb is_credentials ops = negb (is_none (PStr (lit "io")))).
Proof.
  apply (tls_and_credentials_before_connect calm (boot secured_server)
           (Return tt)
           {| self := set_mqtt (new_client secured_options)
                        (set_mqtt_nursery MQTTNursery secured_server);
              trace :=
                [OpNewClient MQTTNursery
                   (PStr (lit "mqtt-io-" ++ SHA1.hexdigest (lit "home")))
                   (PBool false);
                 OpEnableLogger;
                 OpTlsSetContext secured_tls;
                 OpUsernamePwSet (PStr (lit "io")) (PStr (lit "secret"));
                 OpConnect (PStr (lit "localhost")) (PInt 1883) (PInt 10);
                 OpWillSet (lit "home/status") (lit "dead") 1 true;
                 OpStartSoon MQTTNursery HandleMessages];
              receiving := true |}).
  vm_compute; reflexivity.
Defined.

(** The scenario with four entities and a disabled ["ha_discovery"]
    entry: the four announcements are published all the same. *)
Lemma discovery_follows_key_presence_scenario :
  ∃ ops,
    [OpNewClient MQTTNursery
       (PStr (lit "mqtt-io-" ++ SHA1.hexdigest (lit "home"))) (PBool false);
     OpEnableLogger;
     OpConnect (PStr (lit "localhost")) (PInt 1883) (PInt 10);
     OpWillSet (lit "home/status") (lit "dead") 1 true;
     OpStartSoon MQTTNursery HandleMessages;
     OpPublish (lit "homeassistant/binary_sensor/button/config") [] 1 true;
     OpPublish (lit "homeassistant/binary_sensor/door/config") [] 1 true;
     OpPublish (lit "homeassistant/switch/lamp/config") [] 1 true;
     OpPublish (lit "homeassistant/sensor/temp/config") [] 1 true]
    = [] ++ ops ∧
    List.filter is_publish ops =
      (if has_key discovery_mqtt "ha_discovery"
       then map publish_message
              (discovery_messages with_entities (PDict discovery_mqtt) scenario_options)
       else []) ∧
    length (discovery_messages with_entities (PDict discovery_mqtt) scenario_options)
    = (2 + 1 + 1)%nat.
Proof.
  apply (discovery_follows_key_presence with_entities (boot discovery_server)
           {| self := set_mqtt (new_client scenario_options)
                        (set_mqtt_nursery MQTTNursery discovery_server);
              trace :=
                [OpNewClient MQTTNursery
                   (PStr (lit "mqtt-io-" ++ SHA1.hexdigest (lit "home")))
                   (PBool false);
                 OpEnableLogger;
                 OpConnect (PStr (lit "localhost")) (PInt 1883) (PInt 10);
                 OpWillSet (lit "home/status") (lit "dead") 1 true;
                 OpStartSoon MQTTNursery HandleMessages;
                 OpPublish (lit "homeassistant/binary_sensor/button/config") [] 1 true;
                 OpPublish (lit "homeassistant/binary_sensor/door/config") [] 1 true;
                 OpPublish (lit "homeassistant/switch/lamp/config") [] 1 true;
                 OpPublish (lit "homeassistant/sensor/temp/config") [] 1 true];
              receiving := true |}
           discovery_mqtt).
  - vm_compute; reflexivity.
  - vm_compute; reflexivity.
Defined.

(* ===================================================================== *)
(** ** Signals after the first, as trio delivers cancellation *)
(* ===================================================================== *)

Section LaterSignals.

Implicit Types (w : world) (s : machine).

(** A [shutdown] that returns has cancelled the main nursery's scope. *)
Lemma shutdown_returned_has_cancelled w s s' n :
  _main_nursery (self s) = Some n →
  shutdown w s = (Return tt, s') →
  existsb (is_cancel n) (trace s') = true.
Proof.
  intros Hn H. rewrite shutdown_plays in H.
  unfold shutdown_steps, nursery in H. rewrite Hn in H.
  destruct (getitem _ _) as [mqtt_config|e]; [|done].
  destruct (mqtt (self s)) as [c|e]; [|done].
  destruct (status_topic_of _) as [topic|e]; [|done].
  destruct (status_payload_of _ _) as [payload|e]; [|done].
  apply play_prefix in H as (ops & -> & _ & Hr). specialize (Hr eq_refl).
  rewrite existsb_app. apply orb_true_iff. right.
  apply existsb_own_effects. rewrite Hr.
  cbn [calls own_effects List.filter is_dispatch negb existsb].
  replace (is_cancel n (OpCancelScope n)) with true by (by destruct n).
  by rewrite !orb_true_r.
Qed.

Lemma pending_of_received signals x : In x (pending_of signals) → In x signals.
Proof.
  induction signals as [|signum signals IH]; [done|]. cbn [pending_of].
  intros [->|H]; [by left|]. right. apply IH.
  by apply List.filter_In in H as [H _].
Qed.

Lemma prefix_received (redelivered pending signals : list signal) :
  redelivered `prefix_of` pending →
  (∀ x, In x pending → In x signals) →
  ∀ x, In x redelivered → In x signals.
Proof.
  intros [k ->] Hp x Hx. apply Hp, in_or_app. by left.
Qed.

(** What leaves the body of a nursery decides where [run_async] ends. *)
Lemma run_async_body signals w s r s' :
  run_async signals w s = (r, s') →
  ∃ r0, (startup;; handle_signals_loop signals) w (enter s) = (r0, s').
Proof.
  unfold run_async. rewrite run_bind. unfold update at 1. lazy beta iota.
  fold (enter s). unfold open_nursery.
  destruct ((startup;; handle_signals_loop signals) w (enter s)) as [r0 s0].
  intros H. exists r0.
  destruct r0 as [[]|e]; [by injection H as _ <-|].
  destruct e; try (by injection H as _ <-).
  destruct (existsb _ _); by injection H as _ <-.
Qed.

Lemma redeliver_more {A} e x l w s (r1 r2 : result A) s1 s2 :
  redeliver_remaining e [x] w s = (r1, s1) →
  redeliver_remaining e (x :: l) w s = (r2, s2) →
  self s2 = self s1 ∧
  ∃ redelivered,
    trace s2 = trace s1 ++ map OpSignalRaise redelivered ∧
    redelivered `prefix_of` l.
Proof.
  cbn [redeliver_remaining]. unfold perform at 1 2.
  assert (Hgo : ∀ e0,
    (Raise e0, emit [OpSignalRaise x] s) = (r1, s1) →
    redeliver_remaining e0 l w (emit [OpSignalRaise x] s) = (r2, s2) →
    self s2 = self s1 ∧
    ∃ redelivered,
      trace s2 = trace s1 ++ map OpSignalRaise redelivered ∧
      redelivered `prefix_of` l).
  { intros e0 [= <- <-] H.
    apply redeliver_remaining_run in H as (d & Ht & Hp & Hs & _). eauto. }
  destruct (raises w (trace s) _) as [e1|]; [|apply Hgo].
  destruct e1; try apply Hgo.
  intros [= <- <-] [= <- <-]. split; [done|]. exists [].
  rewrite app_nil_r. eauto using prefix_nil.
Qed.

Lemma later_signals_loop w s signum signals r1 s1 r2 s2 :
  cancels_like_trio w →
  _main_nursery (self s) = Some MainNursery →
  handle_signals_loop [signum] w s = (r1, s1) →
  handle_signals_loop (signum :: signals) w s = (r2, s2) →
  self s2 = self s1 ∧
  ∃ redelivered,
    trace s2 = trace s1 ++ map OpSignalRaise redelivered ∧
    ∀ x, In x redelivered → In x signals.
Proof.
  intros Htrio Hn H1 H2.
  cbn [handle_signals_loop] in H1, H2. rewrite run_bind in H1, H2.
  destruct (leaving [signum] check_cancelled w s) as [ra sa] eqn:Ea.
  destruct (leaving (signum :: signals) check_cancelled w s) as [rb sb] eqn:Eb.
  unfold leaving, check_cancelled in Ea, Eb.
  destruct (cancel_delivered w (trace s)).
  - (* the checkpoint of the first signal raises: it is pending too *)
    cbn [pending_of] in Ea, Eb.
    destruct (redeliver_more _ _ _ _ _ _ _ _ _ Ea Eb) as (Hs & d & Ht & Hp).
    apply redeliver_remaining_run in Ea as (_ & _ & _ & _ & ea & ->).
    apply redeliver_remaining_run in Eb as (_ & _ & _ & _ & eb & ->).
    injection H1 as _ <-. injection H2 as _ <-.
    split; [done|]. exists d. split; [done|].
    apply (prefix_received _ _ _ Hp). intros x Hx.
    apply List.filter_In in Hx as [Hx _]. by apply pending_of_received.
  - injection Ea as <- <-. injection Eb as <- <-.
    rewrite run_bind in H1, H2.
    destruct (leaving [] shutdown w s) as [rc sc] eqn:Ec.
    destruct (leaving signals shutdown w s) as [rd sd] eqn:Ed.
    unfold leaving in Ec, Ed.
    destruct (shutdown w s) as [[[]|e] s3] eqn:Es.
    + (* [shutdown] returned: the next checkpoint raises *)
      injection Ec as <- <-. injection Ed as <- <-.
      injection H1 as _ <-.
      pose proof (shutdown_returned_has_cancelled _ _ _ _ Hn Es) as Hc.
      apply Htrio in Hc.
      destruct signals as [|x l]; cbn [handle_signals_loop] in H2.
      * injection H2 as _ <-. split; [done|]. exists []. by rewrite app_nil_r.
      * rewrite run_bind in H2.
        destruct (leaving (x :: l) check_cancelled w s3) as [re se] eqn:Ee.
        unfold leaving, check_cancelled in Ee. rewrite Hc in Ee.
        apply redeliver_remaining_run in Ee as (d & Ht & Hp & Hs & ee & ->).
        injection H2 as _ <-. split; [done|]. exists d. split; [done|].
        apply (prefix_received _ _ _ Hp), pending_of_received.
    + assert (Hd : ∃ d, self sd = self sc ∧
                trace sd = trace sc ++ map OpSignalRaise d ∧
                d `prefix_of` pending_of signals ∧
                (∃ e1, rc = Raise e1) ∧ ∃ e2, rd = Raise e2).
      { destruct e;
          try (cbn [pending_of redeliver_remaining] in Ec;
               injection Ec as <- <-;
               apply redeliver_remaining_run in Ed as (d & Ht & Hp & Hs & ed);
               exists d; eauto 10).
        injection Ec as <- <-. injection Ed as <- <-. exists [].
        rewrite app_nil_r. eauto 10 using prefix_nil. }
      destruct Hd as (d & Hs & Ht & Hp & [e1 ->] & [e2 ->]).
      injection H1 as _ <-. injection H2 as _ <-.
      split; [done|]. exists d. split; [done|].
      apply (prefix_received _ _ _ Hp), pending_of_received.
Qed.

(** X17.  When trio delivers the cancellation of the main nursery's scope at
    the next checkpoint, [run_async] hands the first signal to [shutdown]
    and no other: with further signals received, the calls made are those
    made with the first signal alone, followed only by re-deliveries of
    further signals to the handlers that were installed before. *)
Theorem later_signals_are_not_handled :
  ∀ w s signum signals r1 s1 r2 s2,
    cancels_like_trio w →
    run_async [signum] w s = (r1, s1) →
    run_async (signum :: signals) w s = (r2, s2) →
    self s2 = self s1 ∧
    ∃ redelivered,
      trace s2 = trace s1 ++ map OpSignalRaise redelivered ∧
      ∀ x, In x redelivered → In x signals.
Proof.
  intros w s signum signals r1 s1 r2 s2 Htrio H1 H2.
  apply run_async_body in H1 as (r1' & H1).
  apply run_async_body in H2 as (r2' & H2).
  rewrite run_bind in H1, H2.
  destruct (startup w (enter s)) as [[[]|e] s0] eqn:E.
  - rewrite startup_plays in E. apply play_Return_self in E.
    rewrite assigned_startup in E.
    eapply (later_signals_loop w s0); [done | by rewrite E | done..].
  - injection H1 as _ <-. injection H2 as _ <-.
    split; [done|]. exists []. by rewrite app_nil_r.
Qed.

End LaterSignals.

(** The scenario under trio's rule and with the handlers a process starts
    with: after the first SIGINT, another SIGINT and a SIGQUIT are
    received. *)
Lemma later_signals_are_not_handled_scenario :
  ∃ redelivered,
    scenario_startup_calls ++
    [OpPublish (lit "home/status") (lit "stop") 1 true;
     OpWaitForPublish; OpDisconnect; OpDisconnectEventWait;
     OpCancelScope MainNursery;
     OpSignalRaise SIGINT; OpSignalRaise SIGQUIT]
    = (scenario_startup_calls ++
       [OpPublish (lit "home/status") (lit "stop") 1 true;
        OpWaitForPublish; OpDisconnect; OpDisconnectEventWait;
        OpCancelScope MainNursery])
      ++ map OpSignalRaise redelivered ∧
    ∀ x, In x redelivered → In x [SIGINT; SIGQUIT].
Proof.
  refine (proj2 (later_signals_are_not_handled trio_defaults
           (boot scenario_server) SIGINT [SIGINT; SIGQUIT]
           (Return tt)
           {| self := set_mqtt (new_client scenario_options)
               (set_mqtt_nursery MQTTNursery
                  (set_main_nursery MainNursery
                     (set_trio_token CurrentTrioToken scenario_server)));
              trace := scenario_startup_calls ++
                [OpPublish (lit "home/status") (lit "stop") 1 true;
                 OpWaitForPublish; OpDisconnect; OpDisconnectEventWait;
                 OpCancelScope MainNursery];
              receiving := true |}
           (Raise Killed)
           {| self := set_mqtt (new_client scenario_options)
               (set_mqtt_nursery MQTTNursery
                  (set_main_nursery MainNursery
                     (set_trio_token CurrentTrioToken scenario_server)));
              trace := scenario_startup_calls ++
                [OpPublish (lit "home/status") (lit "stop") 1 true;
                 OpWaitForPublish; OpDisconnect; OpDisconnectEventWait;
                 OpCancelScope MainNursery;
                 OpSignalRaise SIGINT; OpSignalRaise SIGQUIT];
              receiving := true |} _ _ _)).
  - intros tr H; exact H.
  - vm_compute; reflexivity.
  - vm_compute; reflexivity.
Defined.

(** The scenario under trio's rule, run with one SIGINT: the run ends
    after the cancel of the main scope, with no module cleaned up. *)
Lemma signal_shutdown_never_cleans_up_scenario :
  let calls_made :=
    scenario_startup_calls ++
    [OpPublish (lit "home/status") (lit "stop") 1 true;
     OpWaitForPublish; OpDisconnect; OpDisconnectEventWait;
     OpCancelScope MainNursery] in
  cleanup_count GPIO calls_made = cleanup_count GPIO [] ∧
  cleanup_count SensorIO calls_made = cleanup_count SensorIO [] ∧
  cleanup_count StreamIO calls_made = cleanup_count StreamIO [].
Proof.
  pose proof (proj2 (signal_shutdown_never_cleans_up calm_trio
                       (boot scenario_server) (fun tr H => H))
                [SIGINT] (Return tt)
                {| self := set_mqtt (new_client scenario_options)
               (set_mqtt_nursery MQTTNursery
                  (set_main_nursery MainNursery
                     (set_trio_token CurrentTrioToken scenario_server)));
                   trace := scenario_startup_calls ++
                     [OpPublish (lit "home/status") (lit "stop") 1 true;
                      OpWaitForPublish; OpDisconnect; OpDisconnectEventWait;
                      OpCancelScope MainNursery];
                   receiving := true |}) as H.
  repeat split; apply H; vm_compute; reflexivity.
Defined.

(** The scenario under trio's rule: no module is cleaned up. *)
Lemma shutdown_cancelled_before_cleanup_scenario :
  cleanup_count GPIO
    (trace (scenario_after
              [OpPublish (lit "home/status") (lit "stop") 1 true;
               OpWaitForPublish; OpDisconnect; OpDisconnectEventWait;
               OpCancelScope MainNursery] true))
  = cleanup_count GPIO (trace scenario_running).
Proof.
  apply (shutdown_cancelled_before_cleanup calm_trio scenario_running
           (lit "home/status") (lit "stop") (new_client scenario_options)
           (Raise Cancelled)).
  - intros tr H; exact H.
  - exists scenario_mqtt, (lit "home"), (lit "status"), (lit "stop").
    repeat split; vm_compute; reflexivity.
  - reflexivity.
  - reflexivity.
  - vm_compute; reflexivity.
Defined.
